(** * pkggodev: the scraping client of pkg.go.dev

    A shallow embedding of [client.go] (both variants kept in the
    repository: the current one, with the repository-description resolver and
    the page ceiling in [Search], and the legacy one) and the properties of
    its date normalizer, its version accumulator, its search pagination, its
    package description, its list of importers and its repository URL
    handling, up to the description that [Sprinkle] adds to a package.

    Go strings are byte strings: they are modelled by [string], one [ascii]
    per byte.  Go's [int], [int64] and [time.Duration] are modelled by [Z],
    with the 64-bit wrap-around written out where the client does arithmetic
    on them. *)

From Stdlib Require Import ZArith List String Ascii Bool Lia.
Import ListNotations.

#[local] Open Scope string_scope.
#[local] Open Scope Z_scope.

(** ** Bytes *)

Definition byte_of (n : nat) : ascii := ascii_of_nat n.
Definition code (c : ascii) : nat := nat_of_ascii c.

Definition isDigit (c : ascii) : bool :=
  (48 <=? code c)%nat && (code c <=? 57)%nat.

Definition digit_value (c : ascii) : Z := Z.of_nat (code c) - 48.

Definition is_letter (c : ascii) : bool :=
  ((65 <=? code c)%nat && (code c <=? 90)%nat)
  || ((97 <=? code c)%nat && (code c <=? 122)%nat).

Definition isHex (c : ascii) : bool :=
  isDigit c
  || ((65 <=? code c)%nat && (code c <=? 70)%nat)
  || ((97 <=? code c)%nat && (code c <=? 102)%nat).

Definition unhex (c : ascii) : nat :=
  if isDigit c then (code c - 48)%nat
  else if (97 <=? code c)%nat then (code c - 97 + 10)%nat
  else (code c - 65 + 10)%nat.

Definition digit_char (d : Z) : ascii := byte_of (Z.to_nat (48 + d)).

(** Every byte of [s] satisfies [P]. *)
Fixpoint all_bytes (P : ascii -> bool) (s : string) : bool :=
  match s with
  | EmptyString => true
  | String c s' => P c && all_bytes P s'
  end.

(** The decimal digits of [u >= 0], most significant first. *)
Fixpoint utod (fuel : nat) (u : Z) (acc : string) : string :=
  match fuel with
  | O => acc
  | S f =>
      let acc := String (digit_char (u mod 10)) acc in
      if u <? 10 then acc else utod f (u / 10) acc
  end.

Definition decimal (u : Z) : string := utod (S (Z.to_nat (Z.log2 u))) u "".

(** ** Package [strings] *)

Module strings.

(** [s] starts with [pre]. *)
Fixpoint has_prefix (pre s : string) : bool :=
  match pre, s with
  | EmptyString, _ => true
  | String a pre', String b s' => Ascii.eqb a b && has_prefix pre' s'
  | String _ _, EmptyString => false
  end.

Definition HasPrefix (s pre : string) : bool := has_prefix pre s.

(** [s[len(pre):]] when [s] starts with [pre]. *)
Fixpoint strip_prefix (pre s : string) : option string :=
  match pre, s with
  | EmptyString, _ => Some s
  | String a pre', String b s' =>
      if Ascii.eqb a b then strip_prefix pre' s' else None
  | String _ _, EmptyString => None
  end.

Fixpoint rev (s : string) : string :=
  match s with
  | EmptyString => EmptyString
  | String c s' => rev s' ++ String c EmptyString
  end.

Fixpoint HasSuffix (s suf : string) : bool :=
  String.eqb s suf
  || match s with
     | EmptyString => false
     | String _ s' => HasSuffix s' suf
     end.

Definition TrimPrefix (s pre : string) : string :=
  match strip_prefix pre s with
  | Some rest => rest
  | None => s
  end.

(** [s[:len(s)-len(suf)]] when [s] ends with [suf]. *)
Fixpoint strip_suffix (suf s : string) : option string :=
  if String.eqb s suf then Some EmptyString
  else match s with
       | EmptyString => None
       | String c s' =>
           match strip_suffix suf s' with
           | Some r => Some (String c r)
           | None => None
           end
       end.

Definition TrimSuffix (s suf : string) : string :=
  match strip_suffix suf s with
  | Some rest => rest
  | None => s
  end.

Fixpoint Contains (s sub : string) : bool :=
  has_prefix sub s
  || match s with
     | EmptyString => false
     | String _ s' => Contains s' sub
     end.

(** [strings.IndexByte]: [None] stands for Go's [-1]. *)
Fixpoint IndexByte (s : string) (c : ascii) : option nat :=
  match s with
  | EmptyString => None
  | String b s' =>
      if Ascii.eqb b c then Some O
      else match IndexByte s' c with
           | Some i => Some (S i)
           | None => None
           end
  end.

Fixpoint LastIndexByte (s : string) (c : ascii) : option nat :=
  match s with
  | EmptyString => None
  | String b s' =>
      match LastIndexByte s' c with
      | Some i => Some (S i)
      | None => if Ascii.eqb b c then Some O else None
      end
  end.

(** [s[:i]] and [s[i:]] for [i <= len(s)]. *)
Fixpoint take (i : nat) (s : string) : string :=
  match i, s with
  | S k, String c s' => String c (take k s')
  | _, _ => EmptyString
  end.

Fixpoint drop (i : nat) (s : string) : string :=
  match i, s with
  | S k, String _ s' => drop k s'
  | _, _ => s
  end.

(** [strings.Cut] with a one-byte separator: before, after, found. *)
Fixpoint CutByte (s : string) (c : ascii) : string * string * bool :=
  match s with
  | EmptyString => (EmptyString, EmptyString, false)
  | String b s' =>
      if Ascii.eqb b c then (EmptyString, s', true)
      else let '(before, after, found) := CutByte s' c in
           (String b before, after, found)
  end.

Fixpoint CountByte (s : string) (c : ascii) : nat :=
  match s with
  | EmptyString => O
  | String b s' => (if Ascii.eqb b c then 1 else 0) + CountByte s' c
  end.

(** [strings.Split] for a non-empty separator.  [skip] counts the bytes of
    a separator occurrence that is being stepped over; the pair is the
    token under construction and the tokens after it. *)
Fixpoint Split_from (sep : string) (skip : nat) (s : string)
  : string * list string :=
  match s with
  | EmptyString => (EmptyString, [])
  | String c s' =>
      match skip with
      | S k => Split_from sep k s'
      | O =>
          if has_prefix sep s then
            (EmptyString,
             let (t, ts) := Split_from sep (String.length sep - 1) s' in
             t :: ts)
          else
            let (t, ts) := Split_from sep O s' in (String c t, ts)
      end
  end.

Definition Split (s sep : string) : list string :=
  let (t, ts) := Split_from sep O s in t :: ts.

(** [strings.ReplaceAll] for a non-empty [old]. *)
Fixpoint ReplaceAll_from (old new : string) (skip : nat) (s : string)
  : string :=
  match s with
  | EmptyString => EmptyString
  | String c s' =>
      match skip with
      | S k => ReplaceAll_from old new k s'
      | O =>
          if has_prefix old s then
            new ++ ReplaceAll_from old new (String.length old - 1) s'
          else String c (ReplaceAll_from old new O s')
      end
  end.

Definition ReplaceAll (s old new : string) : string :=
  ReplaceAll_from old new O s.

(** White space as [unicode.IsSpace] sees it in UTF-8: the six ASCII
    spaces, U+0085, U+00A0, U+1680, U+2000..U+200A, U+2028, U+2029, U+202F,
    U+205F and U+3000.  [space_width s] is the byte width of the space
    rune [s] starts with, [0] when it starts with none. *)
Definition ascii_space (n : nat) : bool :=
  ((9 <=? n) && (n <=? 13) || (n =? 32))%nat.

Definition space_width (s : string) : nat :=
  match s with
  | EmptyString => O
  | String a r =>
      let n := code a in
      if ascii_space n then 1%nat
      else match r with
           | EmptyString => O
           | String b r' =>
               let m := code b in
               if ((n =? 194) && ((m =? 133) || (m =? 160)))%nat then 2%nat
               else match r' with
                    | EmptyString => O
                    | String c _ =>
                        let k := code c in
                        if ((n =? 225) && (m =? 154) && (k =? 128))%nat
                           || ((n =? 226) && (m =? 128)
                               && (((128 <=? k) && (k <=? 138))
                                   || (k =? 168) || (k =? 169)
                                   || (k =? 175)))%nat
                           || ((n =? 226) && (m =? 129) && (k =? 159))%nat
                           || ((n =? 227) && (m =? 128) && (k =? 128))%nat
                        then 3%nat else O
                    end
           end
  end.

(** The same on a reversed string: the width of the space rune the
    original string ends with. *)
Definition space_width_rev (s : string) : nat :=
  match s with
  | EmptyString => O
  | String a r =>
      if ascii_space (code a) then 1%nat
      else match r with
           | EmptyString => O
           | String b r' =>
               if (space_width (String b (String a EmptyString)) =? 2)%nat
               then 2%nat
               else match r' with
                    | EmptyString => O
                    | String c _ =>
                        if (space_width
                              (String c (String b (String a EmptyString)))
                            =? 3)%nat
                        then 3%nat else O
                    end
           end
  end.

Fixpoint trim_spaces (width : string -> nat) (skip : nat) (s : string)
  : string :=
  match s with
  | EmptyString => EmptyString
  | String _ s' =>
      match skip with
      | S k => trim_spaces width k s'
      | O =>
          match width s with
          | O => s
          | S k => trim_spaces width k s'
          end
      end
  end.

Definition TrimSpace (s : string) : string :=
  rev (trim_spaces space_width_rev O (rev (trim_spaces space_width O s))).

(** [strings.Trim] for a cutset of ASCII bytes. *)
Definition in_cutset (cutset : string) (c : ascii) : bool :=
  match IndexByte cutset c with
  | Some _ => true
  | None => false
  end.

Fixpoint TrimLeft (s cutset : string) : string :=
  match s with
  | EmptyString => EmptyString
  | String c s' => if in_cutset cutset c then TrimLeft s' cutset else s
  end.

Definition Trim (s cutset : string) : string :=
  rev (TrimLeft (rev (TrimLeft s cutset)) cutset).

End strings.

(** ** Package [strconv] *)

Module strconv.

Inductive ErrKind := ErrSyntax | ErrRange.

Record NumError := mkNumError { Func : string; Num : string; Err : ErrKind }.

Definition maxUint64 : Z := 2 ^ 64 - 1.

(** The digit loop of [ParseUint(s, 10, 64)]: a byte that is no decimal
    digit is a syntax error at once, an overflow a range error at once. *)
Fixpoint parse_digits (n : Z) (s : string) : Z * option ErrKind :=
  match s with
  | EmptyString => (n, None)
  | String c s' =>
      if negb (isDigit c) then (0, Some ErrSyntax)
      else if maxUint64 / 10 + 1 <=? n then (maxUint64, Some ErrRange)
      else let n1 := n * 10 + digit_value c in
           if maxUint64 <? n1 then (maxUint64, Some ErrRange)
           else parse_digits n1 s'
  end.

Definition ParseUint10 (s : string) : Z * option ErrKind :=
  match s with
  | EmptyString => (0, Some ErrSyntax)
  | _ => parse_digits 0 s
  end.

(** [strconv.ParseInt(s, 10, 64)], reporting errors under the name [fn]. *)
Definition parse_int64 (fn s : string) : Z * option NumError :=
  match s with
  | EmptyString => (0, Some (mkNumError fn s ErrSyntax))
  | String c s' =>
      let neg := Ascii.eqb c "-" in
      let body := if Ascii.eqb c "+" || neg then s' else s in
      match ParseUint10 body with
      | (_, Some ErrSyntax) => (0, Some (mkNumError fn s ErrSyntax))
      | (un, _) =>
          let cutoff := 2 ^ 63 in
          if negb neg && (cutoff <=? un) then
            (cutoff - 1, Some (mkNumError fn s ErrRange))
          else if neg && (cutoff <? un) then
            (- cutoff, Some (mkNumError fn s ErrRange))
          else (if neg then - un else un, None)
      end
  end.

Definition ParseInt (s : string) : Z * option NumError :=
  parse_int64 "ParseInt" s.

(** [strconv.Atoi] on a 64-bit platform. *)
Definition Atoi (s : string) : Z * option NumError :=
  parse_int64 "Atoi" s.

End strconv.

(** ** Package [time]

    An instant is a count of nanoseconds since January 1 of year 1,
    00:00:00 UTC, the epoch of Go's internal representation; the client never
    sets a location, and the clock is read in UTC.  Go shifts the epoch to a
    far past year that is 1 modulo 400 so as to divide unsigned numbers; with
    the floor division of [Z] the shift is not needed.  The layouts are kept
    as the sequences of chunks [nextStdChunk] cuts them into. *)

Module time.

Definition Time := Z.
Definition Duration := Z.

Definition Second : Duration := 1000000000.
Definition Hour : Duration := 3600 * Second.
Definition secondsPerDay : Z := 86400.
Definition nsPerDay : Z := secondsPerDay * Second.

Definition daysPer400Years : Z := 365 * 400 + 97.
Definition daysPer100Years : Z := 365 * 100 + 24.
Definition daysPer4Years : Z := 365 * 4 + 1.

Definition isLeap (year : Z) : bool :=
  (year mod 4 =? 0) && (negb (year mod 100 =? 0) || (year mod 400 =? 0)).

(** [daysBefore[m]]: the days of a non-leap year before month [m+1]. *)
Definition daysBefore (m : Z) : Z :=
  match m with
  | 0 => 0 | 1 => 31 | 2 => 59 | 3 => 90 | 4 => 120 | 5 => 151 | 6 => 181
  | 7 => 212 | 8 => 243 | 9 => 273 | 10 => 304 | 11 => 334 | _ => 365
  end.

Definition daysIn (m year : Z) : Z :=
  if (m =? 2) && isLeap year then 29 else daysBefore m - daysBefore (m - 1).

(** [norm hi lo base]: [lo] brought into [0, base), the overflow carried
    into [hi]. *)
Definition norm (hi lo base : Z) : Z * Z := (hi + lo / base, lo mod base).

Definition daysSinceEpoch (year : Z) : Z :=
  let y := year - 1 in
  let n := y / 400 in
  let y := y - 400 * n in
  let d := daysPer400Years * n in
  let n := y / 100 in
  let y := y - 100 * n in
  let d := d + daysPer100Years * n in
  let n := y / 4 in
  let y := y - 4 * n in
  let d := d + daysPer4Years * n in
  d + 365 * y.

(** [time.Date] in UTC. *)
Definition Date (year month day hour min sec nsec : Z) : Time :=
  let '(year, m) := norm year (month - 1) 12 in
  let month := m + 1 in
  let '(sec, nsec) := norm sec nsec 1000000000 in
  let '(min, sec) := norm min sec 60 in
  let '(hour, min) := norm hour min 60 in
  let '(day, hour) := norm day hour 24 in
  let d := daysSinceEpoch year + daysBefore (month - 1) in
  let d := if isLeap year && (3 <=? month) then d + 1 else d in
  let d := d + (day - 1) in
  (d * secondsPerDay + hour * 3600 + min * 60 + sec) * Second + nsec.

(** The year and the day of the year ([0]-based) of a day count. *)
Definition absYear (days : Z) : Z * Z :=
  let d := days in
  let n := d / daysPer400Years in
  let y := 400 * n in
  let d := d - daysPer400Years * n in
  let n := d / daysPer100Years in
  let n := n - Z.shiftr n 2 in
  let y := y + 100 * n in
  let d := d - daysPer100Years * n in
  let n := d / daysPer4Years in
  let y := y + 4 * n in
  let d := d - daysPer4Years * n in
  let n := d / 365 in
  let n := n - Z.shiftr n 2 in
  let y := y + n in
  let d := d - 365 * n in
  (y + 1, d).

(** The month and the day of the month of a day of the year. *)
Definition monthDay (leap : bool) (yday : Z) : Z * Z :=
  if leap && (yday =? 31 + 29 - 1) then (2, 29)
  else
    let day := if leap && (31 + 29 - 1 <? yday) then yday - 1 else yday in
    let month := day / 31 in
    let end_ := daysBefore (month + 1) in
    if end_ <=? day then (month + 2, day - end_ + 1)
    else (month + 1, day - daysBefore month + 1).

(** [t.Date()]: year, month and day. *)
Definition civil (t : Time) : Z * Z * Z :=
  let (year, yday) := absYear (t / nsPerDay) in
  let (month, day) := monthDay (isLeap year) yday in
  (year, month, day).

Definition Year (t : Time) : Z := fst (fst (civil t)).

(** [t.Add(d)], away from the ends of the representable range. *)
Definition Add (t : Time) (d : Duration) : Time := t + d.

(** [t.AddDate(years, months, days)]. *)
Definition AddDate (t : Time) (years months days : Z) : Time :=
  let '(year, month, day) := civil t in
  let ns := t mod nsPerDay in
  Date (year + years) (month + months) (day + days)
       (ns / Hour) (ns mod Hour / (60 * Second))
       (ns mod (60 * Second) / Second) (ns mod Second).

(** Layout chunks. *)
Inductive chunk :=
| Lit (s : string)
| stdMonth        (* Jan *)
| stdDay          (* 2 *)
| stdLongYear     (* 2006 *)
| stdZeroMonth    (* 01 *)
| stdZeroDay.     (* 02 *)

Definition chunk_text (c : chunk) : string :=
  match c with
  | Lit s => s
  | stdMonth => "Jan"
  | stdDay => "2"
  | stdLongYear => "2006"
  | stdZeroMonth => "01"
  | stdZeroDay => "02"
  end.

Definition layout_text (l : list chunk) : string :=
  fold_right (fun c acc => chunk_text c ++ acc) "" l.

(** The layout ["Jan 2, 2006"]. *)
Definition layout_Jan_2_2006 : list chunk :=
  [stdMonth; Lit " "; stdDay; Lit ", "; stdLongYear].

(** The layout ["2006-01-02"]. *)
Definition layout_2006_01_02 : list chunk :=
  [stdLongYear; Lit "-"; stdZeroMonth; Lit "-"; stdZeroDay].

Definition shortMonthNames : list string :=
  ["Jan"; "Feb"; "Mar"; "Apr"; "May"; "Jun";
   "Jul"; "Aug"; "Sep"; "Oct"; "Nov"; "Dec"].

(** *** Formatting *)

Fixpoint zeros (n : nat) : string :=
  match n with
  | O => ""
  | S k => String "0" (zeros k)
  end.

(** [appendInt]: the decimal form of [x], zero-padded to [width]. *)
Definition appendInt (x : Z) (width : nat) : string :=
  let u := Z.abs x in
  let ds := decimal u in
  (if x <? 0 then "-" else "")
  ++ zeros (width - String.length ds) ++ ds.

Definition nth_name (i : Z) : string :=
  nth (Z.to_nat i) shortMonthNames "".

Definition format_chunk (year month day : Z) (c : chunk) : string :=
  match c with
  | Lit s => s
  | stdMonth => nth_name (month - 1)
  | stdDay => appendInt day 0
  | stdLongYear => appendInt year 4
  | stdZeroMonth => appendInt month 2
  | stdZeroDay => appendInt day 2
  end.

Definition Format (t : Time) (layout : list chunk) : string :=
  let '(year, month, day) := civil t in
  fold_right (fun c acc => format_chunk year month day c ++ acc) "" layout.

(** *** Parsing *)

(** What the message of a [ParseError] says: nothing (the value does not
    fit the layout element), extra text, or a field out of range. *)
Inductive Complaint := BadValue | ExtraText | DayOutOfRange | MonthOutOfRange.

Record ParseError := mkParseError {
  Layout : string;
  Value : string;
  LayoutElem : string;
  ValueElem : string;
  Message : Complaint
}.

(** [match]: equality of two bytes, letters compared without case. *)
Definition match_byte (c1 c2 : ascii) : bool :=
  Ascii.eqb c1 c2
  || (let l1 := Nat.lor (code c1) 32 in
      let l2 := Nat.lor (code c2) 32 in
      (l1 =? l2)%nat && (97 <=? l1)%nat && (l1 <=? 122)%nat).

(** [Some rest] when [val] starts with [v], letters without case. *)
Fixpoint match_prefix (v val : string) : option string :=
  match v, val with
  | EmptyString, _ => Some val
  | String a v', String b val' =>
      if match_byte b a then match_prefix v' val' else None
  | String _ _, EmptyString => None
  end.

(** [lookup]: the index of the first name [val] starts with, and what
    follows the name. *)
Fixpoint lookup (i : Z) (tab : list string) (val : string)
  : option (Z * string) :=
  match tab with
  | [] => None
  | v :: tab' =>
      match match_prefix v val with
      | Some rest => Some (i, rest)
      | None => lookup (i + 1) tab' val
      end
  end.

Fixpoint cutspace (s : string) : string :=
  match s with
  | String " " s' => cutspace s'
  | _ => s
  end.

(** [skip]: [value] without [prefix], a run of spaces of [prefix] standing
    for any run of spaces of [value]; [in_space] holds inside a run of
    spaces of [prefix] that has been matched.  The result is what is left
    of [value], and whether [prefix] was matched in full. *)
Fixpoint skip_from (in_space : bool) (prefix value : string)
  : string * bool :=
  match prefix with
  | EmptyString => (value, true)
  | String p prefix' =>
      if Ascii.eqb p " " then
        if in_space then skip_from true prefix' value
        else match value with
             | String v _ =>
                 if Ascii.eqb v " "
                 then skip_from true prefix' (cutspace value)
                 else (value, false)
             | EmptyString => skip_from true prefix' value
             end
      else match value with
           | String v value' =>
               if Ascii.eqb v p then skip_from false prefix' value'
               else (value, false)
           | EmptyString => (value, false)
           end
  end.

Definition skip (value prefix : string) : string * bool :=
  skip_from false prefix value.

(** [getnum]: a number of one or two digits, of two digits when [fixed]. *)
Definition getnum (s : string) (fixed : bool) : option (Z * string) :=
  match s with
  | String a r =>
      if isDigit a then
        match r with
        | String b r' =>
            if isDigit b then Some (digit_value a * 10 + digit_value b, r')
            else if fixed then None else Some (digit_value a, r)
        | EmptyString => if fixed then None else Some (digit_value a, r)
        end
      else None
  | EmptyString => None
  end.

(** The four-digit year of [stdLongYear]: the outcome and the text left. *)
Definition getyear (value : string) : option Z * string :=
  match value with
  | String a (String b (String c (String d rest))) =>
      if isDigit a then
        (if isDigit b && isDigit c && isDigit d
         then Some (((digit_value a * 10 + digit_value b) * 10
                     + digit_value c) * 10 + digit_value d)
         else None,
         rest)
      else (None, value)
  | _ => (None, value)
  end.

(** The loop of [time.Parse] over the chunks that are left, with the year,
    month and day read so far ([-1] while a month or day is not set). *)
Fixpoint parse_chunks (alayout avalue : string) (chunks : list chunk)
         (year month day : Z) (value : string) : Time + ParseError :=
  let bad elem v msg := inr (mkParseError alayout avalue elem v msg) in
  match chunks with
  | [] =>
      match value with
      | String _ _ => bad "" value ExtraText
      | EmptyString =>
          let month := if month <? 0 then 1 else month in
          let day := if day <? 0 then 1 else day in
          if (day <? 1) || (daysIn month year <? day)
          then bad "" value DayOutOfRange
          else inl (Date year month day 0 0 0 0)
      end
  | Lit prefix :: rest =>
      match skip value prefix with
      | (value', true) =>
          parse_chunks alayout avalue rest year month day value'
      | (value', false) => bad prefix value' BadValue
      end
  | stdMonth :: rest =>
      match lookup 0 shortMonthNames value with
      | Some (i, value') =>
          parse_chunks alayout avalue rest year (i + 1) day value'
      | None => bad "Jan" value BadValue
      end
  | stdDay :: rest =>
      match getnum value false with
      | Some (d, value') =>
          parse_chunks alayout avalue rest year month d value'
      | None => bad "2" value BadValue
      end
  | stdZeroDay :: rest =>
      match getnum value true with
      | Some (d, value') =>
          parse_chunks alayout avalue rest year month d value'
      | None => bad "02" value BadValue
      end
  | stdZeroMonth :: rest =>
      match getnum value true with
      | Some (m, value') =>
          if (m <=? 0) || (12 <? m)
          then bad "01" value' MonthOutOfRange
          else parse_chunks alayout avalue rest year m day value'
      | None => bad "01" value BadValue
      end
  | stdLongYear :: rest =>
      match getyear value with
      | (Some y, value') =>
          parse_chunks alayout avalue rest y month day value'
      | (None, value') => bad "2006" value' BadValue
      end
  end.

Definition Parse (layout : list chunk) (value : string)
  : Time + ParseError :=
  parse_chunks (layout_text layout) value layout 0 (-1) (-1) value.

End time.

(** ** Package [net/url]

    [url.Parse], as far as the scheme, the authority and the validity of the
    escapes go; the user information is checked and dropped. *)

Module url.

Inductive Error :=
| InvalidControlCharacter
| MissingProtocolScheme
| ColonInFirstPathSegment
| MissingBracketInHost
| InvalidPort (colonPort : string)
| InvalidUserinfo
| EscapeError (s : string)
| InvalidHostError (s : string).

Record URL := mkURL {
  Scheme : string;
  Opaque : string;
  Host : string;
  Path : string;
  ForceQuery : bool;
  RawQuery : string;
  Fragment : string
}.

Inductive encoding :=
| encodePath | encodeUserPassword | encodeHost | encodeZone | encodeFragment.

Definition is_host_mode (mode : encoding) : bool :=
  match mode with
  | encodeHost | encodeZone => true
  | _ => false
  end.

Definition isAlnum (c : ascii) : bool := is_letter c || isDigit c.

(** [shouldEscape(c, encodeHost)]. *)
Definition shouldEscapeHost (c : ascii) : bool :=
  negb (isAlnum c
        || strings.in_cutset "!$&'()*+,;=:[]<>" c
        || Ascii.eqb c (byte_of 34)
        || strings.in_cutset "-_.~" c).

Definition hex_byte (h1 h2 : ascii) : ascii :=
  byte_of (unhex h1 * 16 + unhex h2).

(** [unescape]: the escapes are checked and decoded in one pass. *)
Fixpoint unescape (s : string) (mode : encoding) : string + Error :=
  match s with
  | EmptyString => inl EmptyString
  | String "%" s' =>
      match s' with
      | String h1 (String h2 rest) =>
          if negb (isHex h1 && isHex h2) then
            inr (EscapeError (strings.take 3 s))
          else if match mode with
                  | encodeHost =>
                      (unhex h1 <? 8)%nat
                      && negb (Ascii.eqb h1 "2" && Ascii.eqb h2 "5")
                  | encodeZone =>
                      negb (Ascii.eqb h1 "2" && Ascii.eqb h2 "5")
                      && negb (Ascii.eqb (hex_byte h1 h2) " ")
                      && shouldEscapeHost (hex_byte h1 h2)
                  | _ => false
                  end
          then inr (EscapeError (strings.take 3 s))
          else match unescape rest mode with
               | inl t => inl (String (hex_byte h1 h2) t)
               | inr e => inr e
               end
      | _ => inr (EscapeError (strings.take 3 s))
      end
  | String c s' =>
      if is_host_mode mode && (code c <? 128)%nat && shouldEscapeHost c
      then inr (InvalidHostError (String c EmptyString))
      else match unescape s' mode with
           | inl t => inl (String c t)
           | inr e => inr e
           end
  end.

Fixpoint stringContainsCTLByte (s : string) : bool :=
  match s with
  | EmptyString => false
  | String c s' =>
      (code c <? 32)%nat || (code c =? 127)%nat || stringContainsCTLByte s'
  end.

(** [getScheme]: the scheme read so far is [acc], reversed. *)
Fixpoint getScheme_from (acc rawURL rest : string)
  : (string * string) + Error :=
  match rest with
  | EmptyString => inl (EmptyString, rawURL)
  | String c rest' =>
      if is_letter c then getScheme_from (String c acc) rawURL rest'
      else if isDigit c || strings.in_cutset "+-." c then
        match acc with
        | EmptyString => inl (EmptyString, rawURL)
        | _ => getScheme_from (String c acc) rawURL rest'
        end
      else if Ascii.eqb c ":" then
        match acc with
        | EmptyString => inr MissingProtocolScheme
        | _ => inl (strings.rev acc, rest')
        end
      else inl (EmptyString, rawURL)
  end.

Definition getScheme (rawURL : string) : (string * string) + Error :=
  getScheme_from EmptyString rawURL rawURL.

Definition lower (c : ascii) : ascii :=
  if ((65 <=? code c) && (code c <=? 90))%nat then byte_of (code c + 32)
  else c.

Fixpoint ToLower (s : string) : string :=
  match s with
  | EmptyString => EmptyString
  | String c s' => String (lower c) (ToLower s')
  end.

Fixpoint all_digits (s : string) : bool :=
  match s with
  | EmptyString => true
  | String c s' => isDigit c && all_digits s'
  end.

Definition validOptionalPort (port : string) : bool :=
  match port with
  | EmptyString => true
  | String c rest => Ascii.eqb c ":" && all_digits rest
  end.

Fixpoint validUserinfo (s : string) : bool :=
  match s with
  | EmptyString => true
  | String c s' =>
      (isAlnum c || strings.in_cutset "-._:~!$&'()*+,;=%@" c)
      && validUserinfo s'
  end.

(** Where the first ["%25"] of [s] starts. *)
Fixpoint Index_pct25 (s : string) : option nat :=
  if strings.has_prefix "%25" s then Some O
  else match s with
       | EmptyString => None
       | String _ s' =>
           match Index_pct25 s' with
           | Some i => Some (S i)
           | None => None
           end
       end.

Definition parseHost (host : string) : string + Error :=
  if strings.HasPrefix host "[" then
    match strings.LastIndexByte host "]" with
    | None => inr MissingBracketInHost
    | Some i =>
        let colonPort := strings.drop (i + 1) host in
        if negb (validOptionalPort colonPort) then inr (InvalidPort colonPort)
        else
          match Index_pct25 (strings.take i host) with
          | Some zone =>
              match unescape (strings.take zone host) encodeHost with
              | inr e => inr e
              | inl host1 =>
                  match unescape (strings.drop zone (strings.take i host))
                                 encodeZone with
                  | inr e => inr e
                  | inl host2 =>
                      match unescape (strings.drop i host) encodeHost with
                      | inr e => inr e
                      | inl host3 => inl (host1 ++ host2 ++ host3)
                      end
                  end
              end
          | None => unescape host encodeHost
          end
    end
  else
    match strings.LastIndexByte host ":" with
    | Some i =>
        let colonPort := strings.drop i host in
        if negb (validOptionalPort colonPort) then inr (InvalidPort colonPort)
        else unescape host encodeHost
    | None => unescape host encodeHost
    end.

(** [parseAuthority]: the host, once the user information has passed its
    checks. *)
Definition parseAuthority (authority : string) : string + Error :=
  match strings.LastIndexByte authority "@" with
  | None => parseHost authority
  | Some i =>
      match parseHost (strings.drop (i + 1) authority) with
      | inr e => inr e
      | inl host =>
          let userinfo := strings.take i authority in
          if negb (validUserinfo userinfo) then inr InvalidUserinfo
          else
            let '(username, password, _) := strings.CutByte userinfo ":" in
            match unescape username encodeUserPassword with
            | inr e => inr e
            | inl _ =>
                match unescape password encodeUserPassword with
                | inr e => inr e
                | inl _ => inl host
                end
            end
      end
  end.

(** [s[:len(s)-1]]. *)
Fixpoint init (s : string) : string :=
  match s with
  | EmptyString => EmptyString
  | String _ EmptyString => EmptyString
  | String c s' => String c (init s')
  end.

(** [parse(rawURL, false)]: a URL without its fragment. *)
Definition parse (rawURL : string) : URL + Error :=
  if stringContainsCTLByte rawURL then inr InvalidControlCharacter
  else if String.eqb rawURL "*" then
    inl (mkURL "" "" "" "*" false "" "")
  else
    match getScheme rawURL with
    | inr e => inr e
    | inl (scheme, rest) =>
        let scheme := ToLower scheme in
        let '(rest, force, query) :=
          if strings.HasSuffix rest "?"
             && (strings.CountByte rest "?" =? 1)%nat
          then (init rest, true, EmptyString)
          else let '(before, after, _) := strings.CutByte rest "?" in
               (before, false, after) in
        let rooted := strings.HasPrefix rest "/" in
        if negb rooted && negb (String.eqb scheme "") then
          inl (mkURL scheme rest "" "" force query "")
        else if negb rooted
                && strings.Contains
                     (fst (fst (strings.CutByte rest "/"))) ":"
        then inr ColonInFirstPathSegment
        else
          let with_path host rest :=
            match unescape rest encodePath with
            | inr e => inr e
            | inl path => inl (mkURL scheme "" host path force query "")
            end in
          if (negb (String.eqb scheme "")
              || negb (strings.HasPrefix rest "///"))
             && strings.HasPrefix rest "//"
          then
            let '(authority, after, found) :=
              strings.CutByte (strings.drop 2 rest) "/" in
            match parseAuthority authority with
            | inr e => inr e
            | inl host =>
                with_path host (if found then String "/" after else "")
            end
          else with_path EmptyString rest
    end.

Definition Parse (rawURL : string) : URL + Error :=
  let '(u, frag, _) := strings.CutByte rawURL "#" in
  match parse u with
  | inr e => inr e
  | inl url =>
      match frag with
      | EmptyString => inl url
      | _ =>
          match unescape frag encodeFragment with
          | inr e => inr e
          | inl f =>
              inl (mkURL (Scheme url) (Opaque url) (Host url) (Path url)
                         (ForceQuery url) (RawQuery url) f)
          end
      end
  end.

End url.

(** ** The one regular expression of the client

    [git@([^:]+):(.+)\.git$], matched the way [regexp] does: at the leftmost
    position where the whole expression matches.  From a given start the
    match is forced: the first group is the run of bytes other than [:] that
    follows [git@] and has to be non-empty and followed by [:]; what follows
    has to end the text with [.git], and the second group, what stands
    before that [.git], has to be non-empty and free of line feeds, which
    [.] does not match. *)

Module regexp.

Definition no_newline (s : string) : bool :=
  match strings.IndexByte s (byte_of 10) with
  | None => true
  | Some _ => false
  end.

(** The submatches when the expression matches from the start of [s]. *)
Definition match_here (s : string) : option (list string) :=
  match strings.strip_prefix "git@" s with
  | None => None
  | Some r =>
      match strings.CutByte r ":" with
      | (_, _, false) => None
      | (EmptyString, _, true) => None
      | (g1, rest, true) =>
          match strings.strip_suffix ".git" rest with
          | None => None
          | Some EmptyString => None
          | Some g2 => if no_newline g2 then Some [s; g1; g2] else None
          end
      end
  end.

(** [re.FindStringSubmatch(s)]: [nil] when there is no match. *)
Fixpoint FindStringSubmatch (s : string) : list string :=
  match match_here s with
  | Some m => m
  | None =>
      match s with
      | EmptyString => []
      | String _ s' => FindStringSubmatch s'
      end
  end.

End regexp.

(** ** Errors, panics and outcomes *)

(** The error values the client makes or passes on: the sentinel, the errors
    of [strconv] and [time], one constructor for each [fmt.Errorf] of the
    client, and the errors of the transport, which stay opaque. *)
Inductive error :=
| ErrNotFound
| NumError (e : strconv.NumError)
| ParseError (e : time.ParseError)
| TransportError (msg : string)
| Errorf_parsing_quantity (quantityStr s : string) (e : error)
| Errorf_unknown_quantity (quantityStr s : string)
| Errorf_parsing_date (s : string) (e : error)
| Errorf_making_req (url : string) (e : error)
| Errorf_IsPackage_false (pkg : string)
| Errorf_parsing_published_date (s : string) (e : error)
| Errorf_error_fetching (url : string) (e : error)
| Errorf_visiting_page (page : Z) (e : error).

Record ErrorList := mkErrorList { Errs : list error }.

(** A run-time panic: an index outside of a slice. *)
Inductive panic := IndexOutOfRange (index len : nat).

Inductive outcome (A : Type) :=
| Done (a : A)
| Panic (p : panic).

Arguments Done {A} a.
Arguments Panic {A} p.

Definition bind {A B : Type} (c : outcome A) (k : A -> outcome B) : outcome B :=
  match c with
  | Done a => k a
  | Panic p => Panic p
  end.

Notation "x <- c ;; k" := (bind c (fun x => k))
  (at level 61, c at next level, right associativity).
Notation "' pat <- c ;; k" := (bind c (fun x => match x with pat => k end))
  (at level 61, pat pattern, c at next level, right associativity).

(** A callback run on each element of a selection, in document order. *)
Fixpoint Each {A S : Type} (f : S -> A -> outcome S) (l : list A) (st : S)
  : outcome S :=
  match l with
  | [] => Done st
  | a :: l' => st' <- f st a ;; Each f l' st'
  end.

(** [l[i]]. *)
Definition index (l : list string) (i : nat) : outcome string :=
  match nth_error l i with
  | Some x => Done x
  | None => Panic (IndexOutOfRange i (List.length l))
  end.

(** Signed 64-bit wrap-around. *)
Definition wrap64 (z : Z) : Z := (z + 2 ^ 63) mod 2 ^ 64 - 2 ^ 63.

(** [fmt]'s [%d]. *)
Definition Sprint_d (z : Z) : string :=
  (if z <? 0 then "-" else "") ++ decimal (Z.abs z).

(** ** The documents, as the selectors of the client see them

    A fetched page is known to the client through its selectors only: for
    each selector, the document gives the matched elements in document order,
    each with the texts and attributes that the callback of the selector
    reads from it. *)

(** A child of [.Versions-list]: its classes, its text, the text of its
    [.js-versionLink] descendants, and the text of its [.Version-summary]
    descendants once their [span]s are removed. *)
Record node := mkNode {
  classes : list string;
  Text : string;
  js_versionLink : string;
  Version_summary : string
}.

Definition HasClass (s : node) (class : string) : bool :=
  existsb (String.eqb class) (classes s).

(** A [.SearchSnippet]: the texts that [Search] reads from it. *)
Record snippet := mkSnippet {
  headerContainer_a : string;     (* .SearchSnippet-headerContainer a, first *)
  snippet_synopsis : string;      (* .SearchSnippet-synopsis *)
  infoLabel_spans : string;       (* .SearchSnippet-infoLabel > span *)
  snippet_published : string;     (* [data-test-id=snippet-published] strong *)
  importedby_strong : string;     (* a[href*='tab=importedby'] strong *)
  snippet_license_a : string;     (* [data-test-id=snippet-license] a *)
  snippet_license : string        (* [data-test-id=snippet-license] *)
}.

(** A [.LegacySearchSnippet]: the texts that the legacy [Search] reads. *)
Record legacy_snippet := mkLegacySnippet {
  legacy_title : string;          (* [data-test-id=snippet-title] *)
  legacy_synopsis : string;       (* .SearchSnippet-synopsis *)
  legacy_version : string;        (* [data-test-id=snippet-version] *)
  legacy_published : string;      (* [data-test-id=snippet-published] *)
  legacy_importedby : string;     (* [data-test-id=snippet-importedby] *)
  legacy_license : string         (* [data-test-id=snippet-license] *)
}.

Record document := mkDocument {
  (* [data-test-id=UnitHeader-version]: the text of the first child *)
  UnitHeader_version : list string;
  (* [data-test-id=UnitHeader-licenses]: the text of the first child *)
  UnitHeader_licenses : list string;
  (* .UnitMeta: for each [li], whether it holds an [img[alt=checked]] *)
  UnitMeta : list (list bool);
  (* .UnitMeta-repo: the text of the first child *)
  UnitMeta_repo : list string;
  (* [data-test-id=UnitHeader-commitTime]: the text *)
  UnitHeader_commitTime : list string;
  (* .UnitHeader-titleHeading: the texts of the following siblings *)
  UnitHeader_titleHeading : list (list string);
  (* .SearchSnippet-synopsis: the text *)
  SearchSnippet_synopsis : list string;
  (* .UnitReadme-content img: the [alt] and [src] attributes *)
  UnitReadme_content_img : list (string * string);
  (* .Versions-list: the children *)
  Versions_list : list (list node);
  (* .SearchResults: the [.SearchSnippet] descendants *)
  SearchResults_sel : list (list snippet);
  (* [data-test-id=results-total]: the text *)
  results_total : list string;
  (* .LegacySearchSnippet *)
  LegacySearchSnippet : list legacy_snippet;
  (* p[class*='f4']: the text *)
  p_f4 : list string;
  (* .home-panel-description-markdown p: the text *)
  home_panel_description : list string;
  (* .repo-description .description: the text *)
  repo_description : list string;
  (* .blob-content p: the text *)
  blob_content_p : list string
}.

Definition empty_document : document :=
  mkDocument [] [] [] [] [] [] [] [] [] [] [] [] [] [] [] [].

(** What [col.Visit] does with a URL.  [Scraped]: the page is fetched, the
    [OnHTML] callbacks run and [Visit] returns [nil].  [Failed]: the request
    fails or the status is an error status, the [OnError] callbacks run and
    [Visit] returns the error.  [Refused]: [Visit] returns an error before
    any request is made, and no callback runs. *)
Inductive response :=
| Scraped (d : document)
| Failed (StatusCode : Z) (e : error)
| Refused (e : error).

(** ** The records of the client *)

Record client := mkClient { baseURL : string }.

Definition New : client := mkClient "https://pkg.go.dev".
Definition WithBaseURL (url : string) (c : client) : client := mkClient url.

Record Image := mkImage { Image_Alt : string; Image_URL : string }.

Record Package := mkPackage {
  Package_Package : string;
  Package_IsModule : bool;
  Package_IsPackage : bool;
  Package_Version : string;
  Package_Published : string;
  Package_License : string;
  Package_HasValidGoModFile : bool;
  Package_HasRedistributableLicense : bool;
  Package_HasTaggedVersion : bool;
  Package_HasStableVersion : bool;
  Package_Repository : string;
  Package_Synopsis : string;
  Package_Images : list Image
}.

Record Version := mkVersion {
  Version_MajorVersion : string;
  Version_FullVersion : string;
  Version_Date : string
}.

Record Versions := mkVersions {
  Versions_Package : string;
  Versions_Versions : list Version
}.

Record SearchRequest := mkSearchRequest { Query : string; Limit : Z }.

Record SearchResult := mkSearchResult {
  SearchResult_Package : string;
  SearchResult_Version : string;
  SearchResult_Published : string;
  SearchResult_ImportedBy : Z;
  SearchResult_License : string;
  SearchResult_Synopsis : string
}.

Record SearchResults := mkSearchResults { Results : list SearchResult }.

Inductive GitHostType :=
| GitHostUnknown
| GitHostGitHub
| GitHostGitLab
| GitHostCodeberg
| GitHostSourcehut.

(** What [ImportedBy] returns. *)
Record ImportedBy := mkImportedBy {
  ImportedBy_Package : string;
  ImportedBy_ImportedBy : list string
}.

(** The errors of [Sprinkle]: three texts, which wrap nothing. *)
Inductive Sprinkle_error :=
| Errorf_package_is_nil
| Errorf_no_repository_URL
| Errorf_could_not_fetch_description.

(** ** [normalizeTime]

    [now] is what [time.Now()] returns to this call. *)

Definition normalizeTime (now : time.Time) (s : string)
  : outcome (string * option error) :=
  if String.eqb s "today" then
    Done (time.Format now time.layout_2006_01_02, None)
  else if strings.Contains s "ago" then
    let split := strings.Split s " " in
    quantityStr <- index split 0 ;;
    match strconv.ParseInt quantityStr with
    | (_, Some err) =>
        Done ("", Some (Errorf_parsing_quantity quantityStr s (NumError err)))
    | (quantity, None) =>
        let quantityDur : time.Duration := quantity in
        field <- index split 1 ;;
        let unit := strings.TrimSuffix field "s" in
        if String.eqb unit "hour" then
          let absTime :=
            time.Add now (wrap64 (wrap64 (- quantityDur) * time.Hour)) in
          Done (time.Format absTime time.layout_2006_01_02, None)
        else if String.eqb unit "day" then
          let absTime := time.AddDate now 0 0 (wrap64 (- quantity)) in
          Done (time.Format absTime time.layout_2006_01_02, None)
        else if String.eqb unit "week" then
          let absTime := time.AddDate now 0 0 (wrap64 (-7 * quantity)) in
          Done (time.Format absTime time.layout_2006_01_02, None)
        else Done ("", Some (Errorf_unknown_quantity quantityStr s))
    end
  else
    match time.Parse time.layout_Jan_2_2006 s with
    | inr err => Done ("", Some (Errorf_parsing_date s (ParseError err)))
    | inl d => Done (time.Format d time.layout_2006_01_02, None)
    end.

(** ** The repository URLs *)

Definition identifyGitHost (repoURL : string) : GitHostType :=
  match url.Parse repoURL with
  | inr _ => GitHostUnknown
  | inl u =>
      if strings.Contains (url.Host u) "github.com" then GitHostGitHub
      else if strings.Contains (url.Host u) "gitlab.com" then GitHostGitLab
      else if strings.Contains (url.Host u) "codeberg.org" then GitHostCodeberg
      else if strings.Contains (url.Host u) "git.sr.ht" then GitHostSourcehut
      else GitHostUnknown
  end.

Definition normalizeRepoURL (repoURL : string) : string :=
  let ssh :=
    if strings.HasPrefix repoURL "git@" then
      match regexp.FindStringSubmatch repoURL with
      | [_; m1; m2] => Some ("https://" ++ m1 ++ "/" ++ m2)
      | _ => None
      end
    else None in
  match ssh with
  | Some r => r
  | None =>
      let repoURL :=
        if strings.HasSuffix repoURL ".git"
        then strings.TrimSuffix repoURL ".git"
        else repoURL in
      "https://" ++ repoURL
  end.

(** ** The operations of the client

    [clock k] is what [time.Now()] returns to the [k]-th call of
    [normalizeTime] in an operation, and [web] what [Visit] does with a
    URL. *)

Record versions_walk := mkWalk {
  curVersion : Version;
  curMajorVersion : string;
  walk_versions : list Version;     (* versions.Versions *)
  walk_errs : list error;           (* errs.Errs *)
  walk_stderr : list error;         (* the errors [println] reports *)
  walk_calls : nat                  (* the calls of [normalizeTime] so far *)
}.

Record describe_state := mkDescribe {
  d_p : Package;
  d_errs : list error;
  d_calls : nat
}.

Record search_state := mkSearch {
  s_results : list SearchResult;    (* results.Results *)
  s_errs : list error;              (* errs.Errs *)
  s_shouldContinue : bool;          (* [morePages] in the legacy variant *)
  s_page : Z;
  s_calls : nat;
  s_visited : list Z                (* the pages requested so far *)
}.

Definition Version_zero : Version := mkVersion "" "" "".

Definition with_Version (p : Package) (v : string) : Package :=
  mkPackage (Package_Package p) (Package_IsModule p) (Package_IsPackage p)
    v (Package_Published p) (Package_License p) (Package_HasValidGoModFile p)
    (Package_HasRedistributableLicense p) (Package_HasTaggedVersion p)
    (Package_HasStableVersion p) (Package_Repository p) (Package_Synopsis p)
    (Package_Images p).

Definition with_Published (p : Package) (v : string) : Package :=
  mkPackage (Package_Package p) (Package_IsModule p) (Package_IsPackage p)
    (Package_Version p) v (Package_License p) (Package_HasValidGoModFile p)
    (Package_HasRedistributableLicense p) (Package_HasTaggedVersion p)
    (Package_HasStableVersion p) (Package_Repository p) (Package_Synopsis p)
    (Package_Images p).

Definition with_License (p : Package) (v : string) : Package :=
  mkPackage (Package_Package p) (Package_IsModule p) (Package_IsPackage p)
    (Package_Version p) (Package_Published p) v (Package_HasValidGoModFile p)
    (Package_HasRedistributableLicense p) (Package_HasTaggedVersion p)
    (Package_HasStableVersion p) (Package_Repository p) (Package_Synopsis p)
    (Package_Images p).

Definition with_Repository (p : Package) (v : string) : Package :=
  mkPackage (Package_Package p) (Package_IsModule p) (Package_IsPackage p)
    (Package_Version p) (Package_Published p) (Package_License p)
    (Package_HasValidGoModFile p) (Package_HasRedistributableLicense p)
    (Package_HasTaggedVersion p) (Package_HasStableVersion p) v
    (Package_Synopsis p) (Package_Images p).

Definition with_Synopsis (p : Package) (v : string) : Package :=
  mkPackage (Package_Package p) (Package_IsModule p) (Package_IsPackage p)
    (Package_Version p) (Package_Published p) (Package_License p)
    (Package_HasValidGoModFile p) (Package_HasRedistributableLicense p)
    (Package_HasTaggedVersion p) (Package_HasStableVersion p)
    (Package_Repository p) v (Package_Images p).

Definition with_Images (p : Package) (v : list Image) : Package :=
  mkPackage (Package_Package p) (Package_IsModule p) (Package_IsPackage p)
    (Package_Version p) (Package_Published p) (Package_License p)
    (Package_HasValidGoModFile p) (Package_HasRedistributableLicense p)
    (Package_HasTaggedVersion p) (Package_HasStableVersion p)
    (Package_Repository p) (Package_Synopsis p) v.

Definition with_IsModule (p : Package) (v : bool) : Package :=
  mkPackage (Package_Package p) v (Package_IsPackage p)
    (Package_Version p) (Package_Published p) (Package_License p)
    (Package_HasValidGoModFile p) (Package_HasRedistributableLicense p)
    (Package_HasTaggedVersion p) (Package_HasStableVersion p)
    (Package_Repository p) (Package_Synopsis p) (Package_Images p).

Definition with_IsPackage (p : Package) (v : bool) : Package :=
  mkPackage (Package_Package p) (Package_IsModule p) v
    (Package_Version p) (Package_Published p) (Package_License p)
    (Package_HasValidGoModFile p) (Package_HasRedistributableLicense p)
    (Package_HasTaggedVersion p) (Package_HasStableVersion p)
    (Package_Repository p) (Package_Synopsis p) (Package_Images p).

(** The badge of the [i]-th item of the check list. *)
Definition with_badge (p : Package) (i : nat) (checked : bool) : Package :=
  let b k old := if (i =? k)%nat then checked else old in
  mkPackage (Package_Package p) (Package_IsModule p) (Package_IsPackage p)
    (Package_Version p) (Package_Published p) (Package_License p)
    (b 0%nat (Package_HasValidGoModFile p))
    (b 1%nat (Package_HasRedistributableLicense p))
    (b 2%nat (Package_HasTaggedVersion p))
    (b 3%nat (Package_HasStableVersion p))
    (Package_Repository p) (Package_Synopsis p) (Package_Images p).

Definition with_p (st : describe_state) (p : Package) : describe_state :=
  mkDescribe p (d_errs st) (d_calls st).

Definition new_Package (name : string) : Package :=
  mkPackage name false false "" "" "" false false false false "" "" [].

(** [len(errs.Errs) != 0] decides what an operation returns. *)
Definition finish {A : Type} (a : A) (errs : list error)
  : option A * option ErrorList :=
  match errs with
  | [] => (Some a, None)
  | _ :: _ => (None, Some (mkErrorList errs))
  end.

(** The [OnError] callback of [DescribePackage] and [Versions]. *)
Definition OnError_404 (url : string) (StatusCode : Z) (e : error) : error :=
  if StatusCode =? 404 then ErrNotFound else Errorf_making_req url e.

Section Operations.

Variable clock : nat -> time.Time.
Variable web : string -> response.
Variable c : client.

(** *** [Versions] *)

(** The four tests that the callback makes on a child of the list. *)
Definition on_Version_major (st : versions_walk) (s : node) : versions_walk :=
  if HasClass s "Version-major" then
    let mv := strings.TrimSpace (Text s) in
    let cmv := if negb (String.eqb mv "") then mv else curMajorVersion st in
    mkWalk (mkVersion cmv (Version_FullVersion (curVersion st))
                      (Version_Date (curVersion st)))
           cmv (walk_versions st) (walk_errs st) (walk_stderr st)
           (walk_calls st)
  else st.

Definition on_Version_tag (st : versions_walk) (s : node) : versions_walk :=
  if HasClass s "Version-tag" then
    let version := js_versionLink s in
    mkWalk (mkVersion (Version_MajorVersion (curVersion st)) version
                      (Version_Date (curVersion st)))
           (curMajorVersion st) (walk_versions st) (walk_errs st)
           (walk_stderr st) (walk_calls st)
  else st.

(** The record in progress is dated [t], appended and cleared. *)
Definition emit (st : versions_walk) (t : string) : versions_walk :=
  let dated := mkVersion (Version_MajorVersion (curVersion st))
                         (Version_FullVersion (curVersion st)) t in
  mkWalk Version_zero (curMajorVersion st) (walk_versions st ++ [dated])
         (walk_errs st) (walk_stderr st) (S (walk_calls st)).

(** The state, and whether the callback has returned. *)
Definition on_Version_commitTime (st : versions_walk) (s : node)
  : outcome (versions_walk * bool) :=
  if HasClass s "Version-commitTime" then
    let dateStr := strings.TrimSpace (Text s) in
    r <- normalizeTime (clock (walk_calls st)) dateStr ;;
    match r with
    | (_, Some err) =>
        Done (mkWalk (curVersion st) (curMajorVersion st) (walk_versions st)
                     (walk_errs st ++ [err]) (walk_stderr st)
                     (S (walk_calls st)),
              true)
    | (t, None) => Done (emit st t, false)
    end
  else Done (st, false).

Definition on_Version_details (st : versions_walk) (s : node)
  : outcome versions_walk :=
  if HasClass s "Version-details" then
    let dateStr := strings.TrimSpace (Version_summary s) in
    r <- normalizeTime (clock (walk_calls st)) dateStr ;;
    match r with
    | (_, Some err) =>
        Done (mkWalk (curVersion st) (curMajorVersion st) (walk_versions st)
                     (walk_errs st) (walk_stderr st ++ [err])
                     (S (walk_calls st)))
    | (t, None) => Done (emit st t)
    end
  else Done st.

Definition Versions_child (st : versions_walk) (s : node)
  : outcome versions_walk :=
  let st := on_Version_major st s in
  let st := on_Version_tag st s in
  '(st, returned) <- on_Version_commitTime st s ;;
  if returned then Done st else on_Version_details st s.

(** The callback of [.Versions-list]: its two variables start blank. *)
Definition Versions_list_callback (st : versions_walk) (children : list node)
  : outcome versions_walk :=
  Each Versions_child children
       (mkWalk Version_zero "" (walk_versions st) (walk_errs st)
               (walk_stderr st) (walk_calls st)).

Definition Versions_walk_start : versions_walk :=
  mkWalk Version_zero "" [] [] [] O.

Definition client_Versions (req_Package : string)
  : outcome (option Versions * option ErrorList) :=
  let url := baseURL c ++ "/" ++ req_Package ++ "?tab=versions" in
  match web url with
  | Scraped d =>
      st <- Each Versions_list_callback (Versions_list d)
                 Versions_walk_start ;;
      Done (finish (mkVersions req_Package (walk_versions st)) (walk_errs st))
  | Failed StatusCode e =>
      Done (finish (mkVersions req_Package [])
                   [OnError_404 url StatusCode e])
  | Refused _ => Done (finish (mkVersions req_Package []) [])
  end.

(** *** [DescribePackage] *)

Definition on_UnitHeader_version (st : describe_state) (versionStr : string)
  : outcome describe_state :=
  let version :=
    strings.TrimSpace (strings.TrimPrefix versionStr "Version: ") in
  Done (with_p st (with_Version (d_p st) version)).

Definition on_UnitHeader_licenses (st : describe_state) (licenseStr : string)
  : outcome describe_state :=
  Done (with_p st (with_License (d_p st) (strings.TrimSpace licenseStr))).

(** The items of the check list from the [i]-th on. *)
Fixpoint each_li (i : nat) (lis : list bool) (p : Package) : Package :=
  match lis with
  | [] => p
  | checked :: lis' => each_li (S i) lis' (with_badge p i checked)
  end.

Definition on_UnitMeta (st : describe_state) (lis : list bool)
  : outcome describe_state :=
  Done (with_p st (each_li O lis (d_p st))).

(** The cutset of the source is a backslash and an [n]. *)
Definition on_UnitMeta_repo (st : describe_state) (text : string)
  : outcome describe_state :=
  Done (with_p st (with_Repository (d_p st)
                     (strings.TrimSpace (strings.Trim text "\n")))).

Definition on_UnitHeader_commitTime (st : describe_state) (text : string)
  : outcome describe_state :=
  let text := strings.TrimSpace text in
  let dateStr := strings.TrimPrefix text "Published: " in
  r <- normalizeTime (clock (d_calls st)) dateStr ;;
  match r with
  | (_, Some err) =>
      Done (mkDescribe (d_p st) (d_errs st ++ [err]) (S (d_calls st)))
  | (t, None) =>
      Done (mkDescribe (with_Published (d_p st) t) (d_errs st)
                       (S (d_calls st)))
  end.

(** The scan of the siblings that follow the title heading; past the last
    sibling the selection is empty and its text is the empty string. *)
Fixpoint scan_siblings (req_Package : string) (siblings : list string)
         (st : describe_state) : describe_state :=
  let default :=
    if negb (Package_IsPackage (d_p st)) && negb (Package_IsModule (d_p st))
    then mkDescribe (d_p st)
                    (d_errs st ++ [Errorf_IsPackage_false req_Package])
                    (d_calls st)
    else st in
  match siblings with
  | [] => default
  | text :: next =>
      if String.eqb text "command" then scan_siblings req_Package next st
      else if String.eqb text "package" then
        scan_siblings req_Package next
                      (with_p st (with_IsPackage (d_p st) true))
      else if String.eqb text "module" then
        scan_siblings req_Package next
                      (with_p st (with_IsModule (d_p st) true))
      else default
  end.

Definition on_titleHeading (req_Package : string) (st : describe_state)
           (siblings : list string) : outcome describe_state :=
  Done (scan_siblings req_Package siblings st).

Definition on_SearchSnippet_synopsis (st : describe_state) (text : string)
  : outcome describe_state :=
  Done (with_p st (with_Synopsis (d_p st) (strings.TrimSpace text))).

Definition on_img (st : describe_state) (e : string * string)
  : outcome describe_state :=
  let (alt, src) := e in
  let url :=
    if negb (strings.HasPrefix src "http") then
      if strings.HasPrefix src "/" then baseURL c ++ src
      else baseURL c ++ "/" ++ src
    else src in
  Done (with_p st (with_Images (d_p st)
                     (Package_Images (d_p st) ++ [mkImage alt url]))).

(** The callbacks in the order they are registered in; [legacy] adds the
    synopsis callback that only the legacy variant has. *)
Definition DescribePackage_callbacks (legacy : bool) (req_Package : string)
           (d : document) (st : describe_state) : outcome describe_state :=
  st <- Each on_UnitHeader_version (UnitHeader_version d) st ;;
  st <- Each on_UnitHeader_licenses (UnitHeader_licenses d) st ;;
  st <- Each on_UnitMeta (UnitMeta d) st ;;
  st <- Each on_UnitMeta_repo (UnitMeta_repo d) st ;;
  st <- Each on_UnitHeader_commitTime (UnitHeader_commitTime d) st ;;
  st <- Each (on_titleHeading req_Package) (UnitHeader_titleHeading d) st ;;
  st <- (if legacy
         then Each on_SearchSnippet_synopsis (SearchSnippet_synopsis d) st
         else Done st) ;;
  Each on_img (UnitReadme_content_img d) st.

Definition DescribePackage_variant (legacy : bool) (req_Package : string)
  : outcome (option Package * option ErrorList) :=
  let url := baseURL c ++ "/" ++ req_Package in
  let st := mkDescribe (new_Package req_Package) [] O in
  match web url with
  | Scraped d =>
      st <- DescribePackage_callbacks legacy req_Package d st ;;
      Done (finish (d_p st) (d_errs st))
  | Failed StatusCode e =>
      Done (finish (d_p st) [OnError_404 url StatusCode e])
  | Refused _ => Done (finish (d_p st) [])
  end.

Definition client_DescribePackage := DescribePackage_variant false.

(** *** [Search] *)

Definition Search_snippet (req : SearchRequest) (st : search_state)
           (s : snippet) : outcome search_state :=
  if Limit req <=? Z.of_nat (List.length (s_results st)) then
    Done (mkSearch (s_results st) (s_errs st) false (s_page st) (s_calls st)
                   (s_visited st))
  else
    let pkg := strings.TrimSpace (headerContainer_a s) in
    let synopsis := strings.TrimSpace (snippet_synopsis s) in
    let versionText := infoLabel_spans s in
    let versionParts := strings.Split versionText " published on " in
    version <-
      (if (0 <? List.length versionParts)%nat then
         part <- index versionParts 0 ;;
         Done (strings.TrimSpace
                 (strings.Trim part
                    (String " " (String (byte_of 9) (String (byte_of 10)
                       (String (byte_of 13) ""))))))
       else Done "") ;;
    let publishedDateStr := strings.TrimSpace (snippet_published s) in
    r <- normalizeTime (clock (s_calls st)) publishedDateStr ;;
    let '(published, errs) :=
      match r with
      | (_, Some err) =>
          (publishedDateStr,
           (s_errs st
            ++ [Errorf_parsing_published_date publishedDateStr err])%list)
      | (t, None) => (t, s_errs st)
      end in
    let importedByText := strings.TrimSpace (importedby_strong s) in
    let importedByStr := strings.ReplaceAll importedByText "," "" in
    let importedBy :=
      match strconv.Atoi importedByStr with
      | (_, Some _) => 0
      | (n, None) => n
      end in
    let license := strings.TrimSpace (snippet_license_a s) in
    let license :=
      if String.eqb license "" then strings.TrimSpace (snippet_license s)
      else license in
    let result :=
      mkSearchResult pkg version published importedBy license synopsis in
    Done (mkSearch (s_results st ++ [result]) errs (s_shouldContinue st)
                   (s_page st) (S (s_calls st)) (s_visited st)).

(** The callback of [.SearchResults]. *)
Definition on_SearchResults (req : SearchRequest) (st : search_state)
           (snippets : list snippet) : outcome search_state :=
  match snippets with
  | [] => Done (mkSearch (s_results st) (s_errs st) false (s_page st)
                         (s_calls st) (s_visited st))
  | _ :: _ => Each (Search_snippet req) snippets st
  end.

Definition Search_url (req : SearchRequest) (page : Z) : string :=
  baseURL c ++ "/search?q=" ++ Query req ++ "&page=" ++ Sprint_d page.

(** [col.Visit(url)]: the state after the callbacks, and the error that
    [Visit] returns. *)
Definition Search_Visit (req : SearchRequest) (st : search_state)
  : outcome (search_state * option error) :=
  let url := Search_url req (s_page st) in
  let st := mkSearch (s_results st) (s_errs st) (s_shouldContinue st)
                     (s_page st) (s_calls st)
                     (s_visited st ++ [s_page st]) in
  match web url with
  | Scraped d =>
      st <- Each (on_SearchResults req) (SearchResults_sel d) st ;;
      Done (st, None)
  | Failed _ e =>
      Done (mkSearch (s_results st)
                     (s_errs st ++ [Errorf_error_fetching url e])
                     false (s_page st) (s_calls st) (s_visited st),
            Some e)
  | Refused e => Done (st, Some e)
  end.

(** The loop over the pages; [None] when [fuel] iterations do not end
    it. *)
Fixpoint Search_loop (fuel : nat) (req : SearchRequest) (st : search_state)
  : option (outcome search_state) :=
  if s_shouldContinue st
     && (Z.of_nat (List.length (s_results st)) <? Limit req)
  then
    match fuel with
    | O => None
    | S fuel' =>
        match Search_Visit req st with
        | Panic p => Some (Panic p)
        | Done (st, Some err) =>
            Some (Done (mkSearch (s_results st)
                          (s_errs st ++ [Errorf_visiting_page (s_page st) err])
                          (s_shouldContinue st) (s_page st) (s_calls st)
                          (s_visited st)))
        | Done (st, None) =>
            let st := mkSearch (s_results st) (s_errs st)
                               (s_shouldContinue st) (s_page st + 1)
                               (s_calls st) (s_visited st) in
            if 10 <? s_page st then Some (Done st)
            else Search_loop fuel' req st
        end
    end
  else Some (Done st).

Definition Search_start : search_state := mkSearch [] [] true 1 O [].

Definition Search_return (r : outcome search_state)
  : outcome (option SearchResults * option ErrorList) :=
  st <- r ;; Done (finish (mkSearchResults (s_results st)) (s_errs st)).

Definition client_Search (fuel : nat) (req : SearchRequest)
  : option (outcome (option SearchResults * option ErrorList)) :=
  option_map Search_return (Search_loop fuel req Search_start).

(** *** The legacy [Search] *)

(** The callback of [[data-test-id=results-total]]. *)
Definition legacy_on_results_total (req : SearchRequest) (st : search_state)
           (text : string) : outcome search_state :=
  let resultsStr := strings.TrimSpace text in
  if String.eqb resultsStr "0 results" then Done st
  else
    let resultsSplit := strings.Split resultsStr " " in
    if (List.length resultsSplit =? 2)%nat then
      Done (mkSearch (s_results st) (s_errs st) false (s_page st)
                     (s_calls st) (s_visited st))
    else
      upperBoundStr <- index resultsSplit 2 ;;
      match strconv.Atoi upperBoundStr with
      | (_, Some err) =>
          Done (mkSearch (s_results st) (s_errs st ++ [NumError err])
                         (s_shouldContinue st) (s_page st) (s_calls st)
                         (s_visited st))
      | (upperBound, None) =>
          totalResultsStr <- index resultsSplit 4 ;;
          let reachedReqLimit := Limit req <=? upperBound in
          let reachedLastPage := String.eqb upperBoundStr totalResultsStr in
          Done (mkSearch (s_results st) (s_errs st)
                         (negb reachedReqLimit && negb reachedLastPage)
                         (s_page st) (s_calls st) (s_visited st))
      end.

(** The callback of [.LegacySearchSnippet]. *)
Definition legacy_on_snippet (req : SearchRequest) (st : search_state)
           (s : legacy_snippet) : outcome search_state :=
  if Z.of_nat (List.length (s_results st)) =? Limit req then Done st
  else
    let pkg := strings.TrimSpace (legacy_title s) in
    let synopsis := strings.TrimSpace (legacy_synopsis s) in
    let version := strings.TrimSpace (legacy_version s) in
    let publishedDateStr := strings.TrimSpace (legacy_published s) in
    r <- normalizeTime (clock (s_calls st)) publishedDateStr ;;
    match r with
    | (_, Some err) =>
        Done (mkSearch (s_results st) (s_errs st ++ [err])
                       (s_shouldContinue st) (s_page st) (S (s_calls st))
                       (s_visited st))
    | (published, None) =>
        let importedByWithCommas :=
          strings.TrimSpace (legacy_importedby s) in
        let importedByStr :=
          strings.ReplaceAll importedByWithCommas "," "" in
        match strconv.Atoi importedByStr with
        | (_, Some err) =>
            Done (mkSearch (s_results st) (s_errs st ++ [NumError err])
                           (s_shouldContinue st) (s_page st)
                           (S (s_calls st)) (s_visited st))
        | (importedBy, None) =>
            let license := strings.TrimSpace (legacy_license s) in
            let result :=
              mkSearchResult pkg version published importedBy license
                             synopsis in
            Done (mkSearch (s_results st ++ [result]) (s_errs st)
                           (s_shouldContinue st) (s_page st)
                           (S (s_calls st)) (s_visited st))
        end
    end.

Definition legacy_Search_url (req : SearchRequest) (page : Z) : string :=
  baseURL c ++ "/search?q=" ++ Query req ++ "&m=package&page="
  ++ Sprint_d page.

(** [col.Visit(url)], whose result the legacy loop does not look at. *)
Definition legacy_Search_Visit (req : SearchRequest) (st : search_state)
  : outcome search_state :=
  let st := mkSearch (s_results st) (s_errs st) (s_shouldContinue st)
                     (s_page st) (s_calls st)
                     (s_visited st ++ [s_page st]) in
  match web (legacy_Search_url req (s_page st)) with
  | Scraped d =>
      st <- Each (legacy_on_results_total req) (results_total d) st ;;
      Each (legacy_on_snippet req) (LegacySearchSnippet d) st
  | Failed _ e =>
      Done (mkSearch (s_results st) (s_errs st ++ [e]) (s_shouldContinue st)
                     (s_page st) (s_calls st) (s_visited st))
  | Refused _ => Done st
  end.

(** The loop over the pages; [None] when [fuel] iterations do not end
    it. *)
Fixpoint legacy_Search_loop (fuel : nat) (req : SearchRequest)
         (st : search_state)
  : option (outcome (option SearchResults * option ErrorList)) :=
  if s_shouldContinue st then
    match fuel with
    | O => None
    | S fuel' =>
        match legacy_Search_Visit req st with
        | Panic p => Some (Panic p)
        | Done st =>
            match s_errs st with
            | _ :: _ => Some (Done (None, Some (mkErrorList (s_errs st))))
            | [] =>
                legacy_Search_loop fuel' req
                  (mkSearch (s_results st) (s_errs st) (s_shouldContinue st)
                            (s_page st + 1) (s_calls st) (s_visited st))
            end
        end
    end
  else Some (Done (Some (mkSearchResults (s_results st)), None)).

Definition legacy_Search (fuel : nat) (req : SearchRequest)
  : option (outcome (option SearchResults * option ErrorList)) :=
  legacy_Search_loop fuel req Search_start.

(** *** The description of a repository *)

(** The first text that a rule accepts, from a page that [Visit] could
    fetch; the empty string otherwise. *)
Definition first_accepted (accept : string -> string) (texts : list string)
  : string :=
  fold_left (fun description text =>
               if String.eqb description "" then accept text
               else description)
            texts "".

Definition extract (selector : document -> list string)
           (accept : string -> string) (repoURL : string) : string :=
  match web repoURL with
  | Scraped d => first_accepted accept (selector d)
  | Failed _ _ => ""
  | Refused _ => ""
  end.

Definition extractGitHubDescription : string -> string :=
  extract p_f4
    (fun text =>
       let text := strings.TrimSpace text in
       if negb (String.eqb text "") && negb (strings.Contains text "http")
       then text else "").

Definition extractGitLabDescription : string -> string :=
  extract home_panel_description strings.TrimSpace.

Definition extractCodebergDescription : string -> string :=
  extract repo_description strings.TrimSpace.

Definition extractSourcehutDescription : string -> string :=
  extract blob_content_p
    (fun text =>
       let text := strings.TrimSpace text in
       if ((10 <? String.length text) && (String.length text <? 200))%nat
       then text else "").

Definition fetchDescription (repoURL : string) : string :=
  if String.eqb repoURL "" then ""
  else
    let normalizedURL := normalizeRepoURL repoURL in
    match identifyGitHost normalizedURL with
    | GitHostGitHub => extractGitHubDescription normalizedURL
    | GitHostGitLab => extractGitLabDescription normalizedURL
    | GitHostCodeberg => extractCodebergDescription normalizedURL
    | GitHostSourcehut => extractSourcehutDescription normalizedURL
    | GitHostUnknown => ""
    end.

(** *** [Sprinkle]

    The package is [None] for a nil pointer.  The result is the package
    after the call, the lines printed on the standard output, and the
    error. *)
Definition Sprinkle (p : option Package)
  : option Package * list string * option Sprinkle_error :=
  let stdout := ["here"] in
  match p with
  | None => (None, stdout, Some Errorf_package_is_nil)
  | Some pkg =>
      if String.eqb (Package_Repository pkg) "" then
        (Some pkg, stdout, Some Errorf_no_repository_URL)
      else
        let description := fetchDescription (Package_Repository pkg) in
        if String.eqb description "" then
          (Some pkg, stdout, Some Errorf_could_not_fetch_description)
        else
          let description := strings.TrimSpace description in
          let description :=
            if (500 <? String.length description)%nat
            then strings.take 500 description ++ "...>"
            else description in
          let pkg := with_Synopsis pkg description in
          (Some pkg, (stdout ++ [Package_Synopsis pkg])%list, None)
  end.

End Operations.

(** *** [ImportedBy]

    The page of the importers is read through one more selector,
    [.u-breakWord]: [u_breakWord d] is the texts of the elements of the
    fetched page [d] that it matches, in document order. *)

Section ImportedByOperation.

Variable web : string -> response.
Variable c : client.
Variable u_breakWord : document -> list string.

(** The callback of [.u-breakWord]. *)
Definition on_u_breakWord (importedBy : ImportedBy) (text : string)
  : ImportedBy :=
  mkImportedBy (ImportedBy_Package importedBy)
               (ImportedBy_ImportedBy importedBy ++ [strings.TrimSpace text]).

Definition client_ImportedBy (req_Package : string)
  : option ImportedBy * option error :=
  let importedBy := mkImportedBy req_Package [] in
  let url := baseURL c ++ "/" ++ req_Package ++ "?tab=importedby" in
  match web url with
  | Scraped d =>
      (Some (fold_left on_u_breakWord (u_breakWord d) importedBy), None)
  | Failed StatusCode e => (None, Some (OnError_404 url StatusCode e))
  | Refused _ => (Some importedBy, None)
  end.

End ImportedByOperation.

(** ** Predicates of the statements *)

(** What the callbacks of [Search] leave untouched, and the bound on the
    results. *)
Definition same_position (st st' : search_state) : Prop :=
  s_page st' = s_page st /\ s_visited st' = s_visited st.

Definition within_limit (req : SearchRequest) (st : search_state) : Prop :=
  Z.of_nat (List.length (s_results st)) <= Z.max 0 (Limit req).

(** A child of the list carries a terminal marker when it has one of the
    two classes that date a record; it can have both. *)
Definition terminal (s : node) : bool :=
  HasClass s "Version-commitTime" || HasClass s "Version-details".

Definition terminal_classes (s : node) : nat :=
  ((if HasClass s "Version-commitTime" then 1 else 0)
   + (if HasClass s "Version-details" then 1 else 0))%nat.

(** The date of [v] is one that a call of [normalizeTime] returned without
    an error. *)
Definition accepted (clock : nat -> time.Time) (v : Version) : Prop :=
  exists k text, normalizeTime (clock k) text = Done (Version_Date v, None).

(** A callback of [DescribePackage] keeps the two kind flags and the images,
    and only adds to the errors. *)
Definition keeps (st st' : describe_state) : Prop :=
  Package_IsPackage (d_p st') = Package_IsPackage (d_p st)
  /\ Package_IsModule (d_p st') = Package_IsModule (d_p st)
  /\ Package_Images (d_p st') = Package_Images (d_p st)
  /\ exists more, d_errs st' = (d_errs st ++ more)%list.

(** No label among the siblings says package or module. *)
Definition no_kind_label (siblings : list string) : Prop :=
  ~ In "package" siblings /\ ~ In "module" siblings.

Definition at_most_limit (req : SearchRequest) (st : search_state) : Prop :=
  Z.of_nat (List.length (s_results st)) <= Limit req.

(** *** The calendar and the shape of a date *)

(** The day of the year ([0]-based) of day [d] of month [m], the way
    [time.Date] counts it, and the length of a month ([time.daysIn] with the
    leap year as a flag). *)
Definition yday_of (leap : bool) (m d : Z) : Z :=
  time.daysBefore (m - 1) + (if leap && (3 <=? m) then 1 else 0) + (d - 1).

Definition month_length (leap : bool) (m : Z) : Z :=
  if (m =? 2) && leap then 29 else time.daysBefore m - time.daysBefore (m - 1).

(** The [n] integers from [lo] on. *)
Definition range (lo n : Z) : list Z :=
  map (fun k => lo + Z.of_nat k) (seq 0 (Z.to_nat n)).

(** Two checks that are run on every day of a common and of a leap year:
    [time.monthDay] gives back the month and the day of a date, and its
    results are a month and a day. *)
Definition monthDay_ok (leap : bool) (m d : Z) : bool :=
  (negb (d <=? month_length leap m))
  || (let '(m', d') := time.monthDay leap (yday_of leap m d) in
      (m' =? m) && (d' =? d)).

Definition monthDay_in_range (leap : bool) (yd : Z) : bool :=
  let '(m, d) := time.monthDay leap yd in
  (1 <=? m) && (m <=? 12) && (1 <=? d) && (d <=? 31).

(** The shape [YYYY-MM-DD]: four digits, two digits and two digits, with a
    hyphen between them. *)
Definition four_digits (s : string) : bool :=
  (String.length s =? 4)%nat && all_bytes isDigit s.

Definition two_digits (s : string) : bool :=
  (String.length s =? 2)%nat && all_bytes isDigit s.

Definition is_canonical (s : string) : bool :=
  four_digits (strings.take 4 s)
  && String.eqb (strings.take 1 (strings.drop 4 s)) "-"
  && two_digits (strings.take 2 (strings.drop 5 s))
  && String.eqb (strings.take 1 (strings.drop 7 s)) "-"
  && two_digits (strings.drop 8 s).

(** The bytes of a rendered date: digits and hyphens. *)
Definition date_byte (c : ascii) : bool := isDigit c || Ascii.eqb c "-".

(** The contract of [normalizeTime] in the words of the specification:
    [today] is the current date; a phrase of a number, a unit with or without
    its plural and the word [ago] is the current instant less that many
    hours, calendar days or weeks of seven days, and a fatal error for any
    other unit; any other text is an absolute date of the layout
    [Jan 2, 2006], or a fatal error.  [None] stands for the fatal error. *)
Definition contract_phrase (s : string) : option (Z * string) :=
  match strings.Split s " " with
  | [q; field; ago] =>
      if String.eqb ago "ago" then
        match strconv.ParseInt q with
        | (n, None) => Some (n, strings.TrimSuffix field "s")
        | (_, Some _) => None
        end
      else None
  | _ => None
  end.

Definition normalizeTime_contract (now : time.Time) (s : string)
  : option string :=
  if String.eqb s "today" then Some (time.Format now time.layout_2006_01_02)
  else
    match contract_phrase s with
    | Some (n, unit) =>
        if String.eqb unit "hour" then
          Some (time.Format (time.Add now (- (n * time.Hour)))
                            time.layout_2006_01_02)
        else if String.eqb unit "day" then
          Some (time.Format (time.AddDate now 0 0 (- n))
                            time.layout_2006_01_02)
        else if String.eqb unit "week" then
          Some (time.Format (time.AddDate now 0 0 (- (7 * n)))
                            time.layout_2006_01_02)
        else None
    | None =>
        match time.Parse time.layout_Jan_2_2006 s with
        | inl d => Some (time.Format d time.layout_2006_01_02)
        | inr _ => None
        end
    end.

(** *** The further properties *)

(** A date that a call of [normalizeTime] returned without an error. *)
Definition accepted_date (clock : nat -> time.Time) (date : string) : Prop :=
  exists k text, normalizeTime (clock k) text = Done (date, None).

(** What holds of a search that has recorded no error: its dates are
    accepted ones, and the pages it has requested were all fetched. *)
Definition clean_search (clock : nat -> time.Time) (web : string -> response)
           (c : client) (req : SearchRequest) (st : search_state) : Prop :=
  s_errs st = [] ->
  Forall (fun r => accepted_date clock (SearchResult_Published r))
         (s_results st)
  /\ Forall (fun page => exists d, web (Search_url c req page) = Scraped d)
            (s_visited st).

(** A site whose pages hold no [.SearchResults] element. *)
Definition without_container (web : string -> response) : Prop :=
  forall url, exists d, web url = Scraped d /\ SearchResults_sel d = [].

(** A site on which the legacy [Search] finds nothing that stops it: every
    page is fetched, its results headers, if any, all read [0 results], and
    it holds no snippet. *)
Definition zero_results (web : string -> response) : Prop :=
  forall url, exists d,
    web url = Scraped d
    /\ Forall (fun text => strings.TrimSpace text = "0 results")
              (results_total d)
    /\ LegacySearchSnippet d = [].

(** The children of the lists of a page carry no commit time. *)
Definition details_only (d : document) : Prop :=
  Forall (Forall (fun s => HasClass s "Version-commitTime" = false))
         (Versions_list d).

(** The test of [DescribePackage] for an absolute URL, and what it makes of
    the others. *)
Definition absolute (c : client) (url : string) : bool :=
  strings.HasPrefix url "http" || strings.HasPrefix url (baseURL c ++ "/").

(** The four badges of a package. *)
Definition badges (p : Package) : bool * bool * bool * bool :=
  (Package_HasValidGoModFile p, Package_HasRedistributableLicense p,
   Package_HasTaggedVersion p, Package_HasStableVersion p).

Definition keeps_badges (st st' : describe_state) : Prop :=
  badges (d_p st') = badges (d_p st).

(** A byte that a URL carries as it is: no control byte and no percent
    sign. *)
Definition plain_byte (c : ascii) : bool :=
  negb ((code c <? 32)%nat || (code c =? 127)%nat) && negb (Ascii.eqb c "%").

Definition plain (s : string) : bool := all_bytes plain_byte s.

(** The length that Sourcehut asks of a description. *)
Definition sourcehut_length (text : string) : bool :=
  ((10 <? String.length text) && (String.length text <? 200))%nat.

(** A date the way the site prints it: the short name of the month, the
    day, a comma and the year of four digits. *)
Definition rendered (y m d : Z) : string :=
  time.nth_name (m - 1) ++ " " ++ decimal d ++ ", " ++ time.appendInt y 4.

(** The bytes that follow the name of the month. *)
Definition day_year_byte (c : ascii) : bool :=
  isDigit c || Ascii.eqb c " " || Ascii.eqb c ",".

(** ** Inputs of the examples *)

(** A header text: [1], an en dash and [10]. *)
Definition header_1_dash_10 : string :=
  "1 " ++ String (byte_of 226) (String (byte_of 128)
             (String (byte_of 147) " 10")).

(** A clock that stands still at noon of January 15, 2024. *)
Definition example_clock (k : nat) : time.Time := time.Date 2024 1 15 12 0 0 0.

Definition example_snippet : snippet :=
  mkSnippet "github.com/a/b" "A package." "v1.2.3 published on " "Jan 2, 2006"
            "1,234" "MIT" "MIT".

(** A document that holds [.SearchResults] elements and nothing else. *)
Definition search_page (elements : list (list snippet)) : document :=
  mkDocument [] [] [] [] [] [] [] [] [] elements [] [] [] [] [] [].

(** A site of which every page holds three snippets. *)
Definition pages_of_three (url : string) : response :=
  Scraped (search_page [[example_snippet; example_snippet; example_snippet]]).

(** A document that holds one [.Versions-list] and nothing else. *)
Definition versions_page (children : list node) : document :=
  mkDocument [] [] [] [] [] [] [] [] [children] [] [] [] [] [] [] [].

(** The children of a list, one class each. *)
Definition major_label (text : string) : node :=
  mkNode ["Version-major"] text "" "".
Definition version_tag (version : string) : node :=
  mkNode ["Version-tag"] version version "".
Definition commit_time (text : string) : node :=
  mkNode ["Version-commitTime"] text "" "".
Definition details_block (summary : string) : node :=
  mkNode ["Version-details"] summary "" summary.

(** The page of a unit whose title is followed by one label that names no
    kind, with one image in its readme. *)
Definition shapeless_page : document :=
  mkDocument ["Version: v1.0.0"] ["MIT"] [] [] ["Published: Jan 2, 2006"]
             [["function"]] [] [("logo", "/logo.png")] [] [] [] [] [] [] [] [].

(** A site of which every page holds the header [1], an en dash and [10]. *)
Definition pages_with_short_header (url : string) : response :=
  Scraped (mkDocument [] [] [] [] [] [] [] [] [] [] [header_1_dash_10] []
                      [] [] [] []).

(** A site of which every page holds the header of three results out of
    three, and three legacy snippets. *)
Definition legacy_example_snippet : legacy_snippet :=
  mkLegacySnippet "github.com/a/b" "A package." "v1.2.3" "Jan 2, 2006"
                  "1,234" "MIT".

Definition legacy_pages_of_three (url : string) : response :=
  Scraped (mkDocument [] [] [] [] [] [] [] [] [] []
             ["1 " ++ String (byte_of 226) (String (byte_of 128)
                        (String (byte_of 147) " 3 of 3"))]
             [legacy_example_snippet; legacy_example_snippet;
              legacy_example_snippet]
             [] [] [] []).

(** A site of which every page is empty. *)
Definition empty_pages (url : string) : response := Scraped empty_document.

(** A site of which every page is empty, but for the eleventh page of the
    results of [go], which the server fails to deliver to either variant. *)
Definition eleventh_page_fails (url : string) : response :=
  if String.eqb url (Search_url New (mkSearchRequest "go" 25) 11)
     || String.eqb url (legacy_Search_url New (mkSearchRequest "go" 25) 11)
  then Failed 500 (TransportError "Internal Server Error")
  else Scraped empty_document.

(** A site that serves one repository page of GitHub and nothing else. *)
Definition github_page : document :=
  mkDocument [] [] [] [] [] [] [] [] [] [] [] []
             ["  see https://example.com  "; "  A tool.  "; "Another."]
             [] [] [].

Definition one_repository (url : string) : response :=
  if String.eqb url "https://github.com/user/repo" then Scraped github_page
  else Failed 404 (TransportError "Not Found").

(** The page of a package with a check list, two kind labels and two
    images. *)
Definition package_page : document :=
  mkDocument ["Version: v1.0.0"] ["MIT"] [[true; true; false; true; true]]
             ["github.com/user/repo"] ["Published: Jan 2, 2006"]
             [["package"; "module"; "Go"]] []
             [("logo", "/logo.png"); ("badge", "https://img.example/b.svg")]
             [] [] [] [] [] [] [] [].

Definition one_package (url : string) : response :=
  Scraped package_page.

(** A site of which every page holds the header of a query without
    results. *)
Definition zero_results_pages (url : string) : response :=
  Scraped (mkDocument [] [] [] [] [] [] [] [] [] [] [" 0 results "] []
                      [] [] [] []).

(** A list of versions dated by their details, one of which cannot be
    read. *)
Definition details_page : document :=
  versions_page [major_label "v1"; version_tag "v1.2.0";
                 details_block "Jan 2, 2006"; version_tag "v1.1.0";
                 details_block "soon"].

Definition one_details_page (url : string) : response := Scraped details_page.

(** A list of versions dated by their commit times, one of which cannot be
    read. *)
Definition commit_page : document :=
  versions_page [major_label "v1"; version_tag "v1.2.0";
                 commit_time "Jan 2, 2006"; version_tag "v1.1.0";
                 commit_time "yesterday"; version_tag "v1.0.0";
                 commit_time "Jan 1, 2006"].

Definition one_commit_page (url : string) : response := Scraped commit_page.

(** The importers that the example page lists. *)
Definition example_importers (d : document) : list string :=
  [" github.com/a/b "; "github.com/c/d"].

(** ** Sanity checks of the library models *)

Example Split_three_days :
  strings.Split "3 days ago" " " = ["3"; "days"; "ago"].
Proof. reflexivity. Qed.

Example Split_published :
  strings.Split "v1.2.3 published on Jan 2, 2006" " published on "
  = ["v1.2.3"; "Jan 2, 2006"].
Proof. reflexivity. Qed.

Example Split_double_space :
  strings.Split "a  b " " " = ["a"; ""; "b"; ""].
Proof. reflexivity. Qed.

Example TrimSpace_ascii :
  strings.TrimSpace (String (byte_of 10) "  today 	") = "today".
Proof. reflexivity. Qed.

Example TrimSpace_nbsp :
  strings.TrimSpace
    (String (byte_of 194) (String (byte_of 160)
       ("x y" ++ String (byte_of 226) (String (byte_of 128)
                   (String (byte_of 168) " ")))))
  = "x y".
Proof. reflexivity. Qed.

Example ReplaceAll_commas :
  strings.ReplaceAll "1,234,567" "," "" = "1234567".
Proof. reflexivity. Qed.

Example TrimSuffix_git :
  strings.TrimSuffix "gitlab.com/user/repo.git" ".git" = "gitlab.com/user/repo".
Proof. reflexivity. Qed.

Example ParseInt_samples :
  strconv.ParseInt "-42" = (-42, None)
  /\ strconv.ParseInt "+7" = (7, None)
  /\ snd (strconv.ParseInt "9223372036854775808")
     = Some (strconv.mkNumError "ParseInt" "9223372036854775808" strconv.ErrRange)
  /\ strconv.ParseInt "-9223372036854775808" = (- 2 ^ 63, None)
  /\ snd (strconv.ParseInt "3x")
     = Some (strconv.mkNumError "ParseInt" "3x" strconv.ErrSyntax)
  /\ snd (strconv.ParseInt "")
     = Some (strconv.mkNumError "ParseInt" "" strconv.ErrSyntax).
Proof. repeat split; reflexivity. Qed.

Example Parse_Jan_2_2006 :
  time.Parse time.layout_Jan_2_2006 "Jan 2, 2006" = inl (time.Date 2006 1 2 0 0 0 0)
  /\ time.Format (time.Date 2006 1 2 0 0 0 0) time.layout_2006_01_02 = "2006-01-02"
  /\ time.Parse time.layout_Jan_2_2006 "feb 29, 2024" = inl (time.Date 2024 2 29 0 0 0 0)
  /\ time.Format (time.Date 2024 2 29 0 0 0 0) time.layout_2006_01_02 = "2024-02-29"
  /\ time.Format (time.Date 2023 12 31 23 59 59 999999999) time.layout_2006_01_02 = "2023-12-31"
  /\ time.Format (time.Date 2024 1 32 0 0 0 0) time.layout_2006_01_02 = "2024-02-01"
  /\ time.Format (time.Date 1 1 0 0 0 0 0) time.layout_2006_01_02 = "0000-12-31"
  /\ time.Format (time.Date (-5) 3 1 0 0 0 0) time.layout_2006_01_02 = "-0005-03-01"
  /\ time.Format (time.Date 12000 3 1 0 0 0 0) time.layout_2006_01_02 = "12000-03-01".
Proof. repeat split; vm_compute; reflexivity. Qed.

Example Parse_failures :
  time.Parse time.layout_Jan_2_2006 "Feb 30, 2024"
  = inr (time.mkParseError "Jan 2, 2006" "Feb 30, 2024" "" "" time.DayOutOfRange)
  /\ time.Parse time.layout_Jan_2_2006 "2006-01-02"
     = inr (time.mkParseError "Jan 2, 2006" "2006-01-02" "Jan" "2006-01-02" time.BadValue)
  /\ time.Parse time.layout_Jan_2_2006 "Jan 2, 2006 "
     = inr (time.mkParseError "Jan 2, 2006" "Jan 2, 2006 " "" " " time.ExtraText)
  /\ time.Parse time.layout_Jan_2_2006 "Jan  2,2006"
     = inr (time.mkParseError "Jan 2, 2006" "Jan  2,2006" ", " "2006" time.BadValue).
Proof. repeat split; vm_compute; reflexivity. Qed.

Example AddDate_samples :
  time.AddDate (time.Date 2024 1 15 12 30 5 7) 0 0 (-3)
  = time.Date 2024 1 12 12 30 5 7
  /\ time.AddDate (time.Date 2024 3 1 0 0 0 0) 0 0 (-1)
     = time.Date 2024 2 29 0 0 0 0
  /\ time.AddDate (time.Date 2023 3 1 0 0 0 0) 0 0 (-1)
     = time.Date 2023 2 28 0 0 0 0
  /\ time.AddDate (time.Date 2024 1 1 23 59 59 0) 0 0 (-14)
     = time.Date 2023 12 18 23 59 59 0
  /\ time.civil (time.Add (time.Date 2024 1 15 12 0 0 0) (- (13 * time.Hour)))
     = (2024, 1, 14).
Proof. repeat split; vm_compute; reflexivity. Qed.

Example url_Parse_hosts :
  (match url.Parse "https://github.com/user/repo" with
   | inl u => url.Host u | inr _ => "?" end) = "github.com"
  /\ (match url.Parse "https://https://github.com/user/repo" with
      | inl u => url.Host u | inr _ => "?" end) = "https:"
  /\ (match url.Parse "https://user:pw@git.sr.ht:443/~u/r?x=1#top" with
      | inl u => url.Host u | inr _ => "?" end) = "git.sr.ht:443"
  /\ url.Parse "https://github.com:8o/x" = inr (url.InvalidPort ":8o")
  /\ url.Parse "https://git hub.com/x" = inr (url.InvalidHostError " ")
  /\ url.Parse "https://github.com/%zz" = inr (url.EscapeError "%zz")
  /\ url.Parse "1.example:x/y" = inr url.ColonInFirstPathSegment
  /\ (match url.Parse "github.com:x/y" with
      | inl u => (url.Scheme u, url.Host u) | inr _ => ("?", "?") end)
     = ("github.com", "")
  /\ (match url.Parse "mailto:someone@github.com" with
      | inl u => (url.Host u, url.Opaque u) | inr _ => ("?", "?") end)
     = ("", "someone@github.com").
Proof. repeat split; vm_compute; reflexivity. Qed.

Example regexp_samples :
  regexp.FindStringSubmatch "git@github.com:user/repo.git"
  = ["git@github.com:user/repo.git"; "github.com"; "user/repo"]
  /\ regexp.FindStringSubmatch "git@github.com:user/repo" = []
  /\ regexp.FindStringSubmatch "git@github.com:.git" = []
  /\ regexp.FindStringSubmatch "git@a:b:c.git.git"
     = ["git@a:b:c.git.git"; "a"; "b:c.git"].
Proof. repeat split; vm_compute; reflexivity. Qed.

(** ** Strings: bytes that occur, tokens *)

Lemma prefix_cons (a b : ascii) (p s : string) :
  strings.has_prefix (String a p) (String b s)
  = if Ascii.eqb a b then strings.has_prefix p s else false.
Proof. simpl. now destruct (Ascii.eqb a b). Qed.

Lemma Contains_cons (b : ascii) (s sub : string) :
  strings.Contains (String b s) sub
  = strings.has_prefix sub (String b s) || strings.Contains s sub.
Proof. reflexivity. Qed.

Lemma Contains_first_byte (s sub : string) (a : ascii) :
  strings.Contains s (String a sub) = true -> strings.in_cutset s a = true.
Proof.
  unfold strings.in_cutset.
  induction s as [|b s IH]; intros H.
  - discriminate.
  - rewrite Contains_cons, prefix_cons in H.
    simpl strings.IndexByte.
    destruct (Ascii.eqb b a) eqn:E; [reflexivity|].
    rewrite Ascii.eqb_sym, E in H. simpl in H.
    specialize (IH H). destruct (strings.IndexByte s a); [reflexivity|discriminate].
Qed.

Lemma in_cutset_cons (s : string) (a b : ascii) :
  strings.in_cutset (String b s) a = Ascii.eqb b a || strings.in_cutset s a.
Proof.
  unfold strings.in_cutset. simpl.
  destruct (Ascii.eqb b a); [reflexivity|].
  now destruct (strings.IndexByte s a).
Qed.

Lemma all_bytes_not_in (P : ascii -> bool) (s : string) (a : ascii) :
  all_bytes P s = true -> P a = false -> strings.in_cutset s a = false.
Proof.
  induction s as [|b s IH]; intros H Ha; [reflexivity|].
  simpl in H. apply andb_true_iff in H as [Hb Hs].
  rewrite in_cutset_cons, (IH Hs Ha), orb_false_r.
  destruct (Ascii.eqb b a) eqn:E; [|reflexivity].
  apply Ascii.eqb_eq in E. congruence.
Qed.

Lemma parse_digits_cons (n : Z) (c : ascii) (s : string) :
  strconv.parse_digits n (String c s)
  = if negb (isDigit c) then (0, Some strconv.ErrSyntax)
    else if strconv.maxUint64 / 10 + 1 <=? n
         then (strconv.maxUint64, Some strconv.ErrRange)
         else if strconv.maxUint64 <? n * 10 + digit_value c
              then (strconv.maxUint64, Some strconv.ErrRange)
              else strconv.parse_digits (n * 10 + digit_value c) s.
Proof. reflexivity. Qed.

Lemma parse_digits_all_digits (s : string) :
  forall n v, strconv.parse_digits n s = (v, None) -> all_bytes isDigit s = true.
Proof.
  induction s as [|c s IH]; intros n v H; [reflexivity|].
  rewrite parse_digits_cons in H. cbn [all_bytes].
  destruct (isDigit c); [|discriminate]. cbn [negb andb] in *.
  destruct (strconv.maxUint64 / 10 + 1 <=? n); [discriminate|].
  destruct (strconv.maxUint64 <? n * 10 + digit_value c); [discriminate|].
  eauto.
Qed.

Lemma parse_digits_range (s : string) :
  forall n un, strconv.parse_digits n s = (un, Some strconv.ErrRange) ->
               un = strconv.maxUint64.
Proof.
  induction s as [|c s IH]; intros n un H; [discriminate|].
  rewrite parse_digits_cons in H.
  destruct (negb (isDigit c)); [discriminate|].
  destruct (strconv.maxUint64 / 10 + 1 <=? n); [now injection H|].
  destruct (strconv.maxUint64 <? n * 10 + digit_value c); [now injection H|].
  eauto.
Qed.

(** A string that [ParseInt] accepts holds no letter [a]. *)
Lemma ParseInt_no_a (fn s : string) (v : Z) :
  strconv.parse_int64 fn s = (v, None) -> strings.in_cutset s "a" = false.
Proof.
  destruct s as [|c s]; [discriminate|].
  unfold strconv.parse_int64.
  assert (D : forall t x, strconv.ParseUint10 t = (x, None) ->
                          all_bytes isDigit t = true).
  { intros [|d t] x; [discriminate|]. apply parse_digits_all_digits. }
  assert (R : forall t x, strconv.ParseUint10 t = (x, Some strconv.ErrRange) ->
                          x = strconv.maxUint64).
  { intros [|d t] x; [discriminate|]. apply parse_digits_range. }
  destruct (strconv.ParseUint10 (if Ascii.eqb c "+" || Ascii.eqb c "-"
                                 then s else String c s))
    as [un [[]|]] eqn:E.
  - discriminate.
  - apply R in E. subst un. intros H.
    destruct (Ascii.eqb c "-"); discriminate.
  - intros _. apply D in E.
    destruct (Ascii.eqb c "+" || Ascii.eqb c "-") eqn:S.
    + rewrite in_cutset_cons.
      rewrite (all_bytes_not_in isDigit s "a" E eq_refl), orb_false_r.
      apply orb_true_iff in S as [S|S]; apply Ascii.eqb_eq in S; now subst.
    + now apply (all_bytes_not_in isDigit).
Qed.

Lemma Split_from_single (sep s : string) :
  snd (strings.Split_from sep O s) = [] ->
  fst (strings.Split_from sep O s) = s.
Proof.
  induction s as [|c s IH]; [reflexivity|].
  change (strings.Split_from sep O (String c s))
    with (if strings.has_prefix sep (String c s)
          then (EmptyString,
                let (t, ts) :=
                  strings.Split_from sep (String.length sep - 1) s in
                t :: ts)
          else let (t, ts) := strings.Split_from sep O s in (String c t, ts)).
  destruct (strings.has_prefix sep (String c s)).
  - cbn [snd fst]. intros H. exfalso.
    destruct (strings.Split_from sep (String.length sep - 1) s).
    discriminate H.
  - destruct (strings.Split_from sep O s) as [t ts]. cbn [snd fst] in *.
    intros ->. now rewrite IH.
Qed.

Lemma Split_cons (s sep : string) :
  exists t ts, strings.Split s sep = t :: ts.
Proof.
  unfold strings.Split. destruct (strings.Split_from sep O s); eauto.
Qed.

Lemma Split_single (s sep t : string) :
  strings.Split s sep = [t] -> t = s.
Proof.
  unfold strings.Split.
  pose proof (Split_from_single sep s) as H.
  destruct (strings.Split_from sep O s) as [u us]. simpl in H.
  intros E. injection E as -> ->. now apply H.
Qed.

(** ** [normalizeTime] returns on every input *)

(** When the text holds [ago] and its first token is a number, there is a
    second token: [split[1]] is in range. *)
Lemma ago_second_token (s : string) :
  strings.Contains s "ago" = true ->
  forall q ts v, strings.Split s " " = q :: ts ->
                 strconv.ParseInt q = (v, None) ->
                 exists field rest, ts = field :: rest.
Proof.
  intros Hago q ts v Hs Hq.
  destruct ts as [|field rest]; [|eauto].
  apply Split_single in Hs. subst q.
  apply ParseInt_no_a in Hq.
  apply Contains_first_byte in Hago. congruence.
Qed.

Lemma normalizeTime_total (now : time.Time) (s : string) :
  exists out err, normalizeTime now s = Done (out, err).
Proof.
  unfold normalizeTime.
  destruct (String.eqb s "today"); [eauto|].
  destruct (strings.Contains s "ago") eqn:Hago.
  - destruct (Split_cons s " ") as (q & ts & Hs). rewrite Hs.
    unfold index at 1. simpl nth_error. cbv beta iota delta [bind].
    destruct (strconv.ParseInt q) as [v [e|]] eqn:Hq; [eauto|].
    destruct (ago_second_token s Hago q ts v Hs Hq) as (field & rest & ->).
    unfold index. simpl nth_error. cbv beta iota.
    repeat match goal with
           | |- context [if ?b then _ else _] => destruct b
           end; eauto.
  - destruct (time.Parse time.layout_Jan_2_2006 s); eauto.
Qed.

(** ** The repository URLs *)

Lemma length_app (s t : string) :
  String.length (s ++ t) = (String.length s + String.length t)%nat.
Proof. induction s as [|c s IH]; simpl; congruence. Qed.

Lemma strip_suffix_app (r suf : string) :
  strings.strip_suffix suf (r ++ suf) = Some r.
Proof.
  induction r as [|c r IH]; simpl append.
  - destruct suf; simpl; now rewrite ?Ascii.eqb_refl, ?String.eqb_refl.
  - change (strings.strip_suffix suf (String c (r ++ suf)))
      with (if String.eqb (String c (r ++ suf)) suf then Some EmptyString
            else match strings.strip_suffix suf (r ++ suf) with
                 | Some x => Some (String c x)
                 | None => None
                 end).
    destruct (String.eqb (String c (r ++ suf)) suf) eqn:E.
    + apply String.eqb_eq in E. apply (f_equal String.length) in E.
      simpl in E. rewrite length_app in E. lia.
    + now rewrite IH.
Qed.

Lemma HasSuffix_app (r suf : string) : strings.HasSuffix (r ++ suf) suf = true.
Proof.
  induction r as [|c r IH]; simpl append.
  - destruct suf; simpl; now rewrite ?Ascii.eqb_refl, ?String.eqb_refl.
  - change (strings.HasSuffix (String c (r ++ suf)) suf)
      with (String.eqb (String c (r ++ suf)) suf
            || strings.HasSuffix (r ++ suf) suf).
    rewrite IH. apply orb_true_r.
Qed.

Lemma CutByte_app (h rest : string) (c : ascii) :
  strings.in_cutset h c = false ->
  strings.CutByte (h ++ String c rest) c = (h, rest, true).
Proof.
  induction h as [|b h IH]; intros H; simpl.
  - now rewrite Ascii.eqb_refl.
  - rewrite in_cutset_cons in H. apply orb_false_iff in H as [Hb Hh].
    now rewrite Hb, (IH Hh).
Qed.

(** The SSH form in general: a host without [:], a path without line feed. *)
Lemma normalizeRepoURL_ssh (host path : string) :
  host <> "" -> path <> "" ->
  strings.in_cutset host ":" = false ->
  regexp.no_newline path = true ->
  normalizeRepoURL ("git@" ++ host ++ ":" ++ path ++ ".git")
  = "https://" ++ host ++ "/" ++ path.
Proof.
  intros Hh Hp Hc Hn. unfold normalizeRepoURL.
  change (strings.HasPrefix ("git@" ++ host ++ ":" ++ path ++ ".git") "git@")
    with true. cbv iota.
  assert (M : regexp.match_here ("git@" ++ host ++ ":" ++ path ++ ".git")
              = Some ["git@" ++ host ++ ":" ++ path ++ ".git"; host; path]).
  { unfold regexp.match_here.
    change (strings.strip_prefix "git@" ("git@" ++ host ++ ":" ++ path ++ ".git"))
      with (Some (host ++ String ":" (path ++ ".git"))).
    cbv beta iota.
    rewrite (CutByte_app host (path ++ ".git") ":" Hc).
    destruct host as [|a host]; [contradiction|].
    rewrite strip_suffix_app.
    destruct path as [|b path]; [contradiction|].
    now rewrite Hn. }
  change (regexp.FindStringSubmatch ("git@" ++ host ++ ":" ++ path ++ ".git"))
    with (match regexp.match_here ("git@" ++ host ++ ":" ++ path ++ ".git") with
          | Some m => m
          | None => regexp.FindStringSubmatch
                      ("it@" ++ host ++ ":" ++ path ++ ".git")
          end).
  now rewrite M.
Qed.

(** A scheme-less URL that ends with [.git]. *)
Lemma normalizeRepoURL_git_suffix (r : string) :
  strings.HasPrefix (r ++ ".git") "git@" = false ->
  normalizeRepoURL (r ++ ".git") = "https://" ++ r.
Proof.
  intros H. unfold normalizeRepoURL. rewrite H, HasSuffix_app.
  unfold strings.TrimSuffix. now rewrite strip_suffix_app.
Qed.

(** C8.  [normalizeRepoURL] maps the SSH form
    [git@github.com:user/repo.git] to [https://github.com/user/repo], and the
    scheme-less [gitlab.com/user/repo.git] to [https://gitlab.com/user/repo]:
    the [.git] suffix goes and [https://] comes in front. *)
Theorem normalizeRepoURL_examples :
  normalizeRepoURL "git@github.com:user/repo.git"
  = "https://github.com/user/repo"
  /\ normalizeRepoURL "gitlab.com/user/repo.git"
     = "https://gitlab.com/user/repo".
Proof.
  split.
  - apply (normalizeRepoURL_ssh "github.com" "user/repo");
      [discriminate | discriminate | reflexivity | reflexivity].
  - apply (normalizeRepoURL_git_suffix "gitlab.com/user/repo"). reflexivity.
Qed.

(** ** The results header of the legacy [Search] *)

Lemma index_in_range (l : list string) (i : nat) :
  (i < List.length l)%nat -> index l i = Done (nth i l "").
Proof.
  intros H. unfold index.
  destruct (nth_error l i) eqn:E.
  - now rewrite (nth_error_nth l i "" E).
  - apply nth_error_None in E. lia.
Qed.

Lemma index_out_of_range (l : list string) (i : nat) :
  (List.length l <= i)%nat -> index l i = Panic (IndexOutOfRange i (List.length l)).
Proof.
  intros H. unfold index. apply nth_error_None in H. now rewrite H.
Qed.

(** C10.  The callback of the results header of the legacy [Search] is not
    total: on a header text that splits on spaces into three or four tokens,
    the third of which is a number, it reads [resultsSplit[4]] and panics with
    an index out of range, without returning and without recording an
    error. *)
Theorem legacy_results_total_panics (req : SearchRequest) (st : search_state)
        (text : string) :
  let resultsSplit := strings.Split (strings.TrimSpace text) " " in
  List.length resultsSplit = 3%nat \/ List.length resultsSplit = 4%nat ->
  snd (strconv.Atoi (nth 2 resultsSplit "")) = None ->
  legacy_on_results_total req st text
  = Panic (IndexOutOfRange 4 (List.length resultsSplit)).
Proof.
  intros resultsSplit Hlen Hnum. unfold legacy_on_results_total.
  fold resultsSplit.
  destruct (String.eqb (strings.TrimSpace text) "0 results") eqn:E.
  { apply String.eqb_eq in E. subst resultsSplit. rewrite E in Hlen.
    destruct Hlen; discriminate. }
  replace (List.length resultsSplit =? 2)%nat with false
    by (symmetry; apply Nat.eqb_neq; lia).
  rewrite index_in_range by lia. cbv beta iota delta [bind].
  destruct (strconv.Atoi (nth 2 resultsSplit "")) as [upperBound [e|]];
    [discriminate|].
  rewrite index_out_of_range by lia. reflexivity.
Qed.

Lemma legacy_results_total_panics_witness :
  legacy_on_results_total (mkSearchRequest "go" 25) Search_start
                          header_1_dash_10
  = Panic (IndexOutOfRange 4 3).
Proof.
  apply (legacy_results_total_panics (mkSearchRequest "go" 25) Search_start
                                     header_1_dash_10);
    [left; reflexivity | reflexivity].
Defined.

(** The panic of the callback is the panic of the legacy [Search]. *)
Example legacy_Search_panics :
  legacy_Search example_clock pages_with_short_header New 1
                (mkSearchRequest "go" 25)
  = Some (Panic (IndexOutOfRange 4 3)).
Proof. vm_compute. reflexivity. Qed.

(** ** The pagination of [Search] *)

Section SearchProofs.

Variable clock : nat -> time.Time.
Variable web : string -> response.
Variable c : client.
Variable req : SearchRequest.

Lemma Search_snippet_spec (st : search_state) (s : snippet) :
  exists st',
    Search_snippet clock req st s = Done st'
    /\ same_position st st'
    /\ (if Limit req <=? Z.of_nat (List.length (s_results st))
        then s_results st' = s_results st /\ s_shouldContinue st' = false
        else exists r, s_results st' = (s_results st ++ [r])%list).
Proof.
  unfold Search_snippet, same_position.
  destruct (Limit req <=? Z.of_nat (List.length (s_results st))).
  { eexists. repeat split. }
  destruct (Split_cons (infoLabel_spans s) " published on ")
    as (t & ts & ->).
  cbn [List.length Nat.ltb Nat.leb index nth_error bind].
  destruct (normalizeTime_total (clock (s_calls st))
              (strings.TrimSpace (snippet_published s)))
    as (out & err & ->).
  cbn [bind]. destruct err; eexists; repeat split; eexists; reflexivity.
Qed.

Lemma Search_snippet_within (st st' : search_state) (s : snippet) :
  Search_snippet clock req st s = Done st' ->
  within_limit req st -> within_limit req st'.
Proof.
  intros E. destruct (Search_snippet_spec st s) as (st1 & E1 & _ & H).
  rewrite E1 in E. injection E as <-. unfold within_limit.
  destruct (Limit req <=? Z.of_nat (List.length (s_results st))) eqn:L.
  - destruct H as [-> _]. trivial.
  - destruct H as [r ->]. rewrite List.length_app, Nat.add_comm.
    simpl List.length.
    apply Z.leb_gt in L. lia.
Qed.

Lemma Each_snippets (l : list snippet) :
  forall st, exists st',
    Each (Search_snippet clock req) l st = Done st'
    /\ same_position st st'
    /\ (within_limit req st -> within_limit req st').
Proof.
  induction l as [|s l IH]; intros st.
  - exists st. repeat split; trivial.
  - destruct (Search_snippet_spec st s) as (st1 & E1 & [P1 V1] & _).
    destruct (IH st1) as (st2 & E2 & [P2 V2] & W2).
    exists st2. cbn [Each]. rewrite E1. cbn [bind]. rewrite E2.
    repeat split; try congruence.
    intros W. apply W2. now apply (Search_snippet_within st st1 s).
Qed.

Lemma on_SearchResults_spec (st : search_state) (snippets : list snippet) :
  exists st',
    on_SearchResults clock req st snippets = Done st'
    /\ same_position st st'
    /\ (within_limit req st -> within_limit req st').
Proof.
  destruct snippets as [|s l].
  - eexists. repeat split; trivial.
  - apply (Each_snippets (s :: l)).
Qed.

Lemma Each_SearchResults (l : list (list snippet)) :
  forall st, exists st',
    Each (on_SearchResults clock req) l st = Done st'
    /\ same_position st st'
    /\ (within_limit req st -> within_limit req st').
Proof.
  induction l as [|e l IH]; intros st.
  - exists st. repeat split; trivial.
  - destruct (on_SearchResults_spec st e) as (st1 & E1 & [P1 V1] & W1).
    destruct (IH st1) as (st2 & E2 & [P2 V2] & W2).
    exists st2. cbn [Each]. rewrite E1. cbn [bind]. rewrite E2.
    repeat split; try congruence. auto.
Qed.

(** A visit requests the current page and nothing else. *)
Lemma Search_Visit_spec (st : search_state) :
  exists st' err,
    Search_Visit clock web c req st = Done (st', err)
    /\ s_page st' = s_page st
    /\ s_visited st' = (s_visited st ++ [s_page st])%list
    /\ (within_limit req st -> within_limit req st').
Proof.
  unfold Search_Visit.
  destruct (web (Search_url c req (s_page st))) as [d|code e|e].
  - match goal with
    | |- context [Each _ _ ?s0] =>
        destruct (Each_SearchResults (SearchResults_sel d) s0)
          as (st1 & E1 & [P1 V1] & W1)
    end.
    rewrite E1. cbn [bind]. exists st1, None. repeat split; auto.
  - eexists _, _. repeat split; auto.
  - eexists _, _. repeat split; auto.
Qed.

Lemma Search_loop_S (fuel : nat) (st : search_state) :
  Search_loop clock web c (S fuel) req st
  = if s_shouldContinue st
       && (Z.of_nat (List.length (s_results st)) <? Limit req)
    then match Search_Visit clock web c req st with
         | Panic p => Some (Panic p)
         | Done (st1, Some err) =>
             Some (Done (mkSearch (s_results st1)
                     (s_errs st1 ++ [Errorf_visiting_page (s_page st1) err])
                     (s_shouldContinue st1) (s_page st1) (s_calls st1)
                     (s_visited st1)))
         | Done (st1, None) =>
             if 10 <? s_page st1 + 1
             then Some (Done (mkSearch (s_results st1) (s_errs st1)
                                (s_shouldContinue st1) (s_page st1 + 1)
                                (s_calls st1) (s_visited st1)))
             else Search_loop clock web c fuel req
                    (mkSearch (s_results st1) (s_errs st1)
                       (s_shouldContinue st1) (s_page st1 + 1)
                       (s_calls st1) (s_visited st1))
         end
    else Some (Done st).
Proof. reflexivity. Qed.

(** From a page within the ceiling, the loop ends before its fuel does
    once the fuel covers the pages that are left. *)
Lemma Search_loop_ends (fuel : nat) :
  forall st,
    1 <= s_page st <= 10 ->
    11 - s_page st <= Z.of_nat fuel ->
    Forall (fun p => 1 <= p < s_page st) (s_visited st) ->
    Z.of_nat (List.length (s_visited st)) = s_page st - 1 ->
    exists st',
      Search_loop clock web c fuel req st = Some (Done st')
      /\ s_page st' <= 11
      /\ Forall (fun p => 1 <= p <= 10) (s_visited st')
      /\ (List.length (s_visited st') <= 10)%nat
      /\ (within_limit req st -> within_limit req st').
Proof.
  induction fuel as [|fuel IH]; intros st Hp Hf Hv Hl; [lia|].
  assert (Hv' : Forall (fun p => 1 <= p <= 10) (s_visited st)).
  { eapply Forall_impl; [|exact Hv]. cbv beta. intros; lia. }
  rewrite Search_loop_S.
  destruct (s_shouldContinue st
            && (Z.of_nat (List.length (s_results st)) <? Limit req)).
  2:{ exists st. repeat split; trivial; lia. }
  destruct (Search_Visit_spec st) as (st1 & err & -> & P1 & V1 & W1).
  assert (Hv1 : Forall (fun p => 1 <= p <= 10) (s_visited st1)).
  { rewrite V1. apply Forall_app. split; [exact Hv'|].
    constructor; [lia|constructor]. }
  assert (Hl1 : Z.of_nat (List.length (s_visited st1)) = s_page st).
  { rewrite V1, List.length_app. simpl List.length. lia. }
  destruct err as [err|].
  - eexists. split; [reflexivity|]. cbn [s_page s_visited s_results].
    repeat split; trivial; lia.
  - destruct (10 <? s_page st1 + 1) eqn:T.
    + eexists. split; [reflexivity|]. cbn [s_page s_visited s_results].
      repeat split; trivial; lia.
    + apply Z.ltb_ge in T.
      match goal with
      | |- context [Search_loop _ _ _ fuel req ?s2] =>
          destruct (IH s2) as (st2 & E2 & Q1 & Q2 & Q3 & Q4)
      end; cbn [s_page s_visited s_results]; try lia.
      * rewrite V1. apply Forall_app. split.
        -- eapply Forall_impl; [|exact Hv]. cbv beta. intros; lia.
        -- constructor; [lia|constructor].
      * exists st2. repeat split; trivial.
        intros W. apply Q4. unfold within_limit in *.
        cbn [s_results]. apply W1, W.
Qed.

Lemma Search_loop_more_fuel (fuel : nat) :
  forall st r,
    Search_loop clock web c fuel req st = Some r ->
    Search_loop clock web c (S fuel) req st = Some r.
Proof.
  induction fuel as [|fuel IH]; intros st r H.
  - rewrite Search_loop_S. cbn [Search_loop] in H.
    destruct (s_shouldContinue st
              && (Z.of_nat (List.length (s_results st)) <? Limit req));
      [discriminate|exact H].
  - rewrite Search_loop_S in H. rewrite Search_loop_S.
    destruct (s_shouldContinue st
              && (Z.of_nat (List.length (s_results st)) <? Limit req));
      [|exact H].
    destruct (Search_Visit clock web c req st) as [[st1 [err|]]|p];
      try exact H.
    destruct (10 <? s_page st1 + 1); [exact H|]. now apply IH.
Qed.

Lemma Search_loop_fuel_plus (k fuel : nat) (st : search_state)
      (r : outcome search_state) :
  Search_loop clock web c fuel req st = Some r ->
  Search_loop clock web c (k + fuel) req st = Some r.
Proof.
  intros H. induction k as [|k IH]; [exact H|].
  now apply Search_loop_more_fuel.
Qed.

(** Whatever the fuel, a loop that ends leaves the bound in place. *)
Lemma Search_loop_within (fuel : nat) :
  forall st st',
    Search_loop clock web c fuel req st = Some (Done st') ->
    within_limit req st -> within_limit req st'.
Proof.
  induction fuel as [|fuel IH]; intros st st' H W.
  - cbn [Search_loop] in H.
    destruct (s_shouldContinue st
              && (Z.of_nat (List.length (s_results st)) <? Limit req));
      [discriminate|]. now injection H as <-.
  - rewrite Search_loop_S in H.
    destruct (s_shouldContinue st
              && (Z.of_nat (List.length (s_results st)) <? Limit req)).
    2:{ now injection H as <-. }
    destruct (Search_Visit_spec st) as (st1 & err & E & _ & _ & W1).
    rewrite E in H. specialize (W1 W).
    destruct err as [err|].
    + injection H as <-. exact W1.
    + destruct (10 <? s_page st1 + 1).
      * injection H as <-. exact W1.
      * apply (IH _ _ H). exact W1.
Qed.

End SearchProofs.

(** C3, amended.  The loop over the pages of the current [Search] ends on
    every input: whatever the pages hold and whatever [Visit] answers, ten
    iterations end it, more fuel changes nothing, and no page past the tenth
    is ever requested.  The legacy [Search] has no such ceiling. *)
Theorem Search_stops_within_ten_pages
        (clock : nat -> time.Time) (web : string -> response) (c : client)
        (req : SearchRequest) :
  exists st,
    Search_loop clock web c 10 req Search_start = Some (Done st)
    /\ (forall k, client_Search clock web c (k + 10) req
                  = Some (Done (finish (mkSearchResults (s_results st))
                                       (s_errs st))))
    /\ Forall (fun page => 1 <= page <= 10) (s_visited st)
    /\ (List.length (s_visited st) <= 10)%nat.
Proof.
  destruct (Search_loop_ends clock web c req 10 Search_start)
    as (st & E & _ & V & L & _); cbn; try lia; [constructor|].
  exists st. repeat split; trivial.
  intros k. unfold client_Search.
  now rewrite (Search_loop_fuel_plus clock web c req k 10 _ _ E).
Qed.

(** ** The legacy [Search]: the same bound, no ceiling *)

Lemma Each_preserves {A S : Type} (P : S -> Prop) (f : S -> A -> outcome S) :
  (forall st a st', f st a = Done st' -> P st -> P st') ->
  forall l st st', Each f l st = Done st' -> P st -> P st'.
Proof.
  intros Hf. induction l as [|a l IH]; intros st st' H Hst; cbn [Each] in H.
  - now injection H as <-.
  - destruct (f st a) as [st1|p] eqn:E; [|discriminate].
    cbn [bind] in H. eauto.
Qed.

Section LegacySearchProofs.

Variable clock : nat -> time.Time.
Variable web : string -> response.
Variable c : client.
Variable req : SearchRequest.
Hypothesis limit_not_negative : 0 <= Limit req.

Lemma legacy_on_results_total_results (st : search_state) (text : string)
      (st' : search_state) :
  legacy_on_results_total req st text = Done st' ->
  s_results st' = s_results st.
Proof.
  unfold legacy_on_results_total.
  destruct (String.eqb _ "0 results"); [now intros [= <-]|].
  destruct (_ =? 2)%nat; [now intros [= <-]|].
  destruct (index _ 2); [|discriminate]. cbn [bind].
  destruct (strconv.Atoi a) as [n [e|]]; [now intros [= <-]|].
  destruct (index _ 4); [|discriminate]. cbn [bind]. now intros [= <-].
Qed.

Lemma legacy_on_snippet_at_most (st : search_state) (s : legacy_snippet)
      (st' : search_state) :
  legacy_on_snippet clock req st s = Done st' ->
  at_most_limit req st -> at_most_limit req st'.
Proof.
  unfold legacy_on_snippet, at_most_limit.
  destruct (Z.of_nat (List.length (s_results st)) =? Limit req) eqn:L;
    [now intros [= <-]|].
  apply Z.eqb_neq in L.
  destruct (normalizeTime _ _) as [[out [e|]]|p]; cbn [bind];
    [now intros [= <-]| |discriminate].
  destruct (strconv.Atoi _) as [n [e|]]; intros [= <-]; cbn [s_results];
    [trivial|].
  rewrite List.length_app. simpl List.length. lia.
Qed.

Lemma legacy_Search_Visit_at_most (st st' : search_state) :
  legacy_Search_Visit clock web c req st = Done st' ->
  at_most_limit req st -> at_most_limit req st'.
Proof.
  unfold legacy_Search_Visit.
  destruct (web _) as [d|code e|e].
  - match goal with
    | |- context [Each (legacy_on_results_total req) ?l ?s0] =>
        destruct (Each (legacy_on_results_total req) l s0) as [st1|p] eqn:E1
    end; [|discriminate].
    cbn [bind]. intros E2 H.
    apply (Each_preserves (at_most_limit req) _ legacy_on_snippet_at_most
                          _ _ _ E2).
    assert (R : s_results st1 = s_results st).
    { apply (Each_preserves (fun s => s_results s = s_results st)
               (legacy_on_results_total req)) in E1; [exact E1| |reflexivity].
      intros s0 a s1 Ha Hs. rewrite <- Hs.
      now apply legacy_on_results_total_results with (text := a). }
    unfold at_most_limit in *. now rewrite R.
  - now intros [= <-].
  - now intros [= <-].
Qed.

Lemma legacy_Search_loop_at_most (fuel : nat) :
  forall st results errs,
    legacy_Search_loop clock web c fuel req st
    = Some (Done (Some results, errs)) ->
    at_most_limit req st ->
    Z.of_nat (List.length (Results results)) <= Limit req.
Proof.
  induction fuel as [|fuel IH]; intros st results errs H W;
    cbn [legacy_Search_loop] in H;
    (destruct (s_shouldContinue st); [|now injection H as <- _]);
    [discriminate|].
  destruct (legacy_Search_Visit clock web c req st) as [st1|p] eqn:E;
    [|discriminate].
  apply legacy_Search_Visit_at_most in E; [|exact W].
  destruct (s_errs st1); [|discriminate].
  apply (IH _ _ _ H). exact E.
Qed.

(** The legacy [Search] keeps within a limit that is not negative. *)
Lemma legacy_Search_results_bounded (fuel : nat) (results : SearchResults)
      (errs : option ErrorList) :
  legacy_Search clock web c fuel req = Some (Done (Some results, errs)) ->
  Z.of_nat (List.length (Results results)) <= Limit req.
Proof.
  intros H. apply (legacy_Search_loop_at_most fuel _ _ _ H).
  exact limit_not_negative.
Qed.

End LegacySearchProofs.

(** C2, amended.  For a limit that is not negative, the results that
    [Search] returns number at most the limit, in the current variant and in
    the legacy one; for a negative limit the current variant returns none, so
    that its results number at most [max 0 limit] in every case.  Once the
    running total has reached the limit, a snippet appends nothing. *)
Theorem Search_results_bounded
        (clock : nat -> time.Time) (web : string -> response) (c : client)
        (req : SearchRequest) :
  (forall fuel results errs,
      client_Search clock web c fuel req = Some (Done (Some results, errs)) ->
      Z.of_nat (List.length (Results results)) <= Z.max 0 (Limit req))
  /\ (forall st s,
         Limit req <= Z.of_nat (List.length (s_results st)) ->
         exists st', Search_snippet clock req st s = Done st'
                     /\ s_results st' = s_results st)
  /\ (0 <= Limit req ->
      forall fuel results errs,
        legacy_Search clock web c fuel req = Some (Done (Some results, errs)) ->
        Z.of_nat (List.length (Results results)) <= Limit req).
Proof.
  split; [|split].
  - intros fuel results errs H. unfold client_Search in H.
    destruct (Search_loop clock web c fuel req Search_start) as [[st|p]|] eqn:E;
      try discriminate.
    apply Search_loop_within in E; [|unfold within_limit; cbn; lia].
    cbn in H. unfold finish in H.
    destruct (s_errs st); [|discriminate].
    injection H as <- _. exact E.
  - intros st s L.
    destruct (Search_snippet_spec clock req st s) as (st' & E & _ & H).
    apply Z.leb_le in L. rewrite L in H. exists st'. tauto.
  - intros L fuel results errs.
    now apply legacy_Search_results_bounded.
Qed.

Lemma Search_results_bounded_witness :
  exists results,
    client_Search example_clock pages_of_three New 10 (mkSearchRequest "go" 5)
    = Some (Done (Some results, None))
    /\ Z.of_nat (List.length (Results results)) <= Z.max 0 5.
Proof.
  eexists. split.
  - vm_compute. reflexivity.
  - apply (proj1 (Search_results_bounded example_clock pages_of_three New
                    (mkSearchRequest "go" 5)) 10%nat _ None).
    vm_compute. reflexivity.
Defined.

(** The aggregation of the specification: a limit of five and pages of three
    snippets give five results after two pages. *)
Example Search_limit_five :
  exists st,
    Search_loop example_clock pages_of_three New 10 (mkSearchRequest "go" 5)
                Search_start = Some (Done st)
    /\ List.length (s_results st) = 5%nat
    /\ s_visited st = [1; 2]
    /\ s_errs st = [].
Proof. eexists. split; [vm_compute; reflexivity|]. repeat split. Qed.

(** C2, as stated, fails on a negative limit: [Search] returns no result, and
    zero is more than the limit. *)
Lemma Search_negative_limit :
  exists results,
    client_Search example_clock pages_of_three New 10
                  (mkSearchRequest "go" (-1))
    = Some (Done (Some results, None))
    /\ ~ Z.of_nat (List.length (Results results)) <= -1.
Proof.
  exists (mkSearchResults []). split; [vm_compute; reflexivity|].
  cbn. lia.
Qed.

(** Under a negative limit the legacy [Search] appends every snippet. *)
Example legacy_Search_negative_limit :
  exists results,
    legacy_Search example_clock legacy_pages_of_three New 2
                  (mkSearchRequest "go" (-1))
    = Some (Done (Some results, None))
    /\ List.length (Results results) = 3%nat.
Proof. eexists. split; [vm_compute; reflexivity|reflexivity]. Qed.

(** The loop of the legacy [Search] has no ceiling: on a site whose pages
    hold neither a results header nor an error, no fuel ends it. *)
Lemma legacy_Search_no_ceiling (clock : nat -> time.Time) (c : client)
      (req : SearchRequest) (fuel : nat) :
  legacy_Search clock empty_pages c fuel req = None.
Proof.
  unfold legacy_Search.
  assert (G : forall st, s_shouldContinue st = true -> s_errs st = [] ->
                         legacy_Search_loop clock empty_pages c fuel req st
                         = None).
  { induction fuel as [|fuel IH]; intros st Hc He; cbn [legacy_Search_loop];
      rewrite Hc; [reflexivity|].
    unfold legacy_Search_Visit, empty_pages. cbn [Each bind results_total
      LegacySearchSnippet empty_document s_errs s_results s_shouldContinue
      s_page s_calls s_visited].
    rewrite He. apply IH; [exact Hc|reflexivity]. }
  now apply G.
Qed.

(** The loop of the legacy [Search] goes past the tenth page.  On a site of
    empty pages it never returns; and where the eleventh page alone fails, ten
    iterations do not end it, the eleventh requests that page and returns
    its error, while the current [Search]
    stops after the tenth page and returns no error. *)
Lemma legacy_Search_passes_tenth_page :
  (forall fuel,
      legacy_Search example_clock empty_pages New fuel
                    (mkSearchRequest "go" 25) = None)
  /\ legacy_Search example_clock eleventh_page_fails New 10
                   (mkSearchRequest "go" 25) = None
  /\ legacy_Search example_clock eleventh_page_fails New 11
                   (mkSearchRequest "go" 25)
     = Some (Done (None,
                   Some (mkErrorList
                           [TransportError "Internal Server Error"])))
  /\ client_Search example_clock eleventh_page_fails New 10
                   (mkSearchRequest "go" 25)
     = Some (Done (Some (mkSearchResults []), None)).
Proof.
  split; [|split; [|split]].
  - intros fuel. apply legacy_Search_no_ceiling.
  - vm_compute. reflexivity.
  - vm_compute. reflexivity.
  - vm_compute. reflexivity.
Qed.

(** ** The walk of [Versions] *)

Lemma Each_app {A S : Type} (f : S -> A -> outcome S) (l1 l2 : list A) :
  forall st, Each f (l1 ++ l2) st = (st1 <- Each f l1 st ;; Each f l2 st1).
Proof.
  induction l1 as [|a l1 IH]; intros st; cbn [Each app bind]; [reflexivity|].
  destruct (f st a); cbn [bind]; [apply IH|reflexivity].
Qed.

Section VersionsProofs.

Variable clock : nat -> time.Time.

(** The tests of the two classes that are not terminal touch the record in
    progress and the sticky major version only. *)
Lemma early_tests_keep (st : versions_walk) (s : node) :
  let st1 := on_Version_tag (on_Version_major st s) s in
  walk_versions st1 = walk_versions st
  /\ walk_errs st1 = walk_errs st
  /\ walk_stderr st1 = walk_stderr st
  /\ walk_calls st1 = walk_calls st.
Proof.
  unfold on_Version_tag, on_Version_major.
  destruct (HasClass s "Version-major"), (HasClass s "Version-tag");
    repeat split.
Qed.

Lemma on_Version_commitTime_spec (st : versions_walk) (s : node) :
  exists st' returned new errs,
    on_Version_commitTime clock st s = Done (st', returned)
    /\ walk_versions st' = (walk_versions st ++ new)%list
    /\ walk_errs st' = (walk_errs st ++ errs)%list
    /\ walk_stderr st' = walk_stderr st
    /\ Forall (accepted clock) new
    /\ walk_calls st'
       = (walk_calls st + List.length new + List.length errs)%nat
    /\ (List.length new + List.length errs
        <= if HasClass s "Version-commitTime" then 1 else 0)%nat.
Proof.
  unfold on_Version_commitTime.
  destruct (HasClass s "Version-commitTime").
  - destruct (normalizeTime_total (clock (walk_calls st))
                (strings.TrimSpace (Text s))) as (out & [e|] & E);
      rewrite E; cbn [bind].
    + exists (mkWalk (curVersion st) (curMajorVersion st) (walk_versions st)
                     (walk_errs st ++ [e]) (walk_stderr st)
                     (S (walk_calls st))), true, [], [e].
      cbn. rewrite app_nil_r. repeat split; trivial; lia.
    + exists (emit st out), false,
        [mkVersion (Version_MajorVersion (curVersion st))
                   (Version_FullVersion (curVersion st)) out], [].
      cbn. rewrite app_nil_r. repeat split; trivial; try lia.
      constructor; [|constructor]. eexists _, _. exact E.
  - exists st, false, [], []. cbn. rewrite !app_nil_r.
    repeat split; trivial; lia.
Qed.

Lemma on_Version_details_spec (st : versions_walk) (s : node) :
  exists st' new log,
    on_Version_details clock st s = Done st'
    /\ walk_versions st' = (walk_versions st ++ new)%list
    /\ walk_errs st' = walk_errs st
    /\ walk_stderr st' = (walk_stderr st ++ log)%list
    /\ Forall (accepted clock) new
    /\ walk_calls st'
       = (walk_calls st + List.length new + List.length log)%nat
    /\ (List.length new + List.length log
        <= if HasClass s "Version-details" then 1 else 0)%nat.
Proof.
  unfold on_Version_details.
  destruct (HasClass s "Version-details").
  - destruct (normalizeTime_total (clock (walk_calls st))
                (strings.TrimSpace (Version_summary s))) as (out & [e|] & E);
      rewrite E; cbn [bind].
    + exists (mkWalk (curVersion st) (curMajorVersion st) (walk_versions st)
                     (walk_errs st) (walk_stderr st ++ [e])
                     (S (walk_calls st))), [], [e].
      cbn. rewrite app_nil_r. repeat split; trivial; lia.
    + exists (emit st out),
        [mkVersion (Version_MajorVersion (curVersion st))
                   (Version_FullVersion (curVersion st)) out], [].
      cbn. rewrite app_nil_r. repeat split; trivial; try lia.
      constructor; [|constructor]. eexists _, _. exact E.
  - exists st, [], []. cbn. rewrite !app_nil_r.
    repeat split; trivial; lia.
Qed.

(** One child: the records, errors and reports it adds are as many as the
    calls of [normalizeTime] it makes, at most one for each terminal class
    it has, and each record carries a date that [normalizeTime] gave. *)
Lemma Versions_child_spec (st : versions_walk) (s : node) :
  exists st' new errs log,
    Versions_child clock st s = Done st'
    /\ walk_versions st' = (walk_versions st ++ new)%list
    /\ walk_errs st' = (walk_errs st ++ errs)%list
    /\ walk_stderr st' = (walk_stderr st ++ log)%list
    /\ Forall (accepted clock) new
    /\ walk_calls st'
       = (walk_calls st + List.length new + List.length errs
          + List.length log)%nat
    /\ (List.length new + List.length errs + List.length log
        <= terminal_classes s)%nat.
Proof.
  unfold Versions_child, terminal_classes.
  destruct (early_tests_keep st s) as (K1 & K2 & K3 & K4).
  destruct (on_Version_commitTime_spec
              (on_Version_tag (on_Version_major st s) s) s)
    as (st1 & ret & new1 & errs1 & E1 & V1 & R1 & S1 & A1 & C1 & B1).
  rewrite E1. cbn [bind]. rewrite K1 in V1. rewrite K2 in R1.
  rewrite K3 in S1. rewrite K4 in C1.
  destruct ret.
  - exists st1, new1, errs1, []. rewrite app_nil_r. cbn [List.length].
    repeat split; trivial; lia.
  - destruct (on_Version_details_spec st1 s)
      as (st2 & new2 & log2 & E2 & V2 & R2 & S2 & A2 & C2 & B2).
    exists st2, (new1 ++ new2)%list, errs1, log2.
    rewrite E2, V2, V1, R2, R1, S2, S1, C2, C1, app_assoc, List.length_app.
    repeat split; trivial; try lia. now apply Forall_app.
Qed.

Lemma Versions_children_spec (nodes : list node) :
  forall st, exists st' new errs log,
    Each (Versions_child clock) nodes st = Done st'
    /\ walk_versions st' = (walk_versions st ++ new)%list
    /\ walk_errs st' = (walk_errs st ++ errs)%list
    /\ walk_stderr st' = (walk_stderr st ++ log)%list
    /\ Forall (accepted clock) new
    /\ walk_calls st'
       = (walk_calls st + List.length new + List.length errs
          + List.length log)%nat
    /\ (List.length new + List.length errs + List.length log
        <= list_sum (map terminal_classes nodes))%nat.
Proof.
  induction nodes as [|s nodes IH]; intros st.
  - exists st, [], [], []. rewrite !app_nil_r. cbn.
    repeat split; trivial; lia.
  - destruct (Versions_child_spec st s)
      as (st1 & n1 & e1 & l1 & E1 & V1 & R1 & S1 & A1 & C1 & B1).
    destruct (IH st1)
      as (st2 & n2 & e2 & l2 & E2 & V2 & R2 & S2 & A2 & C2 & B2).
    exists st2, (n1 ++ n2)%list, (e1 ++ e2)%list, (l1 ++ l2)%list.
    cbn [Each map list_sum fold_right]. unfold list_sum in B2.
    rewrite E1. cbn [bind].
    rewrite E2, V2, V1, R2, R1, S2, S1, C2, C1, !app_assoc,
      !List.length_app.
    repeat split; trivial; try lia. now apply Forall_app.
Qed.

Lemma Versions_child_not_terminal (st : versions_walk) (s : node) :
  terminal s = false ->
  Versions_child clock st s = Done (on_Version_tag (on_Version_major st s) s).
Proof.
  unfold terminal, Versions_child, on_Version_commitTime, on_Version_details.
  intros H. apply orb_false_iff in H as [-> ->]. reflexivity.
Qed.

Lemma Versions_child_commitTime (st : versions_walk) (s : node) (t : string) :
  let st1 := on_Version_tag (on_Version_major st s) s in
  HasClass s "Version-commitTime" = true ->
  HasClass s "Version-details" = false ->
  normalizeTime (clock (walk_calls st)) (strings.TrimSpace (Text s))
  = Done (t, None) ->
  Versions_child clock st s = Done (emit st1 t).
Proof.
  intros st1 Hc Hd E. subst st1.
  unfold Versions_child, on_Version_commitTime, on_Version_details.
  rewrite Hc, Hd.
  destruct (early_tests_keep st s) as (_ & _ & _ & ->).
  rewrite E. reflexivity.
Qed.

Lemma Versions_child_details (st : versions_walk) (s : node) (t : string) :
  let st1 := on_Version_tag (on_Version_major st s) s in
  HasClass s "Version-commitTime" = false ->
  HasClass s "Version-details" = true ->
  normalizeTime (clock (walk_calls st))
                (strings.TrimSpace (Version_summary s))
  = Done (t, None) ->
  Versions_child clock st s = Done (emit st1 t).
Proof.
  intros st1 Hc Hd E. subst st1.
  unfold Versions_child, on_Version_commitTime, on_Version_details.
  rewrite Hc, Hd. cbn [bind].
  destruct (early_tests_keep st s) as (_ & _ & _ & ->).
  rewrite E. reflexivity.
Qed.


End VersionsProofs.

(** C1, amended.  Whatever the children of the list are, the walk returns,
    and every record it appends carries a date that [normalizeTime] returned
    without an error (its full version is whatever the last version tag left,
    the empty string included).  Records are appended one for each successful
    call of [normalizeTime]: the calls of the walk are as many as the records,
    errors and reports it adds, and a child cannot add more than it has
    terminal classes; a child without a terminal marker appends nothing.  A
    terminal marker whose date is normalized appends the record in progress
    with that date and leaves the blank record in progress, the sticky major
    version alone being kept. *)
Theorem Versions_records_dated_once (clock : nat -> time.Time) :
  (forall nodes st, exists st' new errs log,
      Each (Versions_child clock) nodes st = Done st'
      /\ walk_versions st' = (walk_versions st ++ new)%list
      /\ walk_errs st' = (walk_errs st ++ errs)%list
      /\ walk_stderr st' = (walk_stderr st ++ log)%list
      /\ Forall (accepted clock) new
      /\ walk_calls st'
         = (walk_calls st + List.length new + List.length errs
            + List.length log)%nat
      /\ (List.length new + List.length errs + List.length log
          <= list_sum (map terminal_classes nodes))%nat)
  /\ (forall st s,
         terminal s = false ->
         exists st', Versions_child clock st s = Done st'
                     /\ walk_versions st' = walk_versions st)
  /\ (forall st s t,
         HasClass s "Version-commitTime" = true ->
         HasClass s "Version-details" = false ->
         normalizeTime (clock (walk_calls st)) (strings.TrimSpace (Text s))
         = Done (t, None) ->
         Versions_child clock st s
         = Done (emit (on_Version_tag (on_Version_major st s) s) t))
  /\ (forall st s t,
         HasClass s "Version-commitTime" = false ->
         HasClass s "Version-details" = true ->
         normalizeTime (clock (walk_calls st))
                       (strings.TrimSpace (Version_summary s))
         = Done (t, None) ->
         Versions_child clock st s
         = Done (emit (on_Version_tag (on_Version_major st s) s) t))
  /\ (forall st t,
         curVersion (emit st t) = Version_zero
         /\ curMajorVersion (emit st t) = curMajorVersion st
         /\ walk_versions (emit st t)
            = (walk_versions st
               ++ [mkVersion (Version_MajorVersion (curVersion st))
                             (Version_FullVersion (curVersion st)) t])%list).
Proof.
  split; [|split; [|split; [|split]]].
  - intros nodes st. apply Versions_children_spec.
  - intros st s H. eexists. split.
    + now apply Versions_child_not_terminal.
    + now destruct (early_tests_keep st s).
  - intros st s t. apply Versions_child_commitTime.
  - intros st s t. apply Versions_child_details.
  - intros st t. repeat split.
Qed.

Lemma Versions_records_dated_once_witness :
  Versions_child example_clock Versions_walk_start (commit_time "today")
  = Done (emit Versions_walk_start "2024-01-15").
Proof.
  apply (proj1 (proj2 (proj2 (Versions_records_dated_once example_clock)))
           Versions_walk_start (commit_time "today") "2024-01-15");
    vm_compute; reflexivity.
Defined.

(** C1, as stated, fails on a list whose first child is a commit time: the
    record that [Versions] returns has an empty full version. *)
Lemma Versions_emits_empty_fullVersion :
  client_Versions example_clock
                  (fun _ => Scraped (versions_page [commit_time "today"]))
                  New "example.com/pkg"
  = Done (Some (mkVersions "example.com/pkg" [mkVersion "" "" "2024-01-15"]),
          None)
  /\ ~ Forall (fun v => Version_FullVersion v <> "")
              [mkVersion "" "" "2024-01-15"].
Proof.
  split; [vm_compute; reflexivity|].
  intros H. inversion H as [|v l Hv _]. now apply Hv.
Qed.



(** ** [DescribePackage] *)

Lemma keeps_refl (st : describe_state) : keeps st st.
Proof. repeat split. exists []. now rewrite app_nil_r. Qed.

Lemma keeps_trans (st1 st2 st3 : describe_state) :
  keeps st1 st2 -> keeps st2 st3 -> keeps st1 st3.
Proof.
  intros (P1 & M1 & I1 & e1 & E1) (P2 & M2 & I2 & e2 & E2).
  repeat split; try congruence.
  exists (e1 ++ e2)%list. now rewrite E2, E1, app_assoc.
Qed.

Lemma Each_keeps {A : Type} (f : describe_state -> A -> outcome describe_state) :
  (forall st a, exists st', f st a = Done st' /\ keeps st st') ->
  forall l st, exists st', Each f l st = Done st' /\ keeps st st'.
Proof.
  intros Hf. induction l as [|a l IH]; intros st.
  - exists st. split; [reflexivity|apply keeps_refl].
  - destruct (Hf st a) as (st1 & E1 & K1).
    destruct (IH st1) as (st2 & E2 & K2).
    exists st2. cbn [Each]. rewrite E1. cbn [bind].
    split; [exact E2|]. now apply keeps_trans with st1.
Qed.

Lemma each_li_flags (lis : list bool) :
  forall i p,
    Package_IsPackage (each_li i lis p) = Package_IsPackage p
    /\ Package_IsModule (each_li i lis p) = Package_IsModule p
    /\ Package_Images (each_li i lis p) = Package_Images p.
Proof.
  induction lis as [|b lis IH]; intros i p; [now repeat split|].
  cbn [each_li]. destruct (IH (S i) (with_badge p i b)) as (-> & -> & ->).
  now repeat split.
Qed.

Section DescribeProofs.

Variable clock : nat -> time.Time.
Variable c : client.
Variable req_Package : string.

Ltac keeps_by_computation :=
  intros st a; eexists; split; [reflexivity|];
  repeat split; exists []; now rewrite app_nil_r.

Lemma on_UnitHeader_version_keeps :
  forall st a, exists st',
    on_UnitHeader_version st a = Done st' /\ keeps st st'.
Proof. keeps_by_computation. Qed.

Lemma on_UnitHeader_licenses_keeps :
  forall st a, exists st',
    on_UnitHeader_licenses st a = Done st' /\ keeps st st'.
Proof. keeps_by_computation. Qed.

Lemma on_UnitMeta_keeps :
  forall st a, exists st', on_UnitMeta st a = Done st' /\ keeps st st'.
Proof.
  intros st a. eexists. split; [reflexivity|].
  destruct (each_li_flags a O (d_p st)) as (P & M & I).
  repeat split; trivial. exists []. now rewrite app_nil_r.
Qed.

Lemma on_UnitMeta_repo_keeps :
  forall st a, exists st', on_UnitMeta_repo st a = Done st' /\ keeps st st'.
Proof. keeps_by_computation. Qed.

Lemma on_UnitHeader_commitTime_keeps :
  forall st a, exists st',
    on_UnitHeader_commitTime clock st a = Done st' /\ keeps st st'.
Proof.
  intros st a. unfold on_UnitHeader_commitTime.
  destruct (normalizeTime_total (clock (d_calls st))
              (strings.TrimPrefix (strings.TrimSpace a) "Published: "))
    as (out & [e|] & ->); cbn [bind]; eexists; (split; [reflexivity|]).
  - repeat split. now exists [e].
  - repeat split. exists []. now rewrite app_nil_r.
Qed.

Lemma on_SearchSnippet_synopsis_keeps :
  forall st a, exists st',
    on_SearchSnippet_synopsis st a = Done st' /\ keeps st st'.
Proof. keeps_by_computation. Qed.

(** The scan of the siblings only adds to the errors, and keeps the
    images. *)
Lemma scan_siblings_errs (siblings : list string) :
  forall st,
    Package_Images (d_p (scan_siblings req_Package siblings st))
    = Package_Images (d_p st)
    /\ exists more,
         d_errs (scan_siblings req_Package siblings st)
         = (d_errs st ++ more)%list.
Proof.
  assert (D : forall st,
             let st' :=
               if negb (Package_IsPackage (d_p st))
                  && negb (Package_IsModule (d_p st))
               then mkDescribe (d_p st)
                      (d_errs st ++ [Errorf_IsPackage_false req_Package])
                      (d_calls st)
               else st in
             Package_Images (d_p st') = Package_Images (d_p st)
             /\ exists more, d_errs st' = (d_errs st ++ more)%list).
  { intros st. destruct (_ && _); cbn; split; trivial; [now eexists|].
    exists []. now rewrite app_nil_r. }
  induction siblings as [|text next IH]; intros st; cbn [scan_siblings];
    [apply D|].
  destruct (String.eqb text "command"); [apply IH|].
  destruct (String.eqb text "package");
    [exact (IH (with_p st (with_IsPackage (d_p st) true)))|].
  destruct (String.eqb text "module");
    [exact (IH (with_p st (with_IsModule (d_p st) true)))|].
  apply D.
Qed.

(** Without a label of a kind and with both flags down, the scan records
    the violation and leaves the flags down. *)
Lemma scan_siblings_violation (siblings : list string) :
  forall st,
    no_kind_label siblings ->
    Package_IsPackage (d_p st) = false ->
    Package_IsModule (d_p st) = false ->
    let st' := scan_siblings req_Package siblings st in
    Package_IsPackage (d_p st') = false
    /\ Package_IsModule (d_p st') = false
    /\ d_errs st' = (d_errs st ++ [Errorf_IsPackage_false req_Package])%list.
Proof.
  induction siblings as [|text next IH]; intros st [Np Nm] P M;
    cbn [scan_siblings].
  - rewrite P, M. cbn. auto.
  - destruct (String.eqb text "command").
    { apply IH; trivial. split; intros H; [apply Np|apply Nm]; now right. }
    destruct (String.eqb text "package") eqn:E1.
    { apply String.eqb_eq in E1. exfalso. apply Np. now left. }
    destruct (String.eqb text "module") eqn:E2.
    { apply String.eqb_eq in E2. exfalso. apply Nm. now left. }
    rewrite P, M. cbn. auto.
Qed.

Lemma Each_titleHeading (l : list (list string)) :
  forall st, exists st' more,
    Each (on_titleHeading req_Package) l st = Done st'
    /\ d_errs st' = (d_errs st ++ more)%list
    /\ Package_Images (d_p st') = Package_Images (d_p st)
    /\ (Forall no_kind_label l ->
        Package_IsPackage (d_p st) = false ->
        Package_IsModule (d_p st) = false ->
        Package_IsPackage (d_p st') = false
        /\ Package_IsModule (d_p st') = false
        /\ (l <> [] -> In (Errorf_IsPackage_false req_Package) more)).
Proof.
  induction l as [|siblings l IH]; intros st.
  - exists st, []. rewrite app_nil_r. repeat split; trivial. congruence.
  - cbn [Each on_titleHeading bind].
    destruct (IH (scan_siblings req_Package siblings st))
      as (st' & more2 & E & R & I & H).
    destruct (scan_siblings_errs siblings st) as (I1 & more1 & R1).
    exists st', (more1 ++ more2)%list. split; [exact E|].
    split; [now rewrite R, R1, app_assoc|].
    split; [congruence|].
    intros F P M. inversion F as [|x y Fx Fl]; subst.
    destruct (scan_siblings_violation siblings st Fx P M) as (P1 & M1 & R2).
    destruct (H Fl P1 M1) as (P2 & M2 & _). repeat split; trivial.
    intros _. rewrite R2 in R1. apply app_inv_head in R1. subst more1.
    apply in_or_app. left. now left.
Qed.

Lemma Each_on_img (l : list (string * string)) :
  forall st, exists st',
    Each (on_img c) l st = Done st'
    /\ d_errs st' = d_errs st
    /\ List.length (Package_Images (d_p st'))
       = (List.length (Package_Images (d_p st)) + List.length l)%nat.
Proof.
  induction l as [|[alt src] l IH]; intros st.
  - exists st. repeat split. cbn. lia.
  - cbn [Each on_img bind].
    match goal with
    | |- context [Each _ l ?s1] => destruct (IH s1) as (st' & E & R & L)
    end.
    exists st'. split; [exact E|]. split; [exact R|].
    rewrite L. cbn. rewrite List.length_app. cbn. lia.
Qed.

(** All the callbacks run, whatever the scan of the title finds: the
    errors only grow, a violation found by the scan is among them, and the
    images of the readme are all collected after it. *)
Lemma DescribePackage_callbacks_spec (legacy : bool) (d : document)
      (st : describe_state) :
  exists st' more,
    DescribePackage_callbacks clock c legacy req_Package d st = Done st'
    /\ d_errs st' = (d_errs st ++ more)%list
    /\ List.length (Package_Images (d_p st'))
       = (List.length (Package_Images (d_p st))
          + List.length (UnitReadme_content_img d))%nat
    /\ (UnitHeader_titleHeading d <> [] ->
        Forall no_kind_label (UnitHeader_titleHeading d) ->
        Package_IsPackage (d_p st) = false ->
        Package_IsModule (d_p st) = false ->
        In (Errorf_IsPackage_false req_Package) more).
Proof.
  unfold DescribePackage_callbacks.
  destruct (Each_keeps _ on_UnitHeader_version_keeps (UnitHeader_version d) st)
    as (s1 & -> & K1). cbn [bind].
  destruct (Each_keeps _ on_UnitHeader_licenses_keeps
              (UnitHeader_licenses d) s1) as (s2 & -> & K2). cbn [bind].
  destruct (Each_keeps _ on_UnitMeta_keeps (UnitMeta d) s2)
    as (s3 & -> & K3). cbn [bind].
  destruct (Each_keeps _ on_UnitMeta_repo_keeps (UnitMeta_repo d) s3)
    as (s4 & -> & K4). cbn [bind].
  destruct (Each_keeps _ on_UnitHeader_commitTime_keeps
              (UnitHeader_commitTime d) s4) as (s5 & -> & K5). cbn [bind].
  destruct (Each_titleHeading (UnitHeader_titleHeading d) s5)
    as (s6 & more6 & -> & R6 & I6 & H6). cbn [bind].
  assert (K : keeps st s5).
  { repeat (eapply keeps_trans; [eassumption|]). apply keeps_refl. }
  destruct K as (P5 & M5 & I5 & more5 & R5).
  assert (S : exists s7,
             (if legacy
              then Each on_SearchSnippet_synopsis (SearchSnippet_synopsis d) s6
              else Done s6) = Done s7 /\ keeps s6 s7).
  { destruct legacy.
    - apply (Each_keeps _ on_SearchSnippet_synopsis_keeps).
    - exists s6. split; [reflexivity|apply keeps_refl]. }
  destruct S as (s7 & -> & (_ & _ & I7 & more7 & R7)). cbn [bind].
  destruct (Each_on_img (UnitReadme_content_img d) s7)
    as (s8 & -> & R8 & L8).
  exists s8, (more5 ++ more6 ++ more7)%list.
  split; [reflexivity|]. split; [|split].
  - now rewrite R8, R7, R6, R5, !app_assoc.
  - rewrite L8. congruence.
  - intros Hne HF P M.
    apply in_or_app. right. apply in_or_app. left.
    apply H6; congruence.
Qed.

End DescribeProofs.

(** What [DescribePackage] returns: a record and no error, or no record and
    a list of errors that is not empty. *)
Lemma DescribePackage_variant_returns
      (clock : nat -> time.Time) (web : string -> response) (c : client)
      (legacy : bool) (req_Package : string) :
  exists r,
    DescribePackage_variant clock web c legacy req_Package = Done r
    /\ ((exists p, r = (Some p, None))
        \/ (exists errs, errs <> [] /\ r = (None, Some (mkErrorList errs)))).
Proof.
  unfold DescribePackage_variant.
  destruct (web _) as [d|code e|e].
  - destruct (DescribePackage_callbacks_spec clock c req_Package legacy d
                (mkDescribe (new_Package req_Package) [] O))
      as (st & more & -> & _). cbn [bind].
    eexists. split; [reflexivity|]. unfold finish.
    destruct (d_errs st) as [|e l]; [left; eauto|right].
    exists (e :: l). split; [discriminate|reflexivity].
  - eexists. split; [reflexivity|]. right.
    eexists. split; [|reflexivity]. discriminate.
  - eexists. split; [reflexivity|]. left. eexists. reflexivity.
Qed.

Lemma DescribePackage_violation
      (clock : nat -> time.Time) (web : string -> response) (c : client)
      (legacy : bool) (req_Package : string) (d : document) :
  web (baseURL c ++ "/" ++ req_Package) = Scraped d ->
  UnitHeader_titleHeading d <> [] ->
  Forall no_kind_label (UnitHeader_titleHeading d) ->
  (exists st,
      DescribePackage_callbacks clock c legacy req_Package d
        (mkDescribe (new_Package req_Package) [] O) = Done st
      /\ In (Errorf_IsPackage_false req_Package) (d_errs st)
      /\ List.length (Package_Images (d_p st))
         = List.length (UnitReadme_content_img d))
  /\ (exists errs,
         In (Errorf_IsPackage_false req_Package) errs
         /\ DescribePackage_variant clock web c legacy req_Package
            = Done (None, Some (mkErrorList errs))).
Proof.
  intros W Hne HF. unfold DescribePackage_variant. rewrite W.
  destruct (DescribePackage_callbacks_spec clock c req_Package legacy d
              (mkDescribe (new_Package req_Package) [] O))
    as (st & more & E & R & L & H).
  cbn [d_errs app] in R. specialize (H Hne HF eq_refl eq_refl).
  rewrite <- R in H. split.
  - exists st. repeat split; trivial.
  - exists (d_errs st). split; [exact H|]. rewrite E. cbn [bind].
    unfold finish. destruct (d_errs st); [contradiction|reflexivity].
Qed.

(** C7, amended.  When the scan that follows the title finds neither module
    nor package, the violation is appended to the error list and the callbacks
    that follow still run (the images of the readme are all collected); the
    error list being then not empty, [DescribePackage] returns it with a nil
    record.  In every case it returns a record and no error, or no record and
    a list of errors that is not empty: never a record together with errors.
    This holds of the current variant and of the legacy one. *)
Theorem DescribePackage_shape_violation_reported
        (clock : nat -> time.Time) (web : string -> response) (c : client)
        (legacy : bool) (req_Package : string) :
  (exists r,
      DescribePackage_variant clock web c legacy req_Package = Done r
      /\ ((exists p, r = (Some p, None))
          \/ (exists errs, errs <> [] /\ r = (None, Some (mkErrorList errs)))))
  /\ (forall d,
         web (baseURL c ++ "/" ++ req_Package) = Scraped d ->
         UnitHeader_titleHeading d <> [] ->
         Forall no_kind_label (UnitHeader_titleHeading d) ->
         (exists st,
             DescribePackage_callbacks clock c legacy req_Package d
               (mkDescribe (new_Package req_Package) [] O) = Done st
             /\ In (Errorf_IsPackage_false req_Package) (d_errs st)
             /\ List.length (Package_Images (d_p st))
                = List.length (UnitReadme_content_img d))
         /\ (exists errs,
                In (Errorf_IsPackage_false req_Package) errs
                /\ DescribePackage_variant clock web c legacy req_Package
                   = Done (None, Some (mkErrorList errs)))).
Proof.
  split.
  - apply DescribePackage_variant_returns.
  - intros d. apply DescribePackage_violation.
Qed.

Lemma DescribePackage_shape_violation_reported_witness :
  exists errs,
    In (Errorf_IsPackage_false "example.com/pkg") errs
    /\ client_DescribePackage example_clock (fun _ => Scraped shapeless_page)
                              New "example.com/pkg"
       = Done (None, Some (mkErrorList errs)).
Proof.
  apply (proj2 (DescribePackage_shape_violation_reported
                  example_clock (fun _ => Scraped shapeless_page) New false
                  "example.com/pkg") shapeless_page).
  - reflexivity.
  - discriminate.
  - repeat constructor; cbn; intros [H|[]]; discriminate H.
Defined.

(** C7, as stated, fails: on a page that is neither module nor package the
    record that [DescribePackage] returns is nil, and on no input does a
    record come together with errors. *)
Lemma DescribePackage_no_record_with_errors :
  client_DescribePackage example_clock (fun _ => Scraped shapeless_page)
                         New "example.com/pkg"
  = Done (None,
          Some (mkErrorList [Errorf_IsPackage_false "example.com/pkg"]))
  /\ ~ (exists clock web c req_Package p errs,
           client_DescribePackage clock web c req_Package
           = Done (Some p, Some errs)).
Proof.
  split; [vm_compute; reflexivity|].
  intros (clock & web & c & name & p & errs & H).
  destruct (DescribePackage_variant_returns clock web c false name)
    as (r & E & [[q ->]|(l & _ & ->)]);
    unfold client_DescribePackage in H; rewrite E in H; discriminate H.
Qed.

(** ** A repository URL that already has its scheme *)

Lemma has_prefix_app (p s : string) :
  strings.has_prefix p s = true -> exists r, s = p ++ r.
Proof.
  revert s. induction p as [|a p IH]; intros s H.
  - now exists s.
  - destruct s as [|b s]; [discriminate|]. cbn [strings.has_prefix] in H.
    apply andb_true_iff in H as [E H]. apply Ascii.eqb_eq in E. subst b.
    destruct (IH s H) as [r ->]. now exists r.
Qed.

Lemma strip_suffix_none (suf s : string) :
  strings.HasSuffix s suf = false -> strings.strip_suffix suf s = None.
Proof.
  induction s as [|c s IH]; cbn [strings.HasSuffix strings.strip_suffix];
    intros H; apply orb_false_iff in H as [E H]; rewrite E.
  - reflexivity.
  - now rewrite (IH H).
Qed.

Lemma normalizeRepoURL_https (r : string) :
  normalizeRepoURL ("https://" ++ r)
  = "https://https://" ++ strings.TrimSuffix r ".git".
Proof.
  unfold normalizeRepoURL.
  change (strings.HasPrefix ("https://" ++ r) "git@") with false. cbv iota.
  change (strings.HasSuffix ("https://" ++ r) ".git")
    with (strings.HasSuffix r ".git").
  replace (strings.TrimSuffix ("https://" ++ r) ".git")
    with ("https://" ++ strings.TrimSuffix r ".git")
    by (unfold strings.TrimSuffix;
        cbn [append strings.strip_suffix String.eqb Ascii.eqb Bool.eqb];
        now destruct (strings.strip_suffix ".git" r)).
  destruct (strings.HasSuffix r ".git") eqn:E; [reflexivity|].
  unfold strings.TrimSuffix. now rewrite (strip_suffix_none _ _ E).
Qed.

Lemma CTL_app (p b : string) :
  url.stringContainsCTLByte (p ++ b)
  = url.stringContainsCTLByte p || url.stringContainsCTLByte b.
Proof.
  induction p as [|c p IH]; [reflexivity|].
  cbn [append url.stringContainsCTLByte]. rewrite IH.
  now rewrite !orb_assoc.
Qed.

Lemma getScheme_https (b : string) :
  url.getScheme ("https://https://" ++ b) = inl ("https", "//https://" ++ b).
Proof. reflexivity. Qed.

Lemma query_split_https (b : string) :
  exists r3 force query,
    (if strings.HasSuffix ("//https://" ++ b) "?"
        && (strings.CountByte ("//https://" ++ b) "?" =? 1)%nat
     then (url.init ("//https://" ++ b), true, "")
     else let '(before, after, _) := strings.CutByte ("//https://" ++ b) "?" in
          (before, false, after))
    = ("//https://" ++ r3, force, query).
Proof.
  destruct (strings.HasSuffix ("//https://" ++ b) "?"
            && (strings.CountByte ("//https://" ++ b) "?" =? 1)%nat) eqn:E.
  - destruct b as [|x b]; [discriminate E|].
    now exists (url.init (String x b)), true, "".
  - cbn [append strings.CutByte Ascii.eqb Bool.eqb].
    destruct (strings.CutByte b "?") as [[before after] found].
    now exists before, false, after.
Qed.

Lemma parse_https_https (b : string) :
  match url.parse ("https://https://" ++ b) with
  | inl u => url.Host u = "https:"
  | inr _ => True
  end.
Proof.
  unfold url.parse.
  rewrite CTL_app.
  change (url.stringContainsCTLByte "https://https://") with false.
  cbn [orb].
  destruct (url.stringContainsCTLByte b); [exact I|].
  change (String.eqb ("https://https://" ++ b) "*") with false. cbv iota.
  rewrite getScheme_https.
  change (url.ToLower "https") with "https".
  destruct (query_split_https b) as (r3 & force & query & ->).
  change (strings.HasPrefix ("//https://" ++ r3) "/") with true.
  change (strings.HasPrefix ("//https://" ++ r3) "//") with true.
  change (String.eqb "https" "") with false.
  cbn [negb andb orb].
  change (strings.CutByte (strings.drop 2 ("//https://" ++ r3)) "/")
    with ("https:", String "/" r3, true).
  change (url.parseAuthority "https:") with (@inl string url.Error "https:").
  cbv iota.
  now destruct (url.unescape (String "/" (String "/" r3)) url.encodePath).
Qed.

Lemma CutByte_prefix (p s : string) (c : ascii) :
  strings.in_cutset p c = false ->
  strings.CutByte (p ++ s) c
  = let '(before, after, found) := strings.CutByte s c in
    (p ++ before, after, found).
Proof.
  induction p as [|a p IH]; intros H.
  - cbn [append]. now destruct (strings.CutByte s c) as [[x y] z].
  - rewrite in_cutset_cons in H. apply orb_false_iff in H as [Ha Hp].
    cbn [append strings.CutByte]. rewrite Ha, (IH Hp).
    now destruct (strings.CutByte s c) as [[x y] z].
Qed.

Lemma Parse_https_https (r : string) :
  match url.Parse ("https://https://" ++ r) with
  | inl u => url.Host u = "https:"
  | inr _ => True
  end.
Proof.
  unfold url.Parse.
  rewrite (CutByte_prefix "https://https://" r "#" eq_refl).
  destruct (strings.CutByte r "#") as [[u frag] found].
  pose proof (parse_https_https u) as H.
  destruct (url.parse ("https://https://" ++ u)) as [x|e]; [|exact I].
  destruct frag; [exact H|].
  now destruct (url.unescape _ url.encodeFragment).
Qed.

Lemma identifyGitHost_double_scheme (r : string) :
  identifyGitHost ("https://https://" ++ r) = GitHostUnknown.
Proof.
  unfold identifyGitHost.
  pose proof (Parse_https_https r) as H.
  destruct (url.Parse ("https://https://" ++ r)) as [u|e]; [|reflexivity].
  rewrite H. reflexivity.
Qed.

(** C9.  On every input that begins with [https://], [normalizeRepoURL]
    puts one more [https://] in front (after it has dropped a [.git]
    suffix); the host that [url.Parse] then reads is [https:], which names no
    known provider, so that [identifyGitHost] answers unknown and
    [fetchDescription] returns the empty string, whatever the site holds. *)
Theorem fetchDescription_scheme_qualified (web : string -> response)
        (repoURL : string) :
  strings.HasPrefix repoURL "https://" = true ->
  normalizeRepoURL repoURL = "https://" ++ strings.TrimSuffix repoURL ".git"
  /\ strings.HasPrefix (normalizeRepoURL repoURL) "https://https://" = true
  /\ identifyGitHost (normalizeRepoURL repoURL) = GitHostUnknown
  /\ fetchDescription web repoURL = "".
Proof.
  intros H. apply has_prefix_app in H as [r ->].
  assert (G : identifyGitHost (normalizeRepoURL ("https://" ++ r))
              = GitHostUnknown).
  { rewrite normalizeRepoURL_https. apply identifyGitHost_double_scheme. }
  repeat split.
  - rewrite normalizeRepoURL_https. unfold strings.TrimSuffix.
    cbn [append strings.strip_suffix String.eqb Ascii.eqb Bool.eqb].
    now destruct (strings.strip_suffix ".git" r).
  - now rewrite normalizeRepoURL_https.
  - exact G.
  - unfold fetchDescription.
    change (String.eqb ("https://" ++ r) "") with false. cbv iota.
    now rewrite G.
Qed.

Lemma fetchDescription_scheme_qualified_witness :
  normalizeRepoURL "https://github.com/user/repo"
  = "https://https://github.com/user/repo"
  /\ strings.HasPrefix (normalizeRepoURL "https://github.com/user/repo")
                       "https://https://" = true
  /\ identifyGitHost (normalizeRepoURL "https://github.com/user/repo")
     = GitHostUnknown
  /\ fetchDescription pages_of_three "https://github.com/user/repo" = "".
Proof.
  apply (fetchDescription_scheme_qualified
           pages_of_three "https://github.com/user/repo").
  reflexivity.
Defined.

(** Without the scheme, the same repository is recognised. *)
Example identifyGitHost_scheme_less :
  identifyGitHost (normalizeRepoURL "github.com/user/repo") = GitHostGitHub
  /\ identifyGitHost (normalizeRepoURL "git@gitlab.com:user/repo.git")
     = GitHostGitLab
  /\ identifyGitHost (normalizeRepoURL "codeberg.org/user/repo.git")
     = GitHostCodeberg
  /\ identifyGitHost (normalizeRepoURL "git.sr.ht/~user/repo")
     = GitHostSourcehut.
Proof. repeat split; vm_compute; reflexivity. Qed.

(** ** The calendar *)

Lemma isLeap_spec (y : Z) :
  time.isLeap y = true <-> (y mod 4 = 0 /\ (y mod 100 <> 0 \/ y mod 400 = 0)).
Proof.
  unfold time.isLeap.
  rewrite andb_true_iff, orb_true_iff, negb_true_iff, !Z.eqb_eq, Z.eqb_neq.
  tauto.
Qed.

Lemma absYear_spec (n : Z) :
  n = time.daysSinceEpoch (fst (time.absYear n)) + snd (time.absYear n)
  /\ 0 <= snd (time.absYear n)
     < (if time.isLeap (fst (time.absYear n)) then 366 else 365).
Proof.
  unfold time.absYear, time.daysSinceEpoch, time.daysPer400Years,
    time.daysPer100Years, time.daysPer4Years.
  cbn [fst snd]. rewrite !Z.shiftr_div_pow2 by lia.
  change (2 ^ 2) with 4. change (365 * 400 + 97) with 146097.
  change (365 * 100 + 24) with 36524. change (365 * 4 + 1) with 1461.
  destruct (time.isLeap _) eqn:L.
  - apply isLeap_spec in L. (split; [|split]); Z.div_mod_to_equations; lia.
  - apply not_true_iff_false in L. rewrite isLeap_spec in L.
    (split; [|split]); Z.div_mod_to_equations; lia.
Qed.

Lemma daysSinceEpoch_gap (y y' : Z) :
  y < y' ->
  time.daysSinceEpoch y + (if time.isLeap y then 366 else 365)
  <= time.daysSinceEpoch y'.
Proof.
  intros H.
  unfold time.daysSinceEpoch, time.daysPer400Years,
    time.daysPer100Years, time.daysPer4Years.
  change (365 * 400 + 97) with 146097.
  change (365 * 100 + 24) with 36524. change (365 * 4 + 1) with 1461.
  destruct (time.isLeap y) eqn:L.
  - apply isLeap_spec in L. Z.div_mod_to_equations; lia.
  - apply not_true_iff_false in L. rewrite isLeap_spec in L.
    Z.div_mod_to_equations; lia.
Qed.

Lemma absYear_daysSinceEpoch (y yd : Z) :
  0 <= yd < (if time.isLeap y then 366 else 365) ->
  time.absYear (time.daysSinceEpoch y + yd) = (y, yd).
Proof.
  intros H.
  destruct (absYear_spec (time.daysSinceEpoch y + yd)) as [E B].
  destruct (time.absYear (time.daysSinceEpoch y + yd)) as [y' yd'].
  cbn [fst snd] in *.
  assert (y' = y).
  { destruct (Z.lt_trichotomy y y') as [Lt|[Eq|Gt]]; [|now symmetry|].
    - pose proof (daysSinceEpoch_gap y y' Lt).
      destruct (time.isLeap y), (time.isLeap y'); lia.
    - pose proof (daysSinceEpoch_gap y' y Gt).
      destruct (time.isLeap y), (time.isLeap y'); lia. }
  subst y'. f_equal. lia.
Qed.

Lemma range_forallb (f : Z -> bool) (lo n : Z) :
  forallb f (range lo n) = true ->
  forall z, lo <= z < lo + n -> f z = true.
Proof.
  intros H z Hz. rewrite forallb_forall in H. apply H.
  unfold range. apply in_map_iff. exists (Z.to_nat (z - lo)). split; [lia|].
  apply in_seq. lia.
Qed.

Lemma monthDay_yday_of (leap : bool) (m d : Z) :
  1 <= m <= 12 -> 1 <= d <= month_length leap m ->
  time.monthDay leap (yday_of leap m d) = (m, d).
Proof.
  intros Hm Hd.
  assert (T : forallb (fun m => forallb (monthDay_ok leap m) (range 1 31))
                      (range 1 12) = true)
    by (destruct leap; vm_compute; reflexivity).
  assert (D : d <= 31).
  { unfold month_length in Hd.
    assert (M : m = 1 \/ m = 2 \/ m = 3 \/ m = 4 \/ m = 5 \/ m = 6 \/ m = 7
                \/ m = 8 \/ m = 9 \/ m = 10 \/ m = 11 \/ m = 12) by lia.
    destruct leap;
      repeat (destruct M as [->|M]; [cbn in Hd; lia|]); subst; cbn in Hd; lia. }
  pose proof (range_forallb _ 1 12 T m ltac:(lia)) as T1. cbv beta in T1.
  pose proof (range_forallb _ 1 31 T1 d ltac:(lia)) as T2.
  unfold monthDay_ok in T2.
  destruct (d <=? month_length leap m) eqn:L; [|apply Z.leb_gt in L; lia].
  cbn [negb orb] in T2.
  destruct (time.monthDay leap (yday_of leap m d)) as [m' d'].
  apply andb_true_iff in T2 as [A B].
  apply Z.eqb_eq in A, B. now subst.
Qed.

Lemma monthDay_bounds (leap : bool) (yd : Z) :
  0 <= yd < (if leap then 366 else 365) ->
  1 <= fst (time.monthDay leap yd) <= 12
  /\ 1 <= snd (time.monthDay leap yd) <= 31.
Proof.
  intros H.
  assert (T : forallb (monthDay_in_range leap)
                      (range 0 (if leap then 366 else 365)) = true)
    by (destruct leap; vm_compute; reflexivity).
  pose proof (range_forallb _ 0 _ T yd) as R.
  unfold monthDay_in_range in R.
  destruct (time.monthDay leap yd) as [m d]. cbn [fst snd].
  assert (G : (1 <=? m) && (m <=? 12) && (1 <=? d) && (d <=? 31) = true)
    by (apply R; destruct leap; lia).
  rewrite !andb_true_iff, !Z.leb_le in G. lia.
Qed.

Lemma yday_of_bounds (leap : bool) (m d : Z) :
  1 <= m <= 12 -> 1 <= d <= month_length leap m ->
  0 <= yday_of leap m d < (if leap then 366 else 365).
Proof.
  intros Hm Hd. unfold yday_of.
  assert (B : 0 <= time.daysBefore (m - 1)
                   + (if leap && (3 <=? m) then 1 else 0)
              /\ time.daysBefore (m - 1)
                 + (if leap && (3 <=? m) then 1 else 0)
                 + month_length leap m
                 <= (if leap then 366 else 365)).
  { clear Hd.
    assert (M : m = 1 \/ m = 2 \/ m = 3 \/ m = 4 \/ m = 5 \/ m = 6 \/ m = 7
                \/ m = 8 \/ m = 9 \/ m = 10 \/ m = 11 \/ m = 12) by lia.
    destruct leap;
      repeat (destruct M as [->|M]; [vm_compute; split; discriminate|]);
      subst; vm_compute; split; discriminate. }
  lia.
Qed.

(** A valid date is the midnight of its day count. *)
Lemma Date_valid (y m d : Z) :
  1 <= m <= 12 ->
  time.Date y m d 0 0 0 0
  = (time.daysSinceEpoch y + yday_of (time.isLeap y) m d) * time.nsPerDay.
Proof.
  intros Hm. unfold time.Date, time.norm, yday_of.
  rewrite (Z.div_small (m - 1) 12), (Z.mod_small (m - 1) 12) by lia.
  replace (y + 0) with y by lia. replace (m - 1 + 1) with m by lia.
  unfold time.nsPerDay, time.secondsPerDay, time.Second.
  destruct (time.isLeap y && (3 <=? m)); Z.div_mod_to_equations; lia.
Qed.

Lemma civil_Date (y m d : Z) :
  1 <= m <= 12 -> 1 <= d <= time.daysIn m y ->
  time.civil (time.Date y m d 0 0 0 0) = (y, m, d).
Proof.
  intros Hm Hd. rewrite (Date_valid y m d Hm). unfold time.civil.
  rewrite Z.div_mul by (unfold time.nsPerDay, time.secondsPerDay, time.Second; lia).
  change (time.daysIn m y) with (month_length (time.isLeap y) m) in Hd.
  rewrite absYear_daysSinceEpoch by (now apply yday_of_bounds).
  now rewrite monthDay_yday_of.
Qed.

Lemma civil_bounds (t : time.Time) :
  1 <= snd (fst (time.civil t)) <= 12 /\ 1 <= snd (time.civil t) <= 31.
Proof.
  unfold time.civil.
  destruct (absYear_spec (t / time.nsPerDay)) as [_ B].
  destruct (time.absYear (t / time.nsPerDay)) as [y yd]. cbn [fst snd] in B.
  pose proof (monthDay_bounds (time.isLeap y) yd B) as M.
  destruct (time.monthDay (time.isLeap y) yd) as [m d]. exact M.
Qed.

(** *** The digits of a date *)

Lemma digit_value_range (c : ascii) :
  isDigit c = true -> 0 <= digit_value c <= 9.
Proof.
  unfold isDigit, digit_value. rewrite andb_true_iff, !Nat.leb_le. lia.
Qed.

Lemma digit_char_isDigit (d : Z) :
  0 <= d < 10 -> isDigit (digit_char d) = true.
Proof.
  intros H.
  assert (D : d = 0 \/ d = 1 \/ d = 2 \/ d = 3 \/ d = 4 \/ d = 5 \/ d = 6
              \/ d = 7 \/ d = 8 \/ d = 9) by lia.
  repeat (destruct D as [->|D]; [reflexivity|]). now subst.
Qed.

Lemma utod_digits (fuel : nat) :
  forall u acc,
    all_bytes isDigit acc = true ->
    all_bytes isDigit (utod fuel u acc) = true.
Proof.
  induction fuel as [|fuel IH]; intros u acc H; [exact H|].
  cbn [utod].
  assert (A : all_bytes isDigit (String (digit_char (u mod 10)) acc) = true).
  { cbn [all_bytes]. rewrite H, andb_true_r.
    apply digit_char_isDigit. apply Z.mod_pos_bound. lia. }
  destruct (u <? 10); [exact A|]. now apply IH.
Qed.

(** A number below [10 ^ (k + 1)] has at most [k + 1] digits. *)
Lemma utod_length (fuel : nat) :
  forall k u acc,
    0 <= u < 10 ^ Z.of_nat (S k) ->
    (String.length (utod fuel u acc) <= String.length acc + S k)%nat.
Proof.
  induction fuel as [|fuel IH]; intros k u acc H; [cbn [utod]; lia|].
  cbn [utod]. destruct (u <? 10) eqn:U; [cbn [String.length]; lia|].
  apply Z.ltb_ge in U.
  destruct k as [|k]; [change (10 ^ Z.of_nat 1) with 10 in H; lia|].
  specialize (IH k (u / 10) (String (digit_char (u mod 10)) acc)).
  cbn [String.length] in IH.
  rewrite Nat2Z.inj_succ, Z.pow_succ_r in H by lia.
  assert (0 <= u / 10 < 10 ^ Z.of_nat (S k)).
  { split; [apply Z.div_pos; lia|]. apply Z.div_lt_upper_bound; lia. }
  specialize (IH H0). lia.
Qed.

Lemma length_zeros (n : nat) : String.length (time.zeros n) = n.
Proof. induction n as [|n IH]; cbn; congruence. Qed.

Lemma zeros_digits (n : nat) : all_bytes isDigit (time.zeros n) = true.
Proof. induction n as [|n IH]; [reflexivity|exact IH]. Qed.

Lemma all_bytes_app (P : ascii -> bool) (s t : string) :
  all_bytes P (s ++ t) = all_bytes P s && all_bytes P t.
Proof.
  induction s as [|c s IH]; [reflexivity|].
  cbn [append all_bytes]. now rewrite IH, andb_assoc.
Qed.

(** A number that is not negative and has at most [k + 1] digits is
    rendered with exactly [k + 1] digits when that is the width. *)
Lemma appendInt_digits (x : Z) (k : nat) :
  0 <= x < 10 ^ Z.of_nat (S k) ->
  String.length (time.appendInt x (S k)) = S k
  /\ all_bytes isDigit (time.appendInt x (S k)) = true.
Proof.
  intros H. unfold time.appendInt, decimal.
  replace (x <? 0) with false by (symmetry; apply Z.ltb_ge; lia).
  replace (Z.abs x) with x by lia.
  pose proof (utod_length (S (Z.to_nat (Z.log2 x))) k x "" H) as L.
  cbn [String.length] in L. cbn [append]. split.
  - rewrite length_app, length_zeros. lia.
  - now rewrite all_bytes_app, zeros_digits, utod_digits.
Qed.

Lemma appendInt_four (y : Z) :
  0 <= y <= 9999 -> four_digits (time.appendInt y 4) = true.
Proof.
  intros H. unfold four_digits.
  destruct (appendInt_digits y 3) as [-> ->]; [|reflexivity].
  change (10 ^ Z.of_nat 4) with 10000. lia.
Qed.

Lemma appendInt_two (x : Z) :
  0 <= x <= 99 -> two_digits (time.appendInt x 2) = true.
Proof.
  intros H. unfold two_digits.
  destruct (appendInt_digits x 1) as [-> ->]; [|reflexivity].
  change (10 ^ Z.of_nat 2) with 100. lia.
Qed.

Lemma Format_2006_01_02 (t : time.Time) :
  time.Format t time.layout_2006_01_02
  = time.appendInt (fst (fst (time.civil t))) 4 ++ "-"
    ++ time.appendInt (snd (fst (time.civil t))) 2 ++ "-"
    ++ time.appendInt (snd (time.civil t)) 2.
Proof.
  unfold time.Format. destruct (time.civil t) as [[y m] d].
  cbn [fold_right time.layout_2006_01_02 time.format_chunk fst snd].
  f_equal. cbn [append]. do 3 f_equal.
  generalize (time.appendInt d 2). intros s.
  induction s; cbn; congruence.
Qed.

Lemma canonical_pieces (Y M D : string) :
  four_digits Y = true -> two_digits M = true -> two_digits D = true ->
  is_canonical (Y ++ "-" ++ M ++ "-" ++ D) = true.
Proof.
  destruct Y as [|a [|b [|c [|d [|? ?]]]]]; try discriminate.
  destruct M as [|e [|f [|? ?]]]; try discriminate.
  destruct D as [|g [|h [|? ?]]]; try discriminate.
  unfold is_canonical.
  cbn [append strings.take strings.drop String.eqb Ascii.eqb Bool.eqb].
  intros -> -> ->. reflexivity.
Qed.

(** A date whose year has four digits is rendered in the canonical shape. *)
Lemma Format_canonical (t : time.Time) :
  0 <= time.Year t <= 9999 ->
  is_canonical (time.Format t time.layout_2006_01_02) = true.
Proof.
  intros H. unfold time.Year in H. rewrite Format_2006_01_02.
  destruct (civil_bounds t) as [M D].
  apply canonical_pieces.
  - apply appendInt_four. exact H.
  - apply appendInt_two. lia.
  - apply appendInt_two. lia.
Qed.

(** *** What [time.Parse] accepts *)

Lemma lookup_range (tab : list string) :
  forall i val j rest,
    time.lookup i tab val = Some (j, rest) ->
    i <= j < i + Z.of_nat (List.length tab).
Proof.
  induction tab as [|v tab IH]; intros i val j rest H; [discriminate|].
  cbn [time.lookup] in H. cbn [List.length].
  destruct (time.match_prefix v val).
  - injection H as <- _. lia.
  - apply IH in H. lia.
Qed.

Lemma getnum_range (s : string) (fixed : bool) (n : Z) (rest : string) :
  time.getnum s fixed = Some (n, rest) -> 0 <= n <= 99.
Proof.
  unfold time.getnum. destruct s as [|a r]; [discriminate|].
  destruct (isDigit a) eqn:A; [|discriminate].
  apply digit_value_range in A.
  destruct r as [|b r'].
  - destruct fixed; [discriminate|]. intros [= <- _]. lia.
  - destruct (isDigit b) eqn:B.
    + apply digit_value_range in B. intros [= <- _]. lia.
    + destruct fixed; [discriminate|]. intros [= <- _]. lia.
Qed.

Lemma getyear_range (value : string) (y : Z) (rest : string) :
  time.getyear value = (Some y, rest) -> 0 <= y <= 9999.
Proof.
  unfold time.getyear.
  destruct value as [|a [|b [|c [|d r]]]]; try discriminate.
  destruct (isDigit a) eqn:A; [|discriminate].
  destruct (isDigit b) eqn:B; [|discriminate].
  destruct (isDigit c) eqn:C; [|discriminate].
  destruct (isDigit d) eqn:D; [|discriminate].
  apply digit_value_range in A, B, C, D. cbn [andb]. intros [= <- _]. lia.
Qed.

(** A text that the layout [Jan 2, 2006] accepts is read as the midnight of
    a valid date of a year of four digits. *)
Lemma Parse_Jan_2_2006_valid (s : string) (t : time.Time) :
  time.Parse time.layout_Jan_2_2006 s = inl t ->
  exists y m d,
    t = time.Date y m d 0 0 0 0
    /\ 0 <= y <= 9999 /\ 1 <= m <= 12 /\ 1 <= d <= time.daysIn m y.
Proof.
  unfold time.Parse, time.layout_Jan_2_2006. cbn [time.parse_chunks].
  destruct (time.lookup 0 time.shortMonthNames s) as [[i v1]|] eqn:L;
    [|discriminate].
  apply lookup_range in L. cbn [List.length time.shortMonthNames] in L.
  destruct (time.skip v1 " ") as [v2 []]; [|discriminate].
  destruct (time.getnum v2 false) as [[d v3]|] eqn:G; [|discriminate].
  apply getnum_range in G.
  destruct (time.skip v3 ", ") as [v4 []]; [|discriminate].
  destruct (time.getyear v4) as [[y|] v5] eqn:Y; [|discriminate].
  apply getyear_range in Y.
  destruct v5; [|discriminate].
  replace (i + 1 <? 0) with false by (symmetry; apply Z.ltb_ge; lia).
  replace (d <? 0) with false by (symmetry; apply Z.ltb_ge; lia).
  destruct ((d <? 1) || (time.daysIn (i + 1) y <? d)) eqn:V; [discriminate|].
  apply orb_false_iff in V as [V1 V2]. apply Z.ltb_ge in V1, V2.
  intros [= <-]. exists y, (i + 1), d. repeat split; lia.
Qed.

Lemma Parse_Format_canonical (s : string) (t : time.Time) :
  time.Parse time.layout_Jan_2_2006 s = inl t ->
  is_canonical (time.Format t time.layout_2006_01_02) = true.
Proof.
  intros H. apply Parse_Jan_2_2006_valid in H as (y & m & d & -> & Hy & Hm & Hd).
  apply Format_canonical. unfold time.Year.
  now rewrite civil_Date.
Qed.

(** *** The arithmetic of the relative dates *)

Lemma wrap64_small (z : Z) : - 2 ^ 63 <= z < 2 ^ 63 -> wrap64 z = z.
Proof. intros H. unfold wrap64. rewrite Z.mod_small; lia. Qed.

Lemma hours_do_not_wrap (n : Z) :
  Z.abs n <= 2562047 -> wrap64 (wrap64 (- n) * time.Hour) = - (n * time.Hour).
Proof.
  intros H. unfold time.Hour, time.Second.
  rewrite (wrap64_small (- n)) by lia. rewrite wrap64_small; lia.
Qed.

(** *** The bytes of a rendered date *)

Lemma all_bytes_weaken (P Q : ascii -> bool) (s : string) :
  (forall c, P c = true -> Q c = true) ->
  all_bytes P s = true -> all_bytes Q s = true.
Proof.
  intros PQ. induction s as [|c s IH]; [reflexivity|].
  cbn [all_bytes]. rewrite !andb_true_iff. intros [Hc Hs]. auto.
Qed.

Lemma appendInt_date_bytes (x : Z) (width : nat) :
  all_bytes date_byte (time.appendInt x width) = true.
Proof.
  assert (D : forall s, all_bytes isDigit s = true ->
                        all_bytes date_byte s = true).
  { intros s. apply all_bytes_weaken. intros c Hc. unfold date_byte.
    now rewrite Hc. }
  unfold time.appendInt, decimal.
  rewrite !all_bytes_app, (D _ (zeros_digits _)),
    (D _ (utod_digits _ _ "" eq_refl)).
  now destruct (x <? 0).
Qed.

Lemma Format_date_bytes (t : time.Time) :
  all_bytes date_byte (time.Format t time.layout_2006_01_02) = true.
Proof.
  rewrite Format_2006_01_02, !all_bytes_app, !appendInt_date_bytes.
  reflexivity.
Qed.

(** No name of a month starts with a digit or a hyphen. *)
Lemma lookup_date_byte (c : ascii) (s : string) :
  date_byte c = true ->
  time.lookup 0 time.shortMonthNames (String c s) = None.
Proof.
  intros H.
  destruct c as [[] [] [] [] [] [] [] []]; try discriminate H; reflexivity.
Qed.

(** A text of digits and hyphens goes to the absolute branch, where the name
    of a month is looked for and not found. *)
Lemma normalizeTime_rejects_date_bytes (now : time.Time) (s : string) :
  all_bytes date_byte s = true ->
  normalizeTime now s
  = Done ("", Some (Errorf_parsing_date s
                      (ParseError (time.mkParseError "Jan 2, 2006" s "Jan" s
                                                     time.BadValue)))).
Proof.
  intros H. unfold normalizeTime.
  destruct (String.eqb_spec s "today") as [->|_]; [discriminate H|].
  destruct (strings.Contains s "ago") eqn:A.
  { apply Contains_first_byte in A.
    now rewrite (all_bytes_not_in date_byte s "a" H eq_refl) in A. }
  unfold time.Parse, time.layout_Jan_2_2006. cbn [time.parse_chunks].
  destruct s as [|c s]; [reflexivity|].
  cbn [all_bytes] in H. apply andb_true_iff in H as [Hc _].
  now rewrite (lookup_date_byte c s Hc).
Qed.

(** What a call that succeeds returns is a rendered date. *)
Lemma normalizeTime_success (now : time.Time) (s out : string) :
  normalizeTime now s = Done (out, None) ->
  exists t, out = time.Format t time.layout_2006_01_02.
Proof.
  unfold normalizeTime.
  destruct (String.eqb s "today"); [intros [= <-]; eauto|].
  destruct (strings.Contains s "ago").
  - destruct (index _ 0); [|discriminate]. cbn [bind].
    destruct (strconv.ParseInt a) as [n [e|]]; [discriminate|].
    destruct (index _ 1); [|discriminate]. cbn [bind].
    repeat match goal with
           | |- context [if ?b then _ else _] => destruct b
           end; intros [= <-]; eauto.
  - destruct (time.Parse _ s); intros [= <-]. eauto.
Qed.

(** *** The branches of [normalizeTime] *)

Lemma normalizeTime_today (now : time.Time) :
  normalizeTime now "today"
  = Done (time.Format now time.layout_2006_01_02, None).
Proof. reflexivity. Qed.

Lemma normalizeTime_bad_quantity (now : time.Time) (s q : string)
      (rest : list string) (v : Z) (e : strconv.NumError) :
  s <> "today" -> strings.Contains s "ago" = true ->
  strings.Split s " " = q :: rest ->
  strconv.ParseInt q = (v, Some e) ->
  normalizeTime now s
  = Done ("", Some (Errorf_parsing_quantity q s (NumError e))).
Proof.
  intros Ht Ha Hs Hq. unfold normalizeTime.
  apply String.eqb_neq in Ht. rewrite Ht, Ha, Hs.
  cbn [index nth_error bind]. now rewrite Hq.
Qed.

Lemma normalizeTime_relative (now : time.Time) (s q field : string)
      (rest : list string) (n : Z) :
  s <> "today" -> strings.Contains s "ago" = true ->
  strings.Split s " " = q :: field :: rest ->
  strconv.ParseInt q = (n, None) ->
  normalizeTime now s
  = let unit := strings.TrimSuffix field "s" in
    if String.eqb unit "hour" then
      Done (time.Format (time.Add now (wrap64 (wrap64 (- n) * time.Hour)))
                        time.layout_2006_01_02, None)
    else if String.eqb unit "day" then
      Done (time.Format (time.AddDate now 0 0 (wrap64 (- n)))
                        time.layout_2006_01_02, None)
    else if String.eqb unit "week" then
      Done (time.Format (time.AddDate now 0 0 (wrap64 (-7 * n)))
                        time.layout_2006_01_02, None)
    else Done ("", Some (Errorf_unknown_quantity q s)).
Proof.
  intros Ht Ha Hs Hq. unfold normalizeTime.
  apply String.eqb_neq in Ht. rewrite Ht, Ha, Hs.
  cbn [index nth_error bind]. now rewrite Hq.
Qed.

Lemma normalizeTime_absolute (now : time.Time) (s : string) :
  s <> "today" -> strings.Contains s "ago" = false ->
  normalizeTime now s
  = match time.Parse time.layout_Jan_2_2006 s with
    | inr err => Done ("", Some (Errorf_parsing_date s (ParseError err)))
    | inl d => Done (time.Format d time.layout_2006_01_02, None)
    end.
Proof.
  intros Ht Ha. unfold normalizeTime.
  apply String.eqb_neq in Ht. now rewrite Ht, Ha.
Qed.

Lemma normalizeTime_atomic (now : time.Time) (s : string) :
  exists out err,
    normalizeTime now s = Done (out, err)
    /\ (err <> None -> out = "")
    /\ (err = None -> exists t, out = time.Format t time.layout_2006_01_02).
Proof.
  destruct (normalizeTime_total now s) as (out & err & E).
  exists out, err. split; [exact E|]. split.
  - intros Herr. revert E. unfold normalizeTime.
    destruct (String.eqb s "today"); [intros [= <- <-]; congruence|].
    destruct (strings.Contains s "ago").
    + destruct (index _ 0); [|discriminate]. cbn [bind].
      destruct (strconv.ParseInt a) as [n [e|]]; [now intros [= <- _]|].
      destruct (index _ 1); [|discriminate]. cbn [bind].
      repeat match goal with
             | |- context [if ?b then _ else _] => destruct b
             end; intros [= <- <-]; congruence.
    + destruct (time.Parse _ s); intros [= <- <-]; congruence.
  - intros ->. now apply (normalizeTime_success now s).
Qed.

(** C4, amended.  [normalizeTime] returns on every input.  [today] gives the
    current date.  A text other than [today] that holds [ago] anywhere is cut
    at its spaces: when the first token is no 64-bit integer the result is a
    fatal error; otherwise, [N] being that integer and the unit the second
    token less one final [s], the units [hour], [day] and [week] give, for
    [N] of at most 2562047 in absolute value, the current instant less [N]
    hours, [N] calendar days and [7 N] calendar days, and any other unit is a
    fatal error; what follows the second token is not looked at.  A text
    without [ago] is read as an absolute date of the layout [Jan 2, 2006], or
    is a fatal error.  A failure returns the empty string; a success returns
    the date rendered year-month-day, which has the shape [YYYY-MM-DD]
    whenever its year lies in [0, 9999], as every absolute date does. *)
Theorem normalizeTime_contract_amended (now : time.Time) :
  normalizeTime now "today"
  = Done (time.Format now time.layout_2006_01_02, None)
  /\ (forall s q rest v e,
         s <> "today" -> strings.Contains s "ago" = true ->
         strings.Split s " " = q :: rest ->
         strconv.ParseInt q = (v, Some e) ->
         normalizeTime now s
         = Done ("", Some (Errorf_parsing_quantity q s (NumError e))))
  /\ (forall s q rest n,
         s <> "today" -> strings.Contains s "ago" = true ->
         strings.Split s " " = q :: rest ->
         strconv.ParseInt q = (n, None) ->
         exists field rest',
           rest = field :: rest'
           /\ let unit := strings.TrimSuffix field "s" in
              (unit = "hour" -> Z.abs n <= 2562047 ->
               normalizeTime now s
               = Done (time.Format (time.Add now (- (n * time.Hour)))
                                   time.layout_2006_01_02, None))
              /\ (unit = "day" -> Z.abs n <= 2562047 ->
                  normalizeTime now s
                  = Done (time.Format (time.AddDate now 0 0 (- n))
                                      time.layout_2006_01_02, None))
              /\ (unit = "week" -> Z.abs n <= 2562047 ->
                  normalizeTime now s
                  = Done (time.Format (time.AddDate now 0 0 (- (7 * n)))
                                      time.layout_2006_01_02, None))
              /\ (unit <> "hour" -> unit <> "day" -> unit <> "week" ->
                  normalizeTime now s
                  = Done ("", Some (Errorf_unknown_quantity q s))))
  /\ (forall s,
         s <> "today" -> strings.Contains s "ago" = false ->
         match time.Parse time.layout_Jan_2_2006 s with
         | inl d =>
             normalizeTime now s
             = Done (time.Format d time.layout_2006_01_02, None)
             /\ is_canonical (time.Format d time.layout_2006_01_02) = true
         | inr err =>
             normalizeTime now s
             = Done ("", Some (Errorf_parsing_date s (ParseError err)))
         end)
  /\ (forall s, exists out err,
         normalizeTime now s = Done (out, err)
         /\ (err <> None -> out = "")
         /\ (err = None ->
             exists t, out = time.Format t time.layout_2006_01_02))
  /\ (forall t,
         0 <= time.Year t <= 9999 ->
         is_canonical (time.Format t time.layout_2006_01_02) = true).
Proof.
  split; [reflexivity|].
  split; [intros s q rest v e; apply normalizeTime_bad_quantity|].
  split.
  { intros s q rest n Ht Ha Hs Hq.
    destruct (ago_second_token s Ha q rest n Hs Hq) as (field & rest' & ->).
    exists field, rest'. split; [reflexivity|].
    pose proof (normalizeTime_relative now s q field rest' n Ht Ha Hs Hq) as E.
    cbv zeta in *. repeat split.
    - intros U B. rewrite E, U. cbn [String.eqb Ascii.eqb Bool.eqb].
      now rewrite hours_do_not_wrap.
    - intros U B. rewrite E, U. cbn [String.eqb Ascii.eqb Bool.eqb].
      rewrite wrap64_small; [reflexivity|lia].
    - intros U B. rewrite E, U. cbn [String.eqb Ascii.eqb Bool.eqb].
      replace (-7 * n) with (- (7 * n)) by lia.
      rewrite wrap64_small; [reflexivity|lia].
    - intros U1 U2 U3. rewrite E.
      apply String.eqb_neq in U1, U2, U3. now rewrite U1, U2, U3. }
  split.
  { intros s Ht Ha. rewrite (normalizeTime_absolute now s Ht Ha).
    destruct (time.Parse time.layout_Jan_2_2006 s) as [d|err] eqn:P;
      [|reflexivity].
    split; [reflexivity|]. now apply (Parse_Format_canonical s). }
  split; [apply normalizeTime_atomic|apply Format_canonical].
Qed.

Lemma normalizeTime_contract_amended_witness :
  normalizeTime (example_clock 0) "3 days ago" = Done ("2024-01-12", None)
  /\ normalizeTime (example_clock 0) "2 weeks ago" = Done ("2024-01-01", None)
  /\ normalizeTime (example_clock 0) "13 hours ago" = Done ("2024-01-14", None)
  /\ normalizeTime (example_clock 0) "5 fortnights ago"
     = Done ("", Some (Errorf_unknown_quantity "5" "5 fortnights ago"))
  /\ normalizeTime (example_clock 0) "Jan 2, 2006" = Done ("2006-01-02", None)
  /\ is_canonical "2006-01-02" = true.
Proof.
  pose proof (normalizeTime_contract_amended (example_clock 0))
    as (_ & _ & R & A & _ & _).
  split; [|split; [|split; [|split]]].
  - destruct (R "3 days ago" "3" ["days"; "ago"] 3) as (f & r & E & _ & H & _);
      [discriminate|reflexivity|reflexivity|reflexivity|].
    injection E as <- <-. apply H; [reflexivity|cbn; lia].
  - destruct (R "2 weeks ago" "2" ["weeks"; "ago"] 2)
      as (f & r & E & _ & _ & H & _);
      [discriminate|reflexivity|reflexivity|reflexivity|].
    injection E as <- <-. apply H; [reflexivity|cbn; lia].
  - destruct (R "13 hours ago" "13" ["hours"; "ago"] 13)
      as (f & r & E & H & _);
      [discriminate|reflexivity|reflexivity|reflexivity|].
    injection E as <- <-. apply H; [reflexivity|cbn; lia].
  - destruct (R "5 fortnights ago" "5" ["fortnights"; "ago"] 5)
      as (f & r & E & _ & _ & _ & H);
      [discriminate|reflexivity|reflexivity|reflexivity|].
    injection E as <- <-. apply H; discriminate.
  - apply (A "Jan 2, 2006"); [discriminate|reflexivity].
Defined.

(** C4, as stated, fails on three inputs.  Three million hours overflow the
    nanoseconds of a duration, and the date returned lies in the future; a
    text that holds [ago] in a word and is no phrase of the contract is
    accepted; and a date far enough in the past is not rendered in the shape
    [YYYY-MM-DD]. *)
Lemma normalizeTime_breaks_contract :
  (normalizeTime (example_clock 0) "3000000 hours ago"
   = Done ("2266-05-10", None)
   /\ normalizeTime_contract (example_clock 0) "3000000 hours ago"
      = Some "1681-10-19")
  /\ (normalizeTime (example_clock 0) "3 days in Chicago"
      = Done ("2024-01-12", None)
      /\ normalizeTime_contract (example_clock 0) "3 days in Chicago" = None)
  /\ (normalizeTime (example_clock 0) "3000000 days ago"
      = Done ("-6190-04-27", None)
      /\ is_canonical "-6190-04-27" = false).
Proof. repeat split; vm_compute; reflexivity. Qed.

(** C5, amended.  A date that [normalizeTime] has returned, fed back to it,
    goes to the absolute branch and fails there: the layout [Jan 2, 2006]
    wants the name of a month where the canonical string has its year, and
    the result is the empty string with a parse error. *)
Theorem normalizeTime_rejects_its_output (now now' : time.Time)
        (s out : string) :
  normalizeTime now s = Done (out, None) ->
  out <> "today"
  /\ strings.Contains out "ago" = false
  /\ normalizeTime now' out
     = Done ("", Some (Errorf_parsing_date out
                         (ParseError (time.mkParseError "Jan 2, 2006" out "Jan"
                                                        out time.BadValue)))).
Proof.
  intros H. apply normalizeTime_success in H as [t ->].
  pose proof (Format_date_bytes t) as B.
  repeat split.
  - intros E. rewrite E in B. discriminate B.
  - destruct (strings.Contains _ "ago") eqn:A; [|reflexivity].
    apply Contains_first_byte in A.
    now rewrite (all_bytes_not_in date_byte _ "a" B eq_refl) in A.
  - now apply normalizeTime_rejects_date_bytes.
Qed.

Lemma normalizeTime_rejects_its_output_witness :
  normalizeTime (example_clock 1) "2006-01-02"
  = Done ("", Some (Errorf_parsing_date "2006-01-02"
                      (ParseError (time.mkParseError "Jan 2, 2006" "2006-01-02"
                                     "Jan" "2006-01-02" time.BadValue)))).
Proof.
  apply (normalizeTime_rejects_its_output
           (example_clock 0) (example_clock 1) "Jan 2, 2006" "2006-01-02").
  vm_compute. reflexivity.
Defined.

(** C5, as stated, fails on the canonical date of the layout itself. *)
Lemma normalizeTime_no_round_trip :
  normalizeTime (example_clock 0) "Jan 2, 2006" = Done ("2006-01-02", None)
  /\ is_canonical "2006-01-02" = true
  /\ normalizeTime (example_clock 0) "2006-01-02"
     <> Done ("2006-01-02", None).
Proof.
  split; [vm_compute; reflexivity|]. split; [reflexivity|].
  vm_compute. discriminate.
Qed.

(** Every string of the canonical shape is rejected in the same way. *)
Lemma normalizeTime_rejects_canonical (now : time.Time) (s : string) :
  is_canonical s = true ->
  normalizeTime now s
  = Done ("", Some (Errorf_parsing_date s
                      (ParseError (time.mkParseError "Jan 2, 2006" s "Jan" s
                                                     time.BadValue)))).
Proof.
  intros H. apply normalizeTime_rejects_date_bytes.
  assert (short : forall u, is_canonical u = true ->
                            String.length u = 10%nat).
  { intros u Hu. unfold is_canonical in Hu.
    rewrite !andb_true_iff in Hu. destruct Hu as [[[[A _] _] _] B].
    unfold four_digits, two_digits in *.
    apply andb_true_iff in A as [A _]. apply andb_true_iff in B as [B _].
    destruct u as [|? [|? [|? [|? [|? [|? [|? [|? w]]]]]]]];
      try discriminate A; cbn [strings.drop] in B; try discriminate B.
    destruct w as [|? [|? [|? ?]]]; try discriminate B. reflexivity. }
  pose proof (short s H) as L.
  destruct s as [|a [|b [|c [|d [|h [|e [|f [|i [|g [|j [|x s]]]]]]]]]]];
    try discriminate L.
  unfold is_canonical, four_digits, two_digits in H.
  cbn [strings.take strings.drop String.eqb String.length Nat.eqb all_bytes
       andb] in H.
  rewrite !andb_true_iff in H.
  destruct H as [[[[[A [B [C [D _]]]] H1] [E [F _]]] H2] [G [J _]]].
  destruct (Ascii.eqb h "-") eqn:Hh; [|discriminate H1].
  destruct (Ascii.eqb i "-") eqn:Hi; [|discriminate H2].
  unfold date_byte. cbn [all_bytes].
  now rewrite A, B, C, D, E, F, G, J, Hh, Hi, !orb_true_r.
Qed.

(** ** Further properties of the client *)

(** *** Trimmed text *)

Lemma append_empty_r (s : string) : s ++ "" = s.
Proof.
  induction s as [|c s IH]; [reflexivity|]. cbn [append]. now rewrite IH.
Qed.

Lemma append_assoc_r (a b c : string) : (a ++ b) ++ c = a ++ (b ++ c).
Proof.
  induction a as [|x a IH]; [reflexivity|]. cbn [append]. now rewrite IH.
Qed.

Lemma strings_rev_app (a b : string) :
  strings.rev (a ++ b) = strings.rev b ++ strings.rev a.
Proof.
  induction a as [|x a IH]; cbn [append strings.rev].
  - now rewrite append_empty_r.
  - now rewrite IH, append_assoc_r.
Qed.

Lemma strings_rev_involutive (s : string) : strings.rev (strings.rev s) = s.
Proof.
  induction s as [|c s IH]; [reflexivity|].
  cbn [strings.rev]. rewrite strings_rev_app, IH. reflexivity.
Qed.

Lemma trim_spaces_suffix (width : string -> nat) (s : string) :
  forall skip, exists pre, s = pre ++ strings.trim_spaces width skip s.
Proof.
  induction s as [|c s IH]; intros skip.
  - now exists "".
  - cbn [strings.trim_spaces]. destruct skip as [|k].
    + destruct (width (String c s)) as [|k].
      * now exists "".
      * destruct (IH k) as [pre E]. exists (String c pre).
        cbn [append]. now rewrite <- E.
    + destruct (IH k) as [pre E]. exists (String c pre).
      cbn [append]. now rewrite <- E.
Qed.

Lemma trim_spaces_trimmed (width : string -> nat) (s : string) :
  forall skip,
    strings.trim_spaces width skip s = ""
    \/ width (strings.trim_spaces width skip s) = O.
Proof.
  induction s as [|c s IH]; intros skip.
  - now left.
  - cbn [strings.trim_spaces]. destruct skip as [|k]; [|apply IH].
    destruct (width (String c s)) as [|k] eqn:W; [now right|apply IH].
Qed.

Lemma trim_spaces_fixed (width : string -> nat) (s : string) :
  s = "" \/ width s = O -> strings.trim_spaces width O s = s.
Proof.
  intros [->|W]; [reflexivity|].
  destruct s as [|c s]; [reflexivity|].
  cbn [strings.trim_spaces]. now rewrite W.
Qed.

Lemma space_width_app (p q : string) :
  strings.space_width (p ++ q) = O -> strings.space_width p = O.
Proof.
  destruct p as [|a [|b [|c p]]]; cbn [append strings.space_width].
  - reflexivity.
  - destruct (strings.ascii_space (code a)); [discriminate|reflexivity].
  - destruct (strings.ascii_space (code a)); [discriminate|].
    destruct q; [trivial|].
    destruct ((code a =? 194)%nat
              && ((code b =? 133)%nat || (code b =? 160)%nat));
      [discriminate|reflexivity].
  - trivial.
Qed.

(** Trimming what is trimmed changes nothing. *)
Lemma TrimSpace_idempotent (s : string) :
  strings.TrimSpace (strings.TrimSpace s) = strings.TrimSpace s.
Proof.
  unfold strings.TrimSpace at 2.
  set (u := strings.trim_spaces strings.space_width O s).
  set (t := strings.trim_spaces strings.space_width_rev O (strings.rev u)).
  destruct (trim_spaces_suffix strings.space_width_rev (strings.rev u) O)
    as [pre E]. fold t in E.
  assert (U : u = strings.rev t ++ strings.rev pre).
  { rewrite <- strings_rev_app, <- E. now rewrite strings_rev_involutive. }
  unfold strings.TrimSpace.
  assert (W : strings.trim_spaces strings.space_width O (strings.rev t)
              = strings.rev t).
  { apply trim_spaces_fixed.
    destruct (trim_spaces_trimmed strings.space_width s O) as [Z|Z];
      fold u in Z.
    - left. rewrite U in Z.
      destruct (strings.rev t); [reflexivity|discriminate].
    - right. rewrite U in Z. now apply space_width_app in Z. }
  rewrite W, strings_rev_involutive.
  rewrite trim_spaces_fixed; [reflexivity|].
  apply trim_spaces_trimmed.
Qed.

(** *** The first text that a rule accepts *)

Lemma first_accepted_kept (accept : string -> string) (texts : list string)
      (acc : string) :
  acc <> "" ->
  fold_left (fun description text =>
               if String.eqb description "" then accept text else description)
            texts acc = acc.
Proof.
  revert acc. induction texts as [|t texts IH]; intros acc H; [reflexivity|].
  cbn [fold_left]. apply String.eqb_neq in H. rewrite H.
  apply IH. now apply String.eqb_neq.
Qed.

(** The first text that the rule accepts decides; the texts before it are
    rejected, the texts after it are not looked at. *)
Lemma first_accepted_first (accept : string -> string)
      (rejected : list string) (t : string) (rest : list string) :
  Forall (fun x => accept x = "") rejected ->
  accept t <> "" ->
  first_accepted accept (rejected ++ t :: rest) = accept t.
Proof.
  unfold first_accepted. intros R A.
  induction R as [|x l Hx R IH]; cbn [app fold_left String.eqb].
  - now apply first_accepted_kept.
  - rewrite Hx. exact IH.
Qed.

Lemma first_accepted_none (accept : string -> string) (texts : list string) :
  Forall (fun x => accept x = "") texts ->
  first_accepted accept texts = "".
Proof.
  unfold first_accepted. intros R.
  induction R as [|x l Hx R IH]; cbn [fold_left String.eqb]; [reflexivity|].
  rewrite Hx. exact IH.
Qed.

Lemma first_accepted_cases (accept : string -> string) (texts : list string) :
  first_accepted accept texts = ""
  \/ exists rejected t rest,
       texts = (rejected ++ t :: rest)%list
       /\ Forall (fun x => accept x = "") rejected
       /\ accept t <> ""
       /\ first_accepted accept texts = accept t.
Proof.
  induction texts as [|x l IH].
  - now left.
  - destruct (String.eqb_spec (accept x) "") as [E|N].
    + destruct IH as [IH|(rj & t & rest & -> & R & A & F)].
      * left. unfold first_accepted in *. cbn [fold_left String.eqb].
        now rewrite E.
      * right. exists (x :: rj), t, rest. repeat split; trivial.
        -- now constructor.
        -- now apply (first_accepted_first accept (x :: rj)); [constructor|].
    + right. exists [], x, l. repeat split; trivial.
      now apply (first_accepted_first accept []).
Qed.

Lemma TrimSpace_empty : strings.TrimSpace "" = "".
Proof. reflexivity. Qed.

(** *** The URL of a repository on a known host *)

Lemma plain_no_CTL (s : string) :
  plain s = true -> url.stringContainsCTLByte s = false.
Proof.
  unfold plain. induction s as [|c s IH]; [reflexivity|].
  cbn [all_bytes url.stringContainsCTLByte]. unfold plain_byte at 1.
  rewrite !andb_true_iff, negb_true_iff. intros [[H _] Hs].
  rewrite H. now apply IH.
Qed.

Lemma unescape_cons (c : ascii) (s : string) (mode : url.encoding) :
  Ascii.eqb c "%" = false ->
  url.unescape (String c s) mode
  = if url.is_host_mode mode && (code c <? 128)%nat && url.shouldEscapeHost c
    then inr (url.InvalidHostError (String c EmptyString))
    else match url.unescape s mode with
         | inl t => inl (String c t)
         | inr e => inr e
         end.
Proof.
  destruct c as [[] [] [] [] [] [] [] []]; intros H;
    try discriminate H; reflexivity.
Qed.

Lemma unescape_plain (s : string) (mode : url.encoding) :
  url.is_host_mode mode = false -> plain s = true ->
  url.unescape s mode = inl s.
Proof.
  intros M. unfold plain. induction s as [|c s IH]; [reflexivity|].
  cbn [all_bytes]. unfold plain_byte at 1.
  rewrite !andb_true_iff, !negb_true_iff. intros [[_ P] Hs].
  rewrite (unescape_cons c s mode P), M. cbn [andb].
  now rewrite (IH Hs).
Qed.

Lemma CutByte_all_bytes (P : ascii -> bool) (s : string) (c : ascii) :
  all_bytes P s = true ->
  all_bytes P (fst (fst (strings.CutByte s c))) = true
  /\ all_bytes P (snd (fst (strings.CutByte s c))) = true.
Proof.
  induction s as [|b s IH]; [now split|].
  cbn [all_bytes strings.CutByte]. rewrite andb_true_iff. intros [Hb Hs].
  destruct (Ascii.eqb b c); [now split|].
  destruct (IH Hs) as [H1 H2].
  destruct (strings.CutByte s c) as [[x y] z]. cbn [fst snd all_bytes] in *.
  now rewrite Hb, H1, H2.
Qed.

Lemma init_app (p : string) (c : ascii) (s : string) :
  url.init (p ++ String c s) = p ++ url.init (String c s).
Proof.
  induction p as [|x p IH]; [reflexivity|].
  cbn [append]. rewrite <- IH.
  destruct p; reflexivity.
Qed.

Lemma all_bytes_init (P : ascii -> bool) (s : string) :
  all_bytes P s = true -> all_bytes P (url.init s) = true.
Proof.
  induction s as [|c s IH]; [reflexivity|].
  cbn [all_bytes]. rewrite andb_true_iff. intros [Hc Hs].
  destruct s as [|d s]; [reflexivity|].
  change (url.init (String c (String d s)))
    with (String c (url.init (String d s))).
  cbn [all_bytes]. rewrite Hc. now apply IH.
Qed.

Section KnownHost.

Variable h : string.
Hypothesis h_no_CTL : url.stringContainsCTLByte h = false.
Hypothesis h_no_hash : strings.in_cutset h "#" = false.
Hypothesis h_no_query : strings.in_cutset h "?" = false.
Hypothesis h_no_slash : strings.in_cutset h "/" = false.
Hypothesis h_authority : url.parseAuthority h = inl h.

(** What is left of [//h/b] once its query is cut off. *)
Lemma query_split_host (b : string) :
  plain b = true ->
  exists z force query,
    (if strings.HasSuffix ("//" ++ h ++ String "/" b) "?"
        && (strings.CountByte ("//" ++ h ++ String "/" b) "?" =? 1)%nat
     then (url.init ("//" ++ h ++ String "/" b), true, "")
     else let '(before, after, _) :=
            strings.CutByte ("//" ++ h ++ String "/" b) "?" in
          (before, false, after))
    = ("//" ++ h ++ z, force, query)
    /\ (z = "" \/ exists r3, z = String "/" r3 /\ plain r3 = true).
Proof.
  intros Hb.
  destruct (strings.HasSuffix ("//" ++ h ++ String "/" b) "?"
            && (strings.CountByte ("//" ++ h ++ String "/" b) "?" =? 1)%nat).
  - change (url.init ("//" ++ h ++ String "/" b))
      with (url.init (("//" ++ h) ++ String "/" b)).
    rewrite init_app.
    destruct b as [|x b].
    + exists "", true, "". split; [reflexivity|now left].
    + exists (String "/" (url.init (String x b))), true, "".
      split; [reflexivity|]. right. eexists. split; [reflexivity|].
      now apply all_bytes_init.
  - rewrite (CutByte_prefix "//" _ "?" eq_refl).
    rewrite (CutByte_prefix h _ "?" h_no_query).
    cbn [strings.CutByte Ascii.eqb Bool.eqb].
    pose proof (CutByte_all_bytes plain_byte b "?" Hb) as [H1 _].
    destruct (strings.CutByte b "?") as [[before after] found].
    cbn [fst] in H1.
    exists (String "/" before), false, after. split; [reflexivity|].
    right. now exists before.
Qed.

Lemma parse_known_host (b : string) :
  plain b = true ->
  exists u, url.parse ("https://" ++ h ++ String "/" b) = inl u
            /\ url.Host u = h.
Proof.
  intros Hb. unfold url.parse.
  rewrite !CTL_app, h_no_CTL.
  change (url.stringContainsCTLByte "https://") with false.
  rewrite (plain_no_CTL (String "/" b)) by exact Hb.
  cbn [orb].
  change (String.eqb ("https://" ++ h ++ String "/" b) "*") with false.
  cbv iota.
  change (url.getScheme ("https://" ++ h ++ String "/" b))
    with (@inl (string * string) url.Error
               ("https", "//" ++ h ++ String "/" b)).
  change (url.ToLower "https") with "https".
  destruct (query_split_host b Hb) as (z & force & query & -> & Hz).
  change (strings.HasPrefix ("//" ++ h ++ z) "/") with true.
  change (strings.HasPrefix ("//" ++ h ++ z) "//") with true.
  change (String.eqb "https" "") with false.
  cbn [negb andb orb].
  change (strings.drop 2 ("//" ++ h ++ z)) with (h ++ z).
  rewrite (CutByte_prefix h z "/" h_no_slash).
  destruct Hz as [->|(r3 & -> & Hr)].
  - cbn [strings.CutByte]. rewrite append_empty_r, h_authority.
    eexists. split; reflexivity.
  - cbn [strings.CutByte Ascii.eqb Bool.eqb].
    rewrite append_empty_r, h_authority.
    rewrite (unescape_plain (String "/" r3) url.encodePath eq_refl)
      by exact Hr.
    eexists. split; reflexivity.
Qed.

Lemma Parse_known_host (q : string) :
  plain q = true ->
  exists u, url.Parse ("https://" ++ h ++ String "/" q) = inl u
            /\ url.Host u = h.
Proof.
  intros Hq. unfold url.Parse.
  rewrite (CutByte_prefix "https://" _ "#" eq_refl).
  rewrite (CutByte_prefix h _ "#" h_no_hash).
  cbn [strings.CutByte Ascii.eqb Bool.eqb].
  pose proof (CutByte_all_bytes plain_byte q "#" Hq) as [H1 H2].
  destruct (strings.CutByte q "#") as [[b frag] found]. cbn [fst snd] in *.
  destruct (parse_known_host b H1) as (u & E & Hu).
  rewrite E.
  destruct frag as [|x frag]; [now exists u|].
  rewrite (unescape_plain (String x frag) url.encodeFragment eq_refl)
    by exact H2.
  eexists. split; [reflexivity|exact Hu].
Qed.

End KnownHost.

(** *** The repositories that are named without a scheme *)

Lemma strip_suffix_inv (suf s r : string) :
  strings.strip_suffix suf s = Some r -> s = r ++ suf.
Proof.
  revert r. induction s as [|c s IH]; intros r; cbn [strings.strip_suffix].
  - destruct (String.eqb_spec "" suf) as [<-|_]; [|discriminate].
    now intros [= <-].
  - destruct (String.eqb_spec (String c s) suf) as [<-|_].
    + now intros [= <-].
    + destruct (strings.strip_suffix suf s) as [r'|]; [|discriminate].
      intros [= <-]. cbn [append]. now rewrite <- (IH r' eq_refl).
Qed.

Lemma TrimSuffix_all_bytes (P : ascii -> bool) (s suf : string) :
  all_bytes P s = true -> all_bytes P (strings.TrimSuffix s suf) = true.
Proof.
  intros H. unfold strings.TrimSuffix.
  destruct (strings.strip_suffix suf s) as [r|] eqn:E; [|exact H].
  apply strip_suffix_inv in E. rewrite E, all_bytes_app in H.
  now apply andb_true_iff in H as [H _].
Qed.

(** A URL that does not start with [git@] loses one [.git] suffix and
    gains the scheme. *)
Lemma normalizeRepoURL_scheme_less (r : string) :
  strings.HasPrefix r "git@" = false ->
  normalizeRepoURL r = "https://" ++ strings.TrimSuffix r ".git".
Proof.
  intros H. unfold normalizeRepoURL. rewrite H.
  destruct (strings.HasSuffix r ".git") eqn:E; [reflexivity|].
  unfold strings.TrimSuffix. now rewrite (strip_suffix_none _ _ E).
Qed.

Ltac known_host h :=
  let u := fresh "u" in
  let E := fresh "E" in
  let Hu := fresh "Hu" in
  match goal with
  | Hq : plain ?q = true |- _ =>
      destruct (Parse_known_host h eq_refl eq_refl eq_refl eq_refl eq_refl
                                 q Hq) as (u & E & Hu);
      unfold identifyGitHost;
      cbn [append] in E |- *; rewrite E, Hu; reflexivity
  end.

Lemma identifyGitHost_known (q : string) :
  plain q = true ->
  identifyGitHost ("https://github.com/" ++ q) = GitHostGitHub
  /\ identifyGitHost ("https://gitlab.com/" ++ q) = GitHostGitLab
  /\ identifyGitHost ("https://codeberg.org/" ++ q) = GitHostCodeberg
  /\ identifyGitHost ("https://git.sr.ht/" ++ q) = GitHostSourcehut.
Proof.
  intros Hq. repeat split.
  - known_host "github.com".
  - known_host "gitlab.com".
  - known_host "codeberg.org".
  - known_host "git.sr.ht".
Qed.

Ltac trim_under_host :=
  unfold strings.TrimSuffix;
  cbn [append strings.strip_suffix String.eqb Ascii.eqb Bool.eqb];
  match goal with
  | |- context [strings.strip_suffix ?suf ?p] =>
      destruct (strings.strip_suffix suf p); reflexivity
  end.

Lemma TrimSuffix_under_host (p : string) :
  strings.TrimSuffix ("github.com/" ++ p) ".git"
  = "github.com/" ++ strings.TrimSuffix p ".git"
  /\ strings.TrimSuffix ("gitlab.com/" ++ p) ".git"
     = "gitlab.com/" ++ strings.TrimSuffix p ".git"
  /\ strings.TrimSuffix ("codeberg.org/" ++ p) ".git"
     = "codeberg.org/" ++ strings.TrimSuffix p ".git"
  /\ strings.TrimSuffix ("git.sr.ht/" ++ p) ".git"
     = "git.sr.ht/" ++ strings.TrimSuffix p ".git".
Proof. repeat split; trim_under_host. Qed.

(** X1.  A repository named without a scheme on one of the four known
    hosts is looked up on that host: [fetchDescription] runs the extractor of
    the host on the [https] URL of the repository, its [.git] suffix
    removed.  The path is any text free of control bytes and percent
    signs. *)
Theorem fetchDescription_known_hosts (web : string -> response) (p : string) :
  plain p = true ->
  let q := strings.TrimSuffix p ".git" in
  fetchDescription web ("github.com/" ++ p)
  = extractGitHubDescription web ("https://github.com/" ++ q)
  /\ fetchDescription web ("gitlab.com/" ++ p)
     = extractGitLabDescription web ("https://gitlab.com/" ++ q)
  /\ fetchDescription web ("codeberg.org/" ++ p)
     = extractCodebergDescription web ("https://codeberg.org/" ++ q)
  /\ fetchDescription web ("git.sr.ht/" ++ p)
     = extractSourcehutDescription web ("https://git.sr.ht/" ++ q).
Proof.
  intros Hp q.
  assert (Hq : plain q = true) by now apply TrimSuffix_all_bytes.
  destruct (identifyGitHost_known q Hq) as (G1 & G2 & G3 & G4).
  destruct (TrimSuffix_under_host p) as (T1 & T2 & T3 & T4).
  fold q in T1, T2, T3, T4.
  unfold fetchDescription.
  rewrite !normalizeRepoURL_scheme_less by reflexivity.
  rewrite T1, T2, T3, T4.
  change ("https://" ++ "github.com/" ++ q) with ("https://github.com/" ++ q).
  change ("https://" ++ "gitlab.com/" ++ q) with ("https://gitlab.com/" ++ q).
  change ("https://" ++ "codeberg.org/" ++ q)
    with ("https://codeberg.org/" ++ q).
  change ("https://" ++ "git.sr.ht/" ++ q) with ("https://git.sr.ht/" ++ q).
  rewrite G1, G2, G3, G4.
  repeat split.
Qed.

(** *** What a description is *)

Section Descriptions.

Variable web : string -> response.

Lemma extract_trimmed (selector : document -> list string)
      (accept : string -> string) (repoURL : string) :
  (forall t, strings.TrimSpace (accept t) = accept t) ->
  strings.TrimSpace (extract web selector accept repoURL)
  = extract web selector accept repoURL.
Proof.
  intros H. unfold extract.
  destruct (web repoURL) as [d| |]; try reflexivity.
  destruct (first_accepted_cases accept (selector d))
    as [->|(rj & t & rest & _ & _ & _ & ->)]; [reflexivity|apply H].
Qed.

Lemma GitHub_rule_trimmed (t : string) :
  strings.TrimSpace
    (let text := strings.TrimSpace t in
     if negb (String.eqb text "") && negb (strings.Contains text "http")
     then text else "")
  = (let text := strings.TrimSpace t in
     if negb (String.eqb text "") && negb (strings.Contains text "http")
     then text else "").
Proof.
  cbv zeta.
  destruct (negb (String.eqb (strings.TrimSpace t) "")
            && negb (strings.Contains (strings.TrimSpace t) "http"));
    [apply TrimSpace_idempotent|reflexivity].
Qed.

Lemma Sourcehut_rule_trimmed (t : string) :
  strings.TrimSpace
    (let text := strings.TrimSpace t in
     if ((10 <? String.length text) && (String.length text <? 200))%nat
     then text else "")
  = (let text := strings.TrimSpace t in
     if ((10 <? String.length text) && (String.length text <? 200))%nat
     then text else "").
Proof.
  cbv zeta.
  destruct ((10 <? String.length (strings.TrimSpace t))
            && (String.length (strings.TrimSpace t) <? 200))%nat;
    [apply TrimSpace_idempotent|reflexivity].
Qed.

Lemma fetchDescription_trimmed (repoURL : string) :
  strings.TrimSpace (fetchDescription web repoURL)
  = fetchDescription web repoURL.
Proof.
  unfold fetchDescription.
  destruct (String.eqb repoURL ""); [reflexivity|].
  destruct (identifyGitHost (normalizeRepoURL repoURL)); try reflexivity.
  - apply extract_trimmed, GitHub_rule_trimmed.
  - apply extract_trimmed, TrimSpace_idempotent.
  - apply extract_trimmed, TrimSpace_idempotent.
  - apply extract_trimmed, Sourcehut_rule_trimmed.
Qed.

End Descriptions.

(** X2.  Whatever the site holds, a description is trimmed text: trimming
    it again changes nothing.  One taken from GitHub never holds [http]; one
    taken from Sourcehut is empty or has from 11 to 199 bytes. *)
Theorem descriptions_accepted (web : string -> response) (repoURL : string) :
  (let r := extractGitHubDescription web repoURL in
   strings.TrimSpace r = r /\ strings.Contains r "http" = false)
  /\ (let r := extractGitLabDescription web repoURL in
      strings.TrimSpace r = r)
  /\ (let r := extractCodebergDescription web repoURL in
      strings.TrimSpace r = r)
  /\ (let r := extractSourcehutDescription web repoURL in
      strings.TrimSpace r = r
      /\ (r = "" \/ (10 < String.length r < 200)%nat))
  /\ strings.TrimSpace (fetchDescription web repoURL)
     = fetchDescription web repoURL.
Proof.
  cbv zeta. repeat split.
  - apply extract_trimmed, GitHub_rule_trimmed.
  - unfold extractGitHubDescription, extract.
    destruct (web repoURL) as [d| |]; try reflexivity.
    match goal with
    | |- context [first_accepted ?a ?l] =>
        destruct (first_accepted_cases a l)
          as [->|(rj & t & rest & _ & _ & _ & ->)]
    end; [reflexivity|]. cbv beta zeta.
    destruct (String.eqb (strings.TrimSpace t) ""); [reflexivity|].
    destruct (strings.Contains (strings.TrimSpace t) "http") eqn:E;
      [reflexivity|exact E].
  - apply extract_trimmed, TrimSpace_idempotent.
  - apply extract_trimmed, TrimSpace_idempotent.
  - apply extract_trimmed, Sourcehut_rule_trimmed.
  - unfold extractSourcehutDescription, extract.
    destruct (web repoURL) as [d| |]; try (now left).
    match goal with
    | |- context [first_accepted ?a ?l] =>
        destruct (first_accepted_cases a l)
          as [->|(rj & t & rest & _ & _ & _ & ->)]
    end; [now left|]. cbv beta zeta.
    destruct (10 <? String.length (strings.TrimSpace t))%nat eqn:A;
      [|now left].
    destruct (String.length (strings.TrimSpace t) <? 200)%nat eqn:B;
      [|now left].
    right. apply Nat.ltb_lt in A, B. cbn [andb]. lia.
  - apply fetchDescription_trimmed.
Qed.

(** X3.  Each extractor returns the trimmed text of the first element that
    its rule accepts, in the order of the document: GitHub passes over the
    blank texts and those that hold [http], GitLab and Codeberg over the
    blank texts, Sourcehut over the texts of at most 10 or at least 200
    bytes.  The elements that follow are not looked at. *)
Theorem descriptions_first_accepted (web : string -> response)
        (repoURL : string) (d : document) (rejected : list string)
        (t : string) (rest : list string) :
  web repoURL = Scraped d ->
  let text := strings.TrimSpace t in
  (p_f4 d = (rejected ++ t :: rest)%list ->
   Forall (fun x => strings.TrimSpace x = ""
                    \/ strings.Contains (strings.TrimSpace x) "http" = true)
          rejected ->
   text <> "" -> strings.Contains text "http" = false ->
   extractGitHubDescription web repoURL = text)
  /\ (home_panel_description d = (rejected ++ t :: rest)%list ->
      Forall (fun x => strings.TrimSpace x = "") rejected ->
      text <> "" ->
      extractGitLabDescription web repoURL = text)
  /\ (repo_description d = (rejected ++ t :: rest)%list ->
      Forall (fun x => strings.TrimSpace x = "") rejected ->
      text <> "" ->
      extractCodebergDescription web repoURL = text)
  /\ (blob_content_p d = (rejected ++ t :: rest)%list ->
      Forall (fun x => sourcehut_length (strings.TrimSpace x) = false)
             rejected ->
      sourcehut_length text = true ->
      extractSourcehutDescription web repoURL = text).
Proof.
  intros W text. repeat split.
  - intros S R N C. unfold extractGitHubDescription, extract. rewrite W, S.
    rewrite first_accepted_first.
    + cbv zeta. fold text. apply String.eqb_neq in N. now rewrite N, C.
    + eapply Forall_impl; [|exact R]. cbv beta zeta. intros x [-> | ->].
      * reflexivity.
      * now rewrite andb_false_r.
    + cbv zeta. fold text. apply String.eqb_neq in N. rewrite N, C.
      now apply String.eqb_neq.
  - intros S R N. unfold extractGitLabDescription, extract. rewrite W, S.
    now apply first_accepted_first.
  - intros S R N. unfold extractCodebergDescription, extract. rewrite W, S.
    now apply first_accepted_first.
  - intros S R L. unfold extractSourcehutDescription, extract. rewrite W, S.
    assert (N : text <> "").
    { intros E. rewrite E in L. discriminate L. }
    rewrite first_accepted_first.
    + cbv zeta. fold text. unfold sourcehut_length in L. now rewrite L.
    + eapply Forall_impl; [|exact R]. cbv beta zeta. intros x H.
      unfold sourcehut_length in H. now rewrite H.
    + cbv zeta. fold text. unfold sourcehut_length in L. now rewrite L.
Qed.

Lemma descriptions_first_accepted_witness :
  extractGitHubDescription one_repository "https://github.com/user/repo"
  = "A tool.".
Proof.
  apply (proj1 (descriptions_first_accepted one_repository
                  "https://github.com/user/repo" github_page
                  ["  see https://example.com  "] "  A tool.  "
                  ["Another."] eq_refl)).
  - reflexivity.
  - constructor; [right; reflexivity|constructor].
  - discriminate.
  - reflexivity.
Defined.

(** *** [Sprinkle] *)

Lemma length_take (n : nat) (s : string) :
  String.length (strings.take n s) = Nat.min n (String.length s).
Proof.
  revert s. induction n as [|n IH]; intros [|c s]; cbn; auto.
Qed.

(** X4.  [Sprinkle] prints [here], then fails on a nil package, and fails
    on a package without leaving a trace in it.  When it succeeds, the
    repository is named, its description was found, and the package differs
    only by its synopsis: the description, cut after 500 bytes and marked
    [...>] when it is longer; the synopsis is printed, is not empty and has
    at most 504 bytes. *)
Theorem Sprinkle_outcome (web : string -> response) (p : Package) :
  Sprinkle web None = (None, ["here"], Some Errorf_package_is_nil)
  /\ (forall p' out e,
         Sprinkle web (Some p) = (p', out, Some e) ->
         p' = Some p /\ out = ["here"])
  /\ (forall p' out,
         Sprinkle web (Some p) = (p', out, None) ->
         let description := fetchDescription web (Package_Repository p) in
         let synopsis :=
           if (500 <? String.length description)%nat
           then strings.take 500 description ++ "...>"
           else description in
         Package_Repository p <> "" /\ description <> ""
         /\ p' = Some (with_Synopsis p synopsis)
         /\ out = ["here"; synopsis]
         /\ synopsis <> ""
         /\ (String.length synopsis <= 504)%nat).
Proof.
  split; [reflexivity|]. unfold Sprinkle.
  destruct (String.eqb_spec (Package_Repository p) "") as [R|R].
  { split; [now intros p' out e [= <- <- _]|discriminate]. }
  rewrite fetchDescription_trimmed.
  destruct (String.eqb_spec (fetchDescription web (Package_Repository p)) "")
    as [D|D].
  { split; [now intros p' out e [= <- <- _]|discriminate]. }
  split; [discriminate|].
  intros p' out [= <- <-]. cbv zeta.
  set (description := fetchDescription web (Package_Repository p)) in *.
  repeat split; trivial.
  - destruct (500 <? String.length description)%nat; [|exact D].
    destruct (strings.take 500 description); discriminate.
  - destruct (500 <? String.length description)%nat eqn:L.
    + rewrite length_app, length_take. cbn [String.length]. lia.
    + apply Nat.ltb_ge in L. lia.
Qed.

Lemma Sprinkle_outcome_witness :
  "github.com/user/repo" <> ""
  /\ "A tool." <> ""
  /\ Some (with_Synopsis
             (with_Repository (new_Package "github.com/user/repo")
                              "github.com/user/repo") "A tool.")
     = Some (with_Synopsis
               (with_Repository (new_Package "github.com/user/repo")
                                "github.com/user/repo") "A tool.")
  /\ ["here"; "A tool."] = ["here"; "A tool."]
  /\ "A tool." <> ""
  /\ (7 <= 504)%nat.
Proof.
  exact (proj2 (proj2 (Sprinkle_outcome one_repository
                         (with_Repository
                            (new_Package "github.com/user/repo")
                            "github.com/user/repo")))
           (Some (with_Synopsis
                    (with_Repository (new_Package "github.com/user/repo")
                                     "github.com/user/repo") "A tool."))
           ["here"; "A tool."] eq_refl).
Defined.

(** *** The images and the kind of a package *)

Lemma has_prefix_common (p q s : string) :
  strings.has_prefix (p ++ q) (p ++ s) = strings.has_prefix q s.
Proof.
  induction p as [|a p IH]; [reflexivity|].
  cbn [append strings.has_prefix]. now rewrite Ascii.eqb_refl, IH.
Qed.

Section ImagesAndKinds.

Variable clock : nat -> time.Time.
Variable c : client.
Variable req_Package : string.

Lemma on_img_absolute (alt src : string) (st : describe_state) :
  exists url,
    on_img c st (alt, src)
    = Done (with_p st (with_Images (d_p st)
                         (Package_Images (d_p st) ++ [mkImage alt url])))
    /\ absolute c url = true.
Proof.
  unfold on_img, absolute.
  destruct (strings.HasPrefix src "http") eqn:H; cbn [negb].
  - exists src. split; [reflexivity|]. now rewrite H.
  - destruct (strings.HasPrefix src "/") eqn:S.
    + exists (baseURL c ++ src). split; [reflexivity|].
      apply has_prefix_app in S as [r ->].
      unfold strings.HasPrefix at 2. rewrite has_prefix_common.
      apply orb_true_r.
    + exists (baseURL c ++ "/" ++ src). split; [reflexivity|].
      unfold strings.HasPrefix at 2. rewrite has_prefix_common.
      apply orb_true_r.
Qed.

(** The images are appended one for each element, in the order of the
    document, and each URL passes the test. *)
Lemma Each_on_img_absolute (l : list (string * string)) :
  forall st, exists st' new,
    Each (on_img c) l st = Done st'
    /\ d_errs st' = d_errs st
    /\ Package_IsPackage (d_p st') = Package_IsPackage (d_p st)
    /\ Package_IsModule (d_p st') = Package_IsModule (d_p st)
    /\ Package_Images (d_p st') = (Package_Images (d_p st) ++ new)%list
    /\ map Image_Alt new = map fst l
    /\ Forall (fun i => absolute c (Image_URL i) = true) new.
Proof.
  induction l as [|[alt src] l IH]; intros st.
  - exists st, []. rewrite app_nil_r. repeat split; trivial.
  - destruct (on_img_absolute alt src st) as (url & E & A).
    cbn [Each]. rewrite E. cbn [bind].
    match goal with
    | |- context [Each _ l ?s1] =>
        destruct (IH s1) as (st' & new & E' & R & P & M & I & L & F)
    end.
    exists st', (mkImage alt url :: new). split; [exact E'|].
    cbn [with_p d_p d_errs with_Images Package_Images Package_IsPackage
         Package_IsModule] in *.
    repeat split; trivial.
    + now rewrite I, <- app_assoc.
    + cbn [map Image_Alt fst]. now rewrite L.
    + now constructor.
Qed.

(** After the scan of the siblings of a title, a kind flag is up or an
    error has been added; a flag that is up stays up. *)
Lemma scan_siblings_kind (siblings : list string) :
  forall st,
    let st' := scan_siblings req_Package siblings st in
    (Package_IsPackage (d_p st) = true -> Package_IsPackage (d_p st') = true)
    /\ (Package_IsModule (d_p st) = true -> Package_IsModule (d_p st') = true)
    /\ (Package_IsPackage (d_p st') || Package_IsModule (d_p st') = true
        \/ d_errs st' <> []).
Proof.
  assert (D : forall st,
             let st' :=
               if negb (Package_IsPackage (d_p st))
                  && negb (Package_IsModule (d_p st))
               then mkDescribe (d_p st)
                      (d_errs st ++ [Errorf_IsPackage_false req_Package])
                      (d_calls st)
               else st in
             (Package_IsPackage (d_p st) = true ->
              Package_IsPackage (d_p st') = true)
             /\ (Package_IsModule (d_p st) = true ->
                 Package_IsModule (d_p st') = true)
             /\ (Package_IsPackage (d_p st') || Package_IsModule (d_p st')
                 = true
                 \/ d_errs st' <> [])).
  { intros st.
    destruct (Package_IsPackage (d_p st)) eqn:P;
      destruct (Package_IsModule (d_p st)) eqn:M; cbn;
      rewrite ?P, ?M; repeat split; auto.
    right. now destruct (d_errs st). }
  induction siblings as [|text next IH]; intros st; cbn [scan_siblings].
  - apply D.
  - destruct (String.eqb text "command"); [apply IH|].
    destruct (String.eqb text "package").
    { destruct (IH (with_p st (with_IsPackage (d_p st) true)))
        as (H1 & H2 & H3).
      cbn [with_p d_p with_IsPackage Package_IsPackage Package_IsModule]
        in H1, H2.
      repeat split; auto. }
    destruct (String.eqb text "module").
    { destruct (IH (with_p st (with_IsModule (d_p st) true)))
        as (H1 & H2 & H3).
      cbn [with_p d_p with_IsModule Package_IsPackage Package_IsModule]
        in H1, H2.
      repeat split; auto. }
    apply D.
Qed.

Lemma Each_titleHeading_kind (l : list (list string)) :
  forall st, exists st',
    Each (on_titleHeading req_Package) l st = Done st'
    /\ (Package_IsPackage (d_p st) = true -> Package_IsPackage (d_p st') = true)
    /\ (Package_IsModule (d_p st) = true -> Package_IsModule (d_p st') = true)
    /\ (d_errs st <> [] -> d_errs st' <> [])
    /\ (l <> [] ->
        Package_IsPackage (d_p st') || Package_IsModule (d_p st') = true
        \/ d_errs st' <> []).
Proof.
  induction l as [|siblings l IH]; intros st.
  - exists st. repeat split; trivial. congruence.
  - cbn [Each on_titleHeading bind].
    destruct (IH (scan_siblings req_Package siblings st))
      as (st' & E & P & M & R & _).
    destruct (scan_siblings_kind siblings st) as (P1 & M1 & K1).
    destruct (scan_siblings_errs req_Package siblings st) as (_ & more & R1).
    exists st'. split; [exact E|]. repeat split; auto.
    + intros N. apply R. rewrite R1. destruct (d_errs st); [congruence|].
      discriminate.
    + intros _. destruct K1 as [K1|K1]; [|right; auto].
      left. apply orb_true_iff in K1 as [K1|K1].
      * now rewrite (P K1).
      * rewrite (M K1). apply orb_true_r.
Qed.

Lemma DescribePackage_callbacks_result (legacy : bool) (d : document) :
  exists st' new,
    DescribePackage_callbacks clock c legacy req_Package d
      (mkDescribe (new_Package req_Package) [] O) = Done st'
    /\ Package_Images (d_p st') = new
    /\ map Image_Alt new = map fst (UnitReadme_content_img d)
    /\ Forall (fun i => absolute c (Image_URL i) = true) new
    /\ (UnitHeader_titleHeading d <> [] ->
        Package_IsPackage (d_p st') || Package_IsModule (d_p st') = true
        \/ d_errs st' <> []).
Proof.
  unfold DescribePackage_callbacks.
  set (st := mkDescribe (new_Package req_Package) [] O).
  destruct (Each_keeps _ on_UnitHeader_version_keeps (UnitHeader_version d) st)
    as (s1 & -> & K1). cbn [bind].
  destruct (Each_keeps _ on_UnitHeader_licenses_keeps
              (UnitHeader_licenses d) s1) as (s2 & -> & K2). cbn [bind].
  destruct (Each_keeps _ on_UnitMeta_keeps (UnitMeta d) s2)
    as (s3 & -> & K3). cbn [bind].
  destruct (Each_keeps _ on_UnitMeta_repo_keeps (UnitMeta_repo d) s3)
    as (s4 & -> & K4). cbn [bind].
  destruct (Each_keeps _ (on_UnitHeader_commitTime_keeps clock)
              (UnitHeader_commitTime d) s4) as (s5 & -> & K5). cbn [bind].
  assert (K : keeps st s5).
  { repeat (eapply keeps_trans; [eassumption|]). apply keeps_refl. }
  destruct K as (_ & _ & I5 & _).
  destruct (Each_titleHeading req_Package (UnitHeader_titleHeading d) s5)
    as (s6 & more6 & E6 & _ & I6 & _).
  destruct (Each_titleHeading_kind (UnitHeader_titleHeading d) s5)
    as (s6' & E6' & _ & _ & _ & H6).
  rewrite E6 in E6'. injection E6' as <-. rewrite E6. cbn [bind].
  assert (S : exists s7,
             (if legacy
              then Each on_SearchSnippet_synopsis (SearchSnippet_synopsis d) s6
              else Done s6) = Done s7 /\ keeps s6 s7).
  { destruct legacy.
    - apply (Each_keeps _ on_SearchSnippet_synopsis_keeps).
    - exists s6. split; [reflexivity|apply keeps_refl]. }
  destruct S as (s7 & -> & (P7 & M7 & I7 & more7 & R7)). cbn [bind].
  destruct (Each_on_img_absolute (UnitReadme_content_img d) s7)
    as (s8 & new & -> & R8 & P8 & M8 & I8 & L8 & F8).
  exists s8, new. split; [reflexivity|].
  split; [now rewrite I8, I7, I6, I5|].
  split; [exact L8|]. split; [exact F8|].
  intros N. rewrite P8, M8, P7, M7, R8, R7.
  destruct (H6 N) as [H|H]; [now left|right].
  destruct (d_errs s6); [congruence|discriminate].
Qed.

End ImagesAndKinds.

(** X5.  The record that [DescribePackage] returns lists one image for
    each [img] of the readme, in the order of the document and with its
    [alt]; each URL either starts with [http] or is the base URL, a slash and
    the rest.  When the page has a title heading, the record is a package or
    a module. *)
Theorem DescribePackage_images_and_kind
        (clock : nat -> time.Time) (web : string -> response) (c : client)
        (legacy : bool) (req_Package : string) (d : document) (p : Package) :
  web (baseURL c ++ "/" ++ req_Package) = Scraped d ->
  DescribePackage_variant clock web c legacy req_Package
  = Done (Some p, None) ->
  map Image_Alt (Package_Images p) = map fst (UnitReadme_content_img d)
  /\ Forall (fun i => absolute c (Image_URL i) = true) (Package_Images p)
  /\ (UnitHeader_titleHeading d <> [] ->
      Package_IsPackage p || Package_IsModule p = true).
Proof.
  intros W. unfold DescribePackage_variant. rewrite W.
  destruct (DescribePackage_callbacks_result clock c req_Package legacy d)
    as (st & new & -> & I & L & F & K).
  cbn [bind]. unfold finish.
  destruct (d_errs st) eqn:E; [|discriminate].
  intros [= <-]. rewrite I. repeat split; trivial.
  intros N. destruct (K N) as [H|H]; [exact H|congruence].
Qed.

Lemma DescribePackage_images_and_kind_witness :
  map Image_Alt
      [mkImage "logo" "https://pkg.go.dev/logo.png";
       mkImage "badge" "https://img.example/b.svg"]
  = map fst (UnitReadme_content_img package_page)
  /\ Forall (fun i => absolute New (Image_URL i) = true)
            [mkImage "logo" "https://pkg.go.dev/logo.png";
             mkImage "badge" "https://img.example/b.svg"]
  /\ (UnitHeader_titleHeading package_page <> [] -> true || true = true).
Proof.
  exact (DescribePackage_images_and_kind example_clock one_package New false
           "github.com/user/repo" package_page
           (mkPackage "github.com/user/repo" true true "v1.0.0" "2006-01-02"
              "MIT" true true false true "github.com/user/repo" ""
              [mkImage "logo" "https://pkg.go.dev/logo.png";
               mkImage "badge" "https://img.example/b.svg"])
           eq_refl eq_refl).
Defined.

(** *** A search that succeeds *)

Section SearchDates.

Variable clock : nat -> time.Time.
Variable web : string -> response.
Variable c : client.
Variable req : SearchRequest.

Lemma errs_grow (errs : list error) (e : error) : (errs ++ [e])%list <> [].
Proof. destruct errs; discriminate. Qed.

Lemma Search_snippet_clean (st : search_state) (s : snippet)
      (st' : search_state) :
  Search_snippet clock req st s = Done st' ->
  clean_search clock web c req st -> clean_search clock web c req st'.
Proof.
  unfold Search_snippet, clean_search.
  destruct (Limit req <=? Z.of_nat (List.length (s_results st))).
  { intros [= <-]. exact (fun H => H). }
  destruct (Split_cons (infoLabel_spans s) " published on ")
    as (t & ts & ->).
  cbn [List.length Nat.ltb Nat.leb index nth_error bind].
  destruct (normalizeTime (clock (s_calls st))
              (strings.TrimSpace (snippet_published s)))
    as [[out [err|]]|p] eqn:N; cbn [bind]; [| |discriminate].
  - intros [= <-] _ E. cbn [s_errs] in E. now apply errs_grow in E.
  - intros [= <-] H E. cbn [s_errs s_results s_visited] in *.
    destruct (H E) as [D V]. split; [|exact V].
    apply Forall_app. split; [exact D|]. constructor; [|constructor].
    cbn [SearchResult_Published]. eexists (s_calls st), _. exact N.
Qed.

Lemma on_SearchResults_clean (st : search_state) (l : list snippet)
      (st' : search_state) :
  on_SearchResults clock req st l = Done st' ->
  clean_search clock web c req st -> clean_search clock web c req st'.
Proof.
  destruct l as [|s l]; cbn [on_SearchResults].
  - intros [= <-]. exact (fun H => H).
  - apply (Each_preserves (clean_search clock web c req)).
    apply Search_snippet_clean.
Qed.

(** A visit that returns no error has fetched its page. *)
Lemma Search_Visit_clean (st st' : search_state) :
  Search_Visit clock web c req st = Done (st', None) ->
  clean_search clock web c req st -> clean_search clock web c req st'.
Proof.
  unfold Search_Visit.
  destruct (web (Search_url c req (s_page st))) as [d|code e|e] eqn:W;
    [|discriminate|discriminate].
  match goal with
  | |- context [Each _ _ ?s0] =>
      destruct (Each _ _ s0) as [st1|p] eqn:E; [|discriminate];
      pose proof (Each_preserves (clean_search clock web c req) _
                    on_SearchResults_clean _ _ _ E) as H
  end.
  cbn [bind]. intros [= <-] C. apply H.
  unfold clean_search in *. cbn [s_errs s_results s_visited].
  intros N. destruct (C N) as [D V]. split; [exact D|].
  apply Forall_app. split; [exact V|]. constructor; [|constructor].
  now exists d.
Qed.

Lemma Search_loop_clean (fuel : nat) :
  forall st st',
    Search_loop clock web c fuel req st = Some (Done st') ->
    clean_search clock web c req st -> clean_search clock web c req st'.
Proof.
  induction fuel as [|fuel IH]; intros st st' H C.
  - cbn [Search_loop] in H.
    destruct (s_shouldContinue st
              && (Z.of_nat (List.length (s_results st)) <? Limit req));
      [discriminate|]. now injection H as <-.
  - rewrite Search_loop_S in H.
    destruct (s_shouldContinue st
              && (Z.of_nat (List.length (s_results st)) <? Limit req)).
    2:{ now injection H as <-. }
    destruct (Search_Visit clock web c req st) as [[st1 [err|]]|p] eqn:V;
      [| |discriminate].
    + injection H as <-. intros E. cbn [s_errs] in E.
      now apply errs_grow in E.
    + pose proof (Search_Visit_clean st st1 V C) as C1.
      destruct (10 <? s_page st1 + 1).
      * injection H as <-. exact C1.
      * apply (IH _ _ H). exact C1.
Qed.

End SearchDates.

(** X6.  What [Search] returns when it returns results: no error, every
    date of publication one that [normalizeTime] returned without an error
    (the raw text that stands in for a date that could not be read never
    reaches the caller, the error recorded with it making the search fail),
    and every page requested one that was fetched. *)
Theorem Search_success_is_clean
        (clock : nat -> time.Time) (web : string -> response) (c : client)
        (req : SearchRequest) (fuel : nat) :
  (forall results errs,
      client_Search clock web c fuel req = Some (Done (Some results, errs)) ->
      errs = None
      /\ Forall (fun r => accepted_date clock (SearchResult_Published r))
                (Results results))
  /\ (forall st,
         Search_loop clock web c fuel req Search_start = Some (Done st) ->
         s_errs st = [] ->
         Forall (fun page => exists d, web (Search_url c req page) = Scraped d)
                (s_visited st)).
Proof.
  split.
  - intros results errs H. unfold client_Search in H.
    destruct (Search_loop clock web c fuel req Search_start)
      as [[st|p]|] eqn:E; try discriminate.
    apply Search_loop_clean in E; [|intros _; split; constructor].
    cbn in H. unfold finish in H.
    destruct (s_errs st) eqn:N; [|discriminate].
    injection H as <- <-. split; [reflexivity|]. now apply E.
  - intros st E N. apply Search_loop_clean in E;
      [|intros _; split; constructor].
    now apply E.
Qed.

Lemma Search_success_is_clean_witness :
  @None ErrorList = None
  /\ Forall (fun r => accepted_date example_clock (SearchResult_Published r))
            [mkSearchResult "github.com/a/b" "v1.2.3" "2006-01-02" 1234
                            "MIT" "A package.";
             mkSearchResult "github.com/a/b" "v1.2.3" "2006-01-02" 1234
                            "MIT" "A package."].
Proof.
  exact (proj1 (Search_success_is_clean example_clock pages_of_three New
                  (mkSearchRequest "go" 2) 10)
           (mkSearchResults
              [mkSearchResult "github.com/a/b" "v1.2.3" "2006-01-02" 1234
                              "MIT" "A package.";
               mkSearchResult "github.com/a/b" "v1.2.3" "2006-01-02" 1234
                              "MIT" "A package."])
           None eq_refl).
Defined.

(** *** A search on pages without results *)

Lemma range_cons (lo n : Z) :
  1 <= n -> range lo n = lo :: range (lo + 1) (n - 1).
Proof.
  intros H. unfold range.
  replace (Z.to_nat n) with (S (Z.to_nat (n - 1))) by lia.
  cbn [seq map]. rewrite <- seq_shift, map_map. f_equal; [lia|].
  apply map_ext. intros k. lia.
Qed.

Section EmptySearch.

Variable clock : nat -> time.Time.
Variable web : string -> response.
Variable c : client.
Variable req : SearchRequest.
Hypothesis positive : 0 < Limit req.

Lemma Search_loop_without_container (fuel : nat) :
  without_container web ->
  forall st,
    s_shouldContinue st = true -> s_results st = [] -> s_errs st = [] ->
    1 <= s_page st <= 10 ->
    11 - s_page st <= Z.of_nat fuel ->
    exists st',
      Search_loop clock web c fuel req st = Some (Done st')
      /\ s_results st' = [] /\ s_errs st' = []
      /\ s_visited st'
         = (s_visited st ++ range (s_page st) (11 - s_page st))%list.
Proof.
  intros W. induction fuel as [|fuel IH]; intros st Hc Hr He Hp Hf; [lia|].
  rewrite Search_loop_S, Hc, Hr. cbn [List.length andb Z.of_nat].
  replace (0 <? Limit req) with true by (symmetry; apply Z.ltb_lt; lia).
  unfold Search_Visit.
  destruct (W (Search_url c req (s_page st))) as (d & -> & ->).
  cbn [Each bind s_page s_results s_errs s_shouldContinue s_calls s_visited].
  rewrite Hr, He.
  destruct (10 <? s_page st + 1) eqn:T.
  - apply Z.ltb_lt in T. eexists. split; [reflexivity|].
    cbn [s_results s_errs s_visited]. repeat split.
    replace (s_page st) with 10 by lia. reflexivity.
  - apply Z.ltb_ge in T.
    match goal with
    | |- context [Search_loop _ _ _ fuel req ?s2] =>
        destruct (IH s2) as (st' & E & R & N & V)
    end; cbn [s_page s_results s_errs s_shouldContinue s_visited];
      trivial; try lia.
    exists st'. split; [exact E|]. repeat split; trivial.
    rewrite V. cbn [s_visited s_page]. rewrite <- app_assoc. f_equal.
    rewrite (range_cons (s_page st)) by lia. cbn [app]. f_equal. f_equal. lia.
Qed.

End EmptySearch.

(** X7.  For a positive limit, on a site whose pages hold no
    [.SearchResults] element, [Search] requests the ten pages in order and
    then returns no result and no error; a first page whose one
    [.SearchResults] element holds no snippet stops it after one request. *)
Theorem Search_of_empty_pages
        (clock : nat -> time.Time) (web : string -> response) (c : client)
        (req : SearchRequest) :
  0 < Limit req ->
  (without_container web ->
   exists st,
     Search_loop clock web c 10 req Search_start = Some (Done st)
     /\ s_visited st = [1; 2; 3; 4; 5; 6; 7; 8; 9; 10]
     /\ client_Search clock web c 10 req
        = Some (Done (Some (mkSearchResults []), None)))
  /\ (forall d,
         web (Search_url c req 1) = Scraped d ->
         SearchResults_sel d = [[]] ->
         exists st,
           Search_loop clock web c 10 req Search_start = Some (Done st)
           /\ s_visited st = [1]
           /\ client_Search clock web c 10 req
              = Some (Done (Some (mkSearchResults []), None))).
Proof.
  intros L. split.
  - intros W.
    destruct (Search_loop_without_container clock web c req L 10 W Search_start)
      as (st & E & R & N & V); try reflexivity; cbn; try lia.
    exists st. split; [exact E|]. split; [exact V|].
    unfold client_Search. rewrite E. cbn. now rewrite R, N.
  - intros d W S.
    assert (E : Search_loop clock web c 10 req Search_start
                = Some (Done (mkSearch [] [] false 2 O [1]))).
    { rewrite Search_loop_S. unfold Search_start.
      cbn [s_shouldContinue s_results List.length andb Z.of_nat].
      replace (0 <? Limit req) with true by (symmetry; apply Z.ltb_lt; lia).
      unfold Search_Visit. cbn [s_page]. rewrite W, S.
      cbn [Each on_SearchResults bind s_page s_results s_errs s_calls
           s_visited s_shouldContinue app].
      change (10 <? 1 + 1) with false. cbv iota.
      rewrite Search_loop_S. reflexivity. }
    eexists. split; [exact E|]. split; [reflexivity|].
    unfold client_Search. now rewrite E.
Qed.

Lemma Search_of_empty_pages_witness :
  exists st,
    Search_loop example_clock empty_pages New 10 (mkSearchRequest "go" 25)
                Search_start = Some (Done st)
    /\ s_visited st = [1; 2; 3; 4; 5; 6; 7; 8; 9; 10]
    /\ client_Search example_clock empty_pages New 10
                     (mkSearchRequest "go" 25)
       = Some (Done (Some (mkSearchResults []), None)).
Proof.
  apply (Search_of_empty_pages example_clock empty_pages New
           (mkSearchRequest "go" 25)); [reflexivity|].
  intros url. now exists empty_document.
Defined.

(** *** The legacy [Search] on a query without results *)

Section LegacyZero.

Variable clock : nat -> time.Time.
Variable web : string -> response.
Variable c : client.
Variable req : SearchRequest.

Lemma Each_zero_results (l : list string) (st : search_state) :
  Forall (fun text => strings.TrimSpace text = "0 results") l ->
  Each (legacy_on_results_total req) l st = Done st.
Proof.
  intros F. induction F as [|t l Ht F IH]; [reflexivity|].
  cbn [Each]. unfold legacy_on_results_total at 1. rewrite Ht.
  cbn [String.eqb Ascii.eqb Bool.eqb bind]. exact IH.
Qed.

Lemma legacy_Search_loop_zero (fuel : nat) :
  zero_results web ->
  forall st, s_shouldContinue st = true -> s_errs st = [] ->
             legacy_Search_loop clock web c fuel req st = None.
Proof.
  intros W. induction fuel as [|fuel IH]; intros st Hc He;
    cbn [legacy_Search_loop]; rewrite Hc; [reflexivity|].
  unfold legacy_Search_Visit. cbv zeta. cbn [s_page].
  destruct (W (legacy_Search_url c req (s_page st))) as (d & -> & Z & ->).
  rewrite (Each_zero_results _ _ Z).
  cbn [Each bind s_errs s_results s_shouldContinue s_page s_calls s_visited].
  rewrite He. apply IH; [exact Hc|reflexivity].
Qed.

End LegacyZero.

(** X8.  The legacy [Search] does not return for a query without results:
    the header [0 results] leaves [morePages] up, so that on a site whose
    pages hold such headers, or none, and no snippet, no number of
    iterations ends the loop. *)
Theorem legacy_Search_without_results_never_returns
        (clock : nat -> time.Time) (web : string -> response) (c : client)
        (req : SearchRequest) (fuel : nat) :
  zero_results web ->
  legacy_Search clock web c fuel req = None.
Proof.
  intros W. unfold legacy_Search.
  now apply legacy_Search_loop_zero.
Qed.

Lemma legacy_Search_without_results_never_returns_witness :
  legacy_Search example_clock zero_results_pages New 1000
                (mkSearchRequest "nosuchpackage" 25) = None.
Proof.
  apply legacy_Search_without_results_never_returns.
  intros url. eexists. split; [reflexivity|].
  split; [|reflexivity]. repeat constructor.
Defined.

(** *** The errors of [Versions] that are fatal *)

Section VersionsErrors.

Variable clock : nat -> time.Time.

Lemma Versions_child_details_errs (st : versions_walk) (s : node) :
  HasClass s "Version-commitTime" = false ->
  exists st' new,
    Versions_child clock st s = Done st'
    /\ walk_errs st' = walk_errs st
    /\ walk_versions st' = (walk_versions st ++ new)%list
    /\ Forall (accepted clock) new.
Proof.
  intros H. unfold Versions_child, on_Version_commitTime.
  destruct (early_tests_keep st s) as (V1 & E1 & _ & _). cbv zeta in *.
  replace (HasClass s "Version-commitTime") with false. cbn [bind].
  destruct (on_Version_details_spec clock
              (on_Version_tag (on_Version_major st s) s) s)
    as (st' & new & log & E & V & R & _ & A & _).
  exists st', new. split; [exact E|]. split; [congruence|].
  split; [congruence|exact A].
Qed.

Lemma Each_details_errs (nodes : list node) :
  Forall (fun s => HasClass s "Version-commitTime" = false) nodes ->
  forall st, exists st' new,
    Each (Versions_child clock) nodes st = Done st'
    /\ walk_errs st' = walk_errs st
    /\ walk_versions st' = (walk_versions st ++ new)%list
    /\ Forall (accepted clock) new.
Proof.
  intros F. induction F as [|s l Hs F IH]; intros st.
  - exists st, []. rewrite app_nil_r. repeat split; trivial.
  - destruct (Versions_child_details_errs st s Hs)
      as (s1 & n1 & E1 & R1 & V1 & A1).
    destruct (IH s1) as (s2 & n2 & E2 & R2 & V2 & A2).
    exists s2, (n1 ++ n2)%list. cbn [Each]. rewrite E1. cbn [bind].
    split; [exact E2|]. split; [congruence|].
    split; [now rewrite V2, V1, app_assoc|].
    apply Forall_app. now split.
Qed.

Lemma Each_lists_details_errs (lists : list (list node)) :
  Forall (Forall (fun s => HasClass s "Version-commitTime" = false)) lists ->
  forall st, exists st' new,
    Each (Versions_list_callback clock) lists st = Done st'
    /\ walk_errs st' = walk_errs st
    /\ walk_versions st' = (walk_versions st ++ new)%list
    /\ Forall (accepted clock) new.
Proof.
  intros F. induction F as [|l ls Hl F IH]; intros st.
  - exists st, []. rewrite app_nil_r. repeat split; trivial.
  - cbn [Each]. unfold Versions_list_callback at 1.
    match goal with
    | |- context [Each (Versions_child clock) l ?s0] =>
        destruct (Each_details_errs l Hl s0) as (s1 & n1 & E1 & R1 & V1 & A1)
    end.
    rewrite E1. cbn [bind]. cbn [walk_errs walk_versions] in R1, V1.
    destruct (IH s1) as (s2 & n2 & E2 & R2 & V2 & A2).
    exists s2, (n1 ++ n2)%list.
    split; [exact E2|]. split; [congruence|].
    split; [now rewrite V2, V1, app_assoc|].
    apply Forall_app. now split.
Qed.

End VersionsErrors.

(** X9.  A date of a [Version-details] block that cannot be read is
    reported and nothing more: on a page whose lists hold no
    [Version-commitTime] child, [Versions] returns its records, each with an
    accepted date, and no error. *)
Theorem Versions_details_never_fatal
        (clock : nat -> time.Time) (web : string -> response) (c : client)
        (req_Package : string) (d : document) :
  web (baseURL c ++ "/" ++ req_Package ++ "?tab=versions") = Scraped d ->
  details_only d ->
  exists versions,
    client_Versions clock web c req_Package
    = Done (Some (mkVersions req_Package versions), None)
    /\ Forall (accepted clock) versions.
Proof.
  intros W D. unfold client_Versions. rewrite W.
  destruct (Each_lists_details_errs clock (Versions_list d) D
              Versions_walk_start) as (st & new & -> & R & V & A).
  cbn [bind]. rewrite R, V. cbn [Versions_walk_start walk_errs walk_versions
    finish app].
  now exists new.
Qed.

Lemma Versions_details_never_fatal_witness :
  exists versions,
    client_Versions example_clock one_details_page New "example.com/pkg"
    = Done (Some (mkVersions "example.com/pkg" versions), None)
    /\ Forall (accepted example_clock) versions.
Proof.
  apply (Versions_details_never_fatal example_clock one_details_page New
           "example.com/pkg" details_page); [reflexivity|].
  repeat constructor.
Defined.

(** *** The dates that the site prints *)

Lemma daysIn_31 (m y : Z) : 1 <= m <= 12 -> time.daysIn m y <= 31.
Proof.
  intros H.
  assert (D : m = 1 \/ m = 2 \/ m = 3 \/ m = 4 \/ m = 5 \/ m = 6 \/ m = 7
              \/ m = 8 \/ m = 9 \/ m = 10 \/ m = 11 \/ m = 12) by lia.
  unfold time.daysIn.
  repeat (destruct D as [->|D];
          [destruct (time.isLeap y); cbn; lia|]).
  subst. cbn. lia.
Qed.

Lemma digit_value_char (k : Z) :
  0 <= k < 10 -> digit_value (digit_char k) = k.
Proof.
  intros H.
  assert (D : k = 0 \/ k = 1 \/ k = 2 \/ k = 3 \/ k = 4 \/ k = 5 \/ k = 6
              \/ k = 7 \/ k = 8 \/ k = 9) by lia.
  repeat (destruct D as [->|D]; [reflexivity|]). now subst.
Qed.

(** The four digits of a year. *)
Lemma appendInt_year (y : Z) :
  0 <= y <= 9999 ->
  time.appendInt y 4
  = String (digit_char (y / 1000))
      (String (digit_char (y / 100 mod 10))
         (String (digit_char (y / 10 mod 10))
            (String (digit_char (y mod 10)) ""))).
Proof.
  intros H. unfold time.appendInt, decimal.
  replace (y <? 0) with false by (symmetry; apply Z.ltb_ge; lia).
  replace (Z.abs y) with y by lia.
  assert (F : 10 <= y -> (3 <= Z.to_nat (Z.log2 y))%nat).
  { intros G. pose proof (Z.log2_le_mono 8 y ltac:(lia)) as L.
    change (Z.log2 8) with 3 in L. lia. }
  destruct (Z.ltb_spec y 10) as [A|A].
  { cbn [utod]. replace (y <? 10) with true by (symmetry; apply Z.ltb_lt; lia).
    cbn [String.length Nat.sub time.zeros append].
    rewrite (Z.div_small y 1000), (Z.div_small y 100), (Z.div_small y 10)
      by lia.
    now rewrite (Z.mod_small y 10) by lia. }
  specialize (F A).
  destruct (Z.to_nat (Z.log2 y)) as [|[|[|f]]]; try lia. clear F.
  cbn [utod].
  replace (y <? 10) with false by (symmetry; apply Z.ltb_ge; lia).
  destruct (Z.ltb_spec (y / 10) 10) as [B|B].
  { cbn [String.length Nat.sub time.zeros append].
    assert (Y : y < 100) by (Z.div_mod_to_equations; lia).
    replace (y / 1000) with 0 by (symmetry; apply Z.div_small; lia).
    replace (y / 100) with 0 by (symmetry; apply Z.div_small; lia).
    reflexivity. }
  destruct (Z.ltb_spec (y / 10 / 10) 10) as [C|C].
  { cbn [String.length Nat.sub time.zeros append].
    assert (Y : y < 1000) by (Z.div_mod_to_equations; lia).
    replace (y / 1000) with 0 by (symmetry; apply Z.div_small; lia).
    replace (y / 10 / 10) with (y / 100)
      by (rewrite Z.div_div by lia; reflexivity).
    reflexivity. }
  replace (y / 10 / 10 / 10 <? 10) with true
    by (symmetry; apply Z.ltb_lt; Z.div_mod_to_equations; lia).
  cbn [String.length Nat.sub time.zeros append].
  replace (y / 10 / 10 / 10) with (y / 1000)
    by (rewrite !Z.div_div by lia; reflexivity).
  replace (y / 10 / 10) with (y / 100)
    by (rewrite Z.div_div by lia; reflexivity).
  replace (y / 1000 mod 10) with (y / 1000)
    by (symmetry; apply Z.mod_small; Z.div_mod_to_equations; lia).
  reflexivity.
Qed.

Lemma getyear_appendInt (y : Z) :
  0 <= y <= 9999 -> time.getyear (time.appendInt y 4) = (Some y, "").
Proof.
  intros H. rewrite (appendInt_year y H). unfold time.getyear.
  assert (D3 : 0 <= y / 1000 < 10) by (Z.div_mod_to_equations; lia).
  assert (D2 : 0 <= y / 100 mod 10 < 10) by (apply Z.mod_pos_bound; lia).
  assert (D1 : 0 <= y / 10 mod 10 < 10) by (apply Z.mod_pos_bound; lia).
  assert (D0 : 0 <= y mod 10 < 10) by (apply Z.mod_pos_bound; lia).
  rewrite !digit_char_isDigit, !digit_value_char by assumption.
  cbn [andb]. do 2 f_equal. Z.div_mod_to_equations. lia.
Qed.

Lemma appendInt_day (tail : string) (d : Z) :
  1 <= d <= 31 ->
  time.appendInt d 0 = decimal d
  /\ time.skip (String " " (decimal d ++ tail)) " " = (decimal d ++ tail, true)
  /\ time.getnum (decimal d ++ String "," tail) false
     = Some (d, String "," tail)
  /\ all_bytes day_year_byte (decimal d) = true.
Proof.
  intros H.
  assert (D : d = 1 \/ d = 2 \/ d = 3 \/ d = 4 \/ d = 5 \/ d = 6 \/ d = 7
              \/ d = 8 \/ d = 9 \/ d = 10 \/ d = 11 \/ d = 12 \/ d = 13
              \/ d = 14 \/ d = 15 \/ d = 16 \/ d = 17 \/ d = 18 \/ d = 19
              \/ d = 20 \/ d = 21 \/ d = 22 \/ d = 23 \/ d = 24 \/ d = 25
              \/ d = 26 \/ d = 27 \/ d = 28 \/ d = 29 \/ d = 30 \/ d = 31)
    by lia.
  repeat (destruct D as [->|D]; [repeat split|]). subst. repeat split.
Qed.

Lemma month_name (tail : string) (m : Z) :
  1 <= m <= 12 ->
  time.lookup 0 time.shortMonthNames (time.nth_name (m - 1) ++ tail)
  = Some (m - 1, tail)
  /\ String.eqb (time.nth_name (m - 1) ++ tail) "today" = false
  /\ strings.Contains (time.nth_name (m - 1) ++ tail) "ago"
     = strings.Contains tail "ago".
Proof.
  intros H.
  assert (D : m = 1 \/ m = 2 \/ m = 3 \/ m = 4 \/ m = 5 \/ m = 6 \/ m = 7
              \/ m = 8 \/ m = 9 \/ m = 10 \/ m = 11 \/ m = 12) by lia.
  repeat (destruct D as [->|D]; [repeat split|]). subst. repeat split.
Qed.

Lemma year_bytes (y : Z) :
  0 <= y <= 9999 -> all_bytes day_year_byte (time.appendInt y 4) = true.
Proof.
  intros H. destruct (appendInt_digits y 3) as [_ D].
  { change (10 ^ Z.of_nat 4) with 10000. lia. }
  apply (all_bytes_weaken isDigit); [|exact D].
  intros c Hc. unfold day_year_byte. now rewrite Hc.
Qed.

Lemma cutspace_year (y : Z) :
  0 <= y <= 9999 ->
  time.cutspace (time.appendInt y 4) = time.appendInt y 4.
Proof.
  intros H. rewrite (appendInt_year y H).
  assert (D3 : 0 <= y / 1000 < 10) by (Z.div_mod_to_equations; lia).
  assert (D : y / 1000 = 0 \/ y / 1000 = 1 \/ y / 1000 = 2 \/ y / 1000 = 3
              \/ y / 1000 = 4 \/ y / 1000 = 5 \/ y / 1000 = 6
              \/ y / 1000 = 7 \/ y / 1000 = 8 \/ y / 1000 = 9) by lia.
  repeat (destruct D as [->|D]; [reflexivity|]). now rewrite D.
Qed.

Lemma Parse_rendered (y m d : Z) :
  0 <= y <= 9999 -> 1 <= m <= 12 -> 1 <= d <= time.daysIn m y ->
  rendered y m d <> "today"
  /\ strings.Contains (rendered y m d) "ago" = false
  /\ time.Parse time.layout_Jan_2_2006 (rendered y m d)
     = inl (time.Date y m d 0 0 0 0).
Proof.
  intros Hy Hm Hd. pose proof (daysIn_31 m y Hm) as H31.
  unfold rendered.
  set (tail := " " ++ decimal d ++ ", " ++ time.appendInt y 4).
  destruct (month_name tail m Hm) as (L & T & C).
  split; [now apply String.eqb_neq|]. split.
  - rewrite C. clear L T C. subst tail.
    destruct (strings.Contains _ "ago") eqn:A; [|reflexivity].
    apply Contains_first_byte in A.
    rewrite (all_bytes_not_in day_year_byte _ "a") in A;
      [discriminate|
       |reflexivity].
    destruct (appendInt_day "" d ltac:(lia)) as (_ & _ & _ & B).
    cbn [append all_bytes]. rewrite !all_bytes_app, B.
    cbn [all_bytes]. now rewrite year_bytes.
  - unfold time.Parse, time.layout_Jan_2_2006. cbn [time.parse_chunks].
    rewrite L. subst tail. cbn [append].
    destruct (appendInt_day (String "," (String " " (time.appendInt y 4))) d
                ltac:(lia)) as (_ & S & _ & _).
    change (decimal d ++ ", " ++ time.appendInt y 4)
      with (decimal d ++ String "," (String " " (time.appendInt y 4))).
    rewrite S.
    destruct (appendInt_day (String " " (time.appendInt y 4)) d ltac:(lia))
      as (_ & _ & G & _).
    rewrite G.
    change (time.skip (String "," (String " " (time.appendInt y 4))) ", ")
      with (time.cutspace (String " " (time.appendInt y 4)), true).
    change (time.cutspace (String " " (time.appendInt y 4)))
      with (time.cutspace (time.appendInt y 4)).
    rewrite (cutspace_year y Hy), (getyear_appendInt y Hy).
    replace (m - 1 + 1) with m by lia.
    replace (m <? 0) with false by (symmetry; apply Z.ltb_ge; lia).
    replace (d <? 0) with false by (symmetry; apply Z.ltb_ge; lia).
    replace (d <? 1) with false by (symmetry; apply Z.ltb_ge; lia).
    replace (time.daysIn m y <? d) with false
      by (symmetry; apply Z.ltb_ge; lia).
    reflexivity.
Qed.

Lemma Format_Jan_2_2006 (y m d : Z) :
  1 <= m <= 12 -> 1 <= d <= time.daysIn m y ->
  time.Format (time.Date y m d 0 0 0 0) time.layout_Jan_2_2006
  = rendered y m d.
Proof.
  intros Hm Hd. pose proof (daysIn_31 m y Hm) as H31.
  unfold time.Format. rewrite (civil_Date y m d Hm Hd).
  cbn [fold_right time.layout_Jan_2_2006 time.format_chunk].
  destruct (appendInt_day "" d ltac:(lia)) as (-> & _).
  unfold rendered. do 3 f_equal.
  generalize (time.appendInt y 4). intros s.
  cbn [append]. do 2 f_equal. induction s; cbn; congruence.
Qed.

(** X10.  A date of a year from 0 to 9999, printed the way the site prints
    it (the short name of the month, the day, a comma and the year of four
    digits, as [time.Format] does with the layout [Jan 2, 2006]), is read
    back by [normalizeTime] as that date and returned in the form
    year-month-day, zero-padded, whatever the clock says. *)
Theorem normalizeTime_rendered_dates (now : time.Time) (y m d : Z) :
  0 <= y <= 9999 -> 1 <= m <= 12 -> 1 <= d <= time.daysIn m y ->
  time.Format (time.Date y m d 0 0 0 0) time.layout_Jan_2_2006
  = rendered y m d
  /\ normalizeTime now (rendered y m d)
     = Done (time.appendInt y 4 ++ "-" ++ time.appendInt m 2 ++ "-"
             ++ time.appendInt d 2, None).
Proof.
  intros Hy Hm Hd. split; [now apply Format_Jan_2_2006|].
  destruct (Parse_rendered y m d Hy Hm Hd) as (T & A & P).
  rewrite (normalizeTime_absolute now _ T A), P.
  rewrite Format_2006_01_02, (civil_Date y m d Hm Hd). reflexivity.
Qed.

Lemma normalizeTime_rendered_dates_witness :
  time.Format (time.Date 2024 2 29 0 0 0 0) time.layout_Jan_2_2006
  = "Feb 29, 2024"
  /\ normalizeTime (example_clock 0) "Feb 29, 2024"
     = Done ("2024-02-29", None).
Proof.
  apply (normalizeTime_rendered_dates (example_clock 0) 2024 2 29);
    [lia|lia|vm_compute; split; discriminate].
Defined.

(** *** The shapes of a repository URL *)

Lemma plain_no_newline (s : string) :
  plain s = true -> regexp.no_newline s = true.
Proof.
  intros H. unfold regexp.no_newline.
  pose proof (all_bytes_not_in plain_byte s (byte_of 10) H eq_refl) as N.
  unfold strings.in_cutset in N.
  now destruct (strings.IndexByte s (byte_of 10)).
Qed.

(** X11.  What [normalizeRepoURL] returns always starts with [https://].  A
    URL that does not start with [git@] loses one [.git] suffix and gains the
    scheme; the SSH form [git@host:path.git], with a host free of colons and
    a path free of line feeds, becomes [https://host/path]. *)
Theorem normalizeRepoURL_shapes (repoURL : string) :
  strings.HasPrefix (normalizeRepoURL repoURL) "https://" = true
  /\ (strings.HasPrefix repoURL "git@" = false ->
      normalizeRepoURL repoURL
      = "https://" ++ strings.TrimSuffix repoURL ".git")
  /\ (forall host path,
         repoURL = "git@" ++ host ++ ":" ++ path ++ ".git" ->
         host <> "" -> path <> "" ->
         strings.in_cutset host ":" = false ->
         regexp.no_newline path = true ->
         normalizeRepoURL repoURL = "https://" ++ host ++ "/" ++ path).
Proof.
  split; [|split].
  - unfold normalizeRepoURL.
    destruct (strings.HasPrefix repoURL "git@"); [|reflexivity].
    destruct (regexp.FindStringSubmatch repoURL) as [|a [|b [|c [|e l]]]];
      reflexivity.
  - apply normalizeRepoURL_scheme_less.
  - intros host path -> Hh Hp Hc Hn. now apply normalizeRepoURL_ssh.
Qed.

Lemma normalizeRepoURL_shapes_witness :
  normalizeRepoURL "git@codeberg.org:user/repo.git"
  = "https://codeberg.org/user/repo".
Proof.
  apply (proj2 (proj2 (normalizeRepoURL_shapes
                         "git@codeberg.org:user/repo.git"))
           "codeberg.org" "user/repo");
    [reflexivity|discriminate|discriminate|reflexivity|reflexivity].
Defined.

(** X12.  A repository named in the SSH form on one of the four known
    hosts is looked up on that host, at the [https] URL of the same path. *)
Theorem fetchDescription_ssh_form (web : string -> response) (path : string) :
  path <> "" -> plain path = true ->
  fetchDescription web ("git@github.com:" ++ path ++ ".git")
  = extractGitHubDescription web ("https://github.com/" ++ path)
  /\ fetchDescription web ("git@gitlab.com:" ++ path ++ ".git")
     = extractGitLabDescription web ("https://gitlab.com/" ++ path)
  /\ fetchDescription web ("git@codeberg.org:" ++ path ++ ".git")
     = extractCodebergDescription web ("https://codeberg.org/" ++ path)
  /\ fetchDescription web ("git@git.sr.ht:" ++ path ++ ".git")
     = extractSourcehutDescription web ("https://git.sr.ht/" ++ path).
Proof.
  intros N Hp.
  destruct (identifyGitHost_known path Hp) as (G1 & G2 & G3 & G4).
  pose proof (plain_no_newline path Hp) as Hn.
  unfold fetchDescription.
  change (String.eqb ("git@github.com:" ++ path ++ ".git") "") with false.
  change (String.eqb ("git@gitlab.com:" ++ path ++ ".git") "") with false.
  change (String.eqb ("git@codeberg.org:" ++ path ++ ".git") "") with false.
  change (String.eqb ("git@git.sr.ht:" ++ path ++ ".git") "") with false.
  cbv iota.
  change ("git@github.com:" ++ path ++ ".git")
    with ("git@" ++ "github.com" ++ ":" ++ path ++ ".git").
  change ("git@gitlab.com:" ++ path ++ ".git")
    with ("git@" ++ "gitlab.com" ++ ":" ++ path ++ ".git").
  change ("git@codeberg.org:" ++ path ++ ".git")
    with ("git@" ++ "codeberg.org" ++ ":" ++ path ++ ".git").
  change ("git@git.sr.ht:" ++ path ++ ".git")
    with ("git@" ++ "git.sr.ht" ++ ":" ++ path ++ ".git").
  rewrite (normalizeRepoURL_ssh "github.com" path)
    by (trivial; discriminate).
  rewrite (normalizeRepoURL_ssh "gitlab.com" path)
    by (trivial; discriminate).
  rewrite (normalizeRepoURL_ssh "codeberg.org" path)
    by (trivial; discriminate).
  rewrite (normalizeRepoURL_ssh "git.sr.ht" path)
    by (trivial; discriminate).
  change ("https://" ++ "github.com" ++ "/" ++ path)
    with ("https://github.com/" ++ path).
  change ("https://" ++ "gitlab.com" ++ "/" ++ path)
    with ("https://gitlab.com/" ++ path).
  change ("https://" ++ "codeberg.org" ++ "/" ++ path)
    with ("https://codeberg.org/" ++ path).
  change ("https://" ++ "git.sr.ht" ++ "/" ++ path)
    with ("https://git.sr.ht/" ++ path).
  rewrite G1, G2, G3, G4. repeat split.
Qed.

Lemma fetchDescription_ssh_form_witness :
  fetchDescription one_repository "git@github.com:user/repo.git" = "A tool.".
Proof.
  exact (eq_trans
           (proj1 (fetchDescription_ssh_form one_repository "user/repo"
                     ltac:(discriminate) eq_refl))
           eq_refl).
Defined.

Lemma fetchDescription_known_hosts_witness :
  fetchDescription one_repository "github.com/user/repo.git" = "A tool.".
Proof.
  exact (eq_trans
           (proj1 (fetchDescription_known_hosts one_repository
                     "user/repo.git" eq_refl))
           eq_refl).
Defined.

(** *** [Sprinkle] and a repository that has its scheme *)

(** X13.  On a package whose repository is named with the scheme
    [https://], [Sprinkle] finds no description, whatever the site holds: it
    fails and leaves the package as it was. *)
Theorem Sprinkle_scheme_qualified (web : string -> response) (p : Package) :
  strings.HasPrefix (Package_Repository p) "https://" = true ->
  Sprinkle web (Some p)
  = (Some p, ["here"], Some Errorf_could_not_fetch_description).
Proof.
  intros H. apply has_prefix_app in H as [r E].
  unfold Sprinkle. rewrite E.
  change (String.eqb ("https://" ++ r) "") with false. cbv iota.
  unfold fetchDescription.
  change (String.eqb ("https://" ++ r) "") with false. cbv iota.
  now rewrite normalizeRepoURL_https, identifyGitHost_double_scheme.
Qed.

Lemma Sprinkle_scheme_qualified_witness :
  Sprinkle one_repository
           (Some (with_Repository (new_Package "github.com/user/repo")
                                  "https://github.com/user/repo"))
  = (Some (with_Repository (new_Package "github.com/user/repo")
                           "https://github.com/user/repo"),
     ["here"], Some Errorf_could_not_fetch_description).
Proof.
  apply (Sprinkle_scheme_qualified one_repository
           (with_Repository (new_Package "github.com/user/repo")
                            "https://github.com/user/repo")).
  reflexivity.
Defined.

(** *** The badges of a package *)

Lemma each_li_past_four (lis : list bool) :
  forall i p, (4 <= i)%nat -> badges (each_li i lis p) = badges p.
Proof.
  induction lis as [|b lis IH]; intros i p H; [reflexivity|].
  cbn [each_li]. rewrite IH by lia. unfold badges, with_badge.
  cbn [Package_HasValidGoModFile Package_HasRedistributableLicense
       Package_HasTaggedVersion Package_HasStableVersion].
  replace (i =? 0)%nat with false by (symmetry; apply Nat.eqb_neq; lia).
  replace (i =? 1)%nat with false by (symmetry; apply Nat.eqb_neq; lia).
  replace (i =? 2)%nat with false by (symmetry; apply Nat.eqb_neq; lia).
  replace (i =? 3)%nat with false by (symmetry; apply Nat.eqb_neq; lia).
  reflexivity.
Qed.

Lemma each_li_badges (lis : list bool) (p : Package) :
  badges (each_li 0 lis p)
  = (nth 0 lis (Package_HasValidGoModFile p),
     nth 1 lis (Package_HasRedistributableLicense p),
     nth 2 lis (Package_HasTaggedVersion p),
     nth 3 lis (Package_HasStableVersion p)).
Proof.
  destruct lis as [|a [|b [|c [|e lis]]]]; try reflexivity.
  cbn [each_li]. now rewrite each_li_past_four by lia.
Qed.

Section Badges.

Variable clock : nat -> time.Time.
Variable c : client.
Variable req_Package : string.

Lemma Each_keeps_badges {A : Type}
      (f : describe_state -> A -> outcome describe_state) :
  (forall st a st', f st a = Done st' -> keeps_badges st st') ->
  forall l st st', Each f l st = Done st' -> keeps_badges st st'.
Proof.
  intros H l st st' E.
  apply (Each_preserves (fun s => keeps_badges st s) f)
    with (l := l) (st := st);
    [|exact E|reflexivity].
  intros s a s' F K. unfold keeps_badges in *. now rewrite (H s a s' F).
Qed.

Lemma scan_siblings_badges (siblings : list string) :
  forall st, keeps_badges st (scan_siblings req_Package siblings st).
Proof.
  induction siblings as [|text next IH]; intros st; cbn [scan_siblings].
  - now destruct (negb _ && negb _).
  - destruct (String.eqb text "command"); [apply IH|].
    destruct (String.eqb text "package").
    { unfold keeps_badges. now rewrite IH. }
    destruct (String.eqb text "module").
    { unfold keeps_badges. now rewrite IH. }
    now destruct (negb _ && negb _).
Qed.

Lemma DescribePackage_callbacks_badges (legacy : bool) (d : document)
      (lis : list bool) (st st' : describe_state) :
  UnitMeta d = [lis] ->
  DescribePackage_callbacks clock c legacy req_Package d st = Done st' ->
  badges (d_p st') = badges (each_li 0 lis (d_p st)).
Proof.
  intros U. unfold DescribePackage_callbacks. rewrite U.
  destruct (Each on_UnitHeader_version _ st) as [s1|] eqn:E1; [|discriminate].
  cbn [bind].
  destruct (Each on_UnitHeader_licenses _ s1) as [s2|] eqn:E2;
    [|discriminate].
  cbn [bind Each on_UnitMeta].
  destruct (Each on_UnitMeta_repo _ _) as [s4|] eqn:E4; [|discriminate].
  cbn [bind].
  destruct (Each (on_UnitHeader_commitTime clock) _ s4) as [s5|] eqn:E5;
    [|discriminate].
  cbn [bind].
  destruct (Each (on_titleHeading req_Package) _ s5) as [s6|] eqn:E6;
    [|discriminate].
  cbn [bind].
  destruct (if legacy then _ else _) as [s7|] eqn:E7; [|discriminate].
  cbn [bind]. intros E8.
  apply Each_keeps_badges in E1; [|now intros s a s' [= <-]].
  apply Each_keeps_badges in E2; [|now intros s a s' [= <-]].
  apply Each_keeps_badges in E4; [|now intros s a s' [= <-]].
  apply Each_keeps_badges in E5.
  2:{ intros s a s'. unfold on_UnitHeader_commitTime.
      destruct (normalizeTime _ _) as [[out [err|]]|]; cbn [bind];
        [now intros [= <-]|now intros [= <-]|discriminate]. }
  apply Each_keeps_badges in E6.
  2:{ intros s a s' [= <-]. apply scan_siblings_badges. }
  assert (K7 : keeps_badges s6 s7).
  { destruct legacy; [|now injection E7 as <-].
    apply Each_keeps_badges in E7; [exact E7|now intros s a s' [= <-]]. }
  apply Each_keeps_badges in E8.
  2:{ intros s [alt src] s'. unfold on_img. now intros [= <-]. }
  unfold keeps_badges in *.
  rewrite E8, K7, E6, E5, E4. cbn [with_p d_p].
  rewrite !each_li_badges. unfold badges in E1, E2.
  injection E1 as A1 A2 A3 A4. injection E2 as B1 B2 B3 B4.
  congruence.
Qed.

End Badges.

(** X14.  On a page with one check list, the four badges of the record that
    [DescribePackage] returns are the first four items of the list, in
    order; a badge whose item is missing is down, and the items past the
    fourth are not looked at. *)
Theorem DescribePackage_badges
        (clock : nat -> time.Time) (web : string -> response) (c : client)
        (legacy : bool) (req_Package : string) (d : document)
        (lis : list bool) (p : Package) :
  web (baseURL c ++ "/" ++ req_Package) = Scraped d ->
  UnitMeta d = [lis] ->
  DescribePackage_variant clock web c legacy req_Package
  = Done (Some p, None) ->
  Package_HasValidGoModFile p = nth 0 lis false
  /\ Package_HasRedistributableLicense p = nth 1 lis false
  /\ Package_HasTaggedVersion p = nth 2 lis false
  /\ Package_HasStableVersion p = nth 3 lis false.
Proof.
  intros W U. unfold DescribePackage_variant. rewrite W.
  destruct (DescribePackage_callbacks _ _ _ _ _ _) as [st|] eqn:E;
    [|discriminate].
  apply (DescribePackage_callbacks_badges clock c req_Package legacy d lis)
    in E; [|exact U].
  cbn [bind]. unfold finish. destruct (d_errs st); [|discriminate].
  intros [= <-]. rewrite each_li_badges in E. cbn [d_p new_Package
    Package_HasValidGoModFile Package_HasRedistributableLicense
    Package_HasTaggedVersion Package_HasStableVersion] in E.
  unfold badges in E. injection E as -> -> -> ->. repeat split.
Qed.

Lemma DescribePackage_badges_witness :
  true = nth 0 [true; true; false; true; true] false
  /\ true = nth 1 [true; true; false; true; true] false
  /\ false = nth 2 [true; true; false; true; true] false
  /\ true = nth 3 [true; true; false; true; true] false.
Proof.
  exact (DescribePackage_badges example_clock one_package New false
           "github.com/user/repo" package_page
           [true; true; false; true; true]
           (mkPackage "github.com/user/repo" true true "v1.0.0" "2006-01-02"
              "MIT" true true false true "github.com/user/repo" ""
              [mkImage "logo" "https://pkg.go.dev/logo.png";
               mkImage "badge" "https://img.example/b.svg"])
           eq_refl eq_refl eq_refl).
Defined.

(** *** [ImportedBy] *)

Lemma fold_on_u_breakWord (texts : list string) :
  forall importedBy,
    fold_left on_u_breakWord texts importedBy
    = mkImportedBy (ImportedBy_Package importedBy)
                   (ImportedBy_ImportedBy importedBy
                    ++ map strings.TrimSpace texts).
Proof.
  induction texts as [|t texts IH]; intros [p l]; cbn [fold_left map].
  - now rewrite app_nil_r.
  - rewrite IH. unfold on_u_breakWord.
    cbn [ImportedBy_Package ImportedBy_ImportedBy].
    now rewrite <- app_assoc.
Qed.

(** X15.  [ImportedBy] returns the importers of a fetched page one for each
    [.u-breakWord] element, in the order of the document and trimmed; a 404
    gives the bare [ErrNotFound]; in every case it returns a record and no
    error, or no record and the error of a failed request. *)
Theorem ImportedBy_outcome (web : string -> response) (c : client)
        (u_breakWord : document -> list string) (req_Package : string) :
  let url := baseURL c ++ "/" ++ req_Package ++ "?tab=importedby" in
  (forall d,
      web url = Scraped d ->
      client_ImportedBy web c u_breakWord req_Package
      = (Some (mkImportedBy req_Package
                 (map strings.TrimSpace (u_breakWord d))), None))
  /\ (forall e,
         web url = Failed 404 e ->
         client_ImportedBy web c u_breakWord req_Package
         = (None, Some ErrNotFound))
  /\ (forall r err,
         client_ImportedBy web c u_breakWord req_Package = (r, err) ->
         match r, err with
         | Some importedBy, None =>
             ImportedBy_Package importedBy = req_Package
             /\ Forall (fun x => strings.TrimSpace x = x)
                       (ImportedBy_ImportedBy importedBy)
         | None, Some _ => exists code e, web url = Failed code e
         | _, _ => False
         end).
Proof.
  cbv zeta. unfold client_ImportedBy. repeat split.
  - intros d ->. now rewrite fold_on_u_breakWord.
  - intros e ->. reflexivity.
  - intros r err.
    destruct (web _) as [d|code e|e]; intros [= <- <-].
    + rewrite fold_on_u_breakWord. split; [reflexivity|].
      cbn [ImportedBy_ImportedBy app]. apply Forall_forall.
      intros x H. apply in_map_iff in H as (t & <- & _).
      apply TrimSpace_idempotent.
    + now exists code, e.
    + split; [reflexivity|constructor].
Qed.

Lemma ImportedBy_outcome_witness :
  client_ImportedBy empty_pages New example_importers "example.com/pkg"
  = (Some (mkImportedBy "example.com/pkg"
             ["github.com/a/b"; "github.com/c/d"]), None).
Proof.
  exact (proj1 (ImportedBy_outcome empty_pages New example_importers
                  "example.com/pkg") empty_document eq_refl).
Defined.

(** *** A commit time that is rejected *)

Lemma normalizeTime_error_any_time (now now' : time.Time) (s out : string)
      (e : error) :
  normalizeTime now s = Done (out, Some e) ->
  normalizeTime now' s = Done (out, Some e).
Proof.
  unfold normalizeTime.
  destruct (String.eqb s "today"); [discriminate|].
  destruct (strings.Contains s "ago").
  - destruct (index _ 0); [|discriminate]. cbn [bind].
    destruct (strconv.ParseInt a) as [n [err|]]; [trivial|].
    destruct (index _ 1); [|discriminate]. cbn [bind].
    repeat match goal with
           | |- context [if ?b then _ else _] => destruct b
           end; try discriminate; trivial.
  - destruct (time.Parse _ s); [discriminate|trivial].
Qed.

Section CommitTimes.

Variable clock : nat -> time.Time.

Lemma Versions_child_rejected (st : versions_walk) (s : node) (out : string)
      (e : error) :
  HasClass s "Version-commitTime" = true ->
  normalizeTime (clock O) (strings.TrimSpace (Text s)) = Done (out, Some e) ->
  exists st',
    Versions_child clock st s = Done st' /\ In e (walk_errs st').
Proof.
  intros H N. unfold Versions_child, on_Version_commitTime.
  replace (HasClass s "Version-commitTime") with true.
  rewrite (normalizeTime_error_any_time (clock O) _ _ _ _ N).
  cbn [bind]. eexists. split; [reflexivity|].
  cbn [walk_errs]. apply in_or_app. right. now left.
Qed.

Lemma Each_children_rejected (nodes : list node) (s : node) (out : string)
      (e : error) :
  In s nodes ->
  HasClass s "Version-commitTime" = true ->
  normalizeTime (clock O) (strings.TrimSpace (Text s)) = Done (out, Some e) ->
  forall st, exists st',
    Each (Versions_child clock) nodes st = Done st' /\ In e (walk_errs st').
Proof.
  intros I H N st. apply in_split in I as (pre & post & ->).
  rewrite Each_app.
  destruct (Versions_children_spec clock pre st)
    as (s1 & _ & _ & _ & -> & _). cbn [bind Each].
  destruct (Versions_child_rejected s1 s out e H N) as (s2 & -> & I2).
  cbn [bind].
  destruct (Versions_children_spec clock post s2)
    as (s3 & _ & errs & _ & -> & _ & R & _).
  exists s3. split; [reflexivity|]. rewrite R. apply in_or_app. now left.
Qed.

Lemma Versions_list_callback_errs (l : list node) (st : versions_walk) :
  exists st' errs,
    Versions_list_callback clock st l = Done st'
    /\ walk_errs st' = (walk_errs st ++ errs)%list.
Proof.
  unfold Versions_list_callback.
  match goal with
  | |- context [Each _ l ?s0] =>
      destruct (Versions_children_spec clock l s0)
        as (st' & _ & errs & _ & -> & _ & R & _)
  end.
  now exists st', errs.
Qed.

Lemma Each_lists_errs (lists : list (list node)) :
  forall st, exists st' errs,
    Each (Versions_list_callback clock) lists st = Done st'
    /\ walk_errs st' = (walk_errs st ++ errs)%list.
Proof.
  induction lists as [|l lists IH]; intros st.
  - exists st, []. now rewrite app_nil_r.
  - destruct (Versions_list_callback_errs l st) as (s1 & e1 & E1 & R1).
    destruct (IH s1) as (s2 & e2 & E2 & R2).
    exists s2, (e1 ++ e2)%list. cbn [Each]. rewrite E1. cbn [bind].
    split; [exact E2|]. now rewrite R2, R1, app_assoc.
Qed.

Lemma Each_lists_rejected (lists : list (list node)) (l : list node)
      (s : node) (out : string) (e : error) :
  In l lists -> In s l ->
  HasClass s "Version-commitTime" = true ->
  normalizeTime (clock O) (strings.TrimSpace (Text s)) = Done (out, Some e) ->
  forall st, exists st',
    Each (Versions_list_callback clock) lists st = Done st'
    /\ In e (walk_errs st').
Proof.
  intros Il Is H N st. apply in_split in Il as (pre & post & ->).
  rewrite Each_app.
  destruct (Each_lists_errs pre st) as (s1 & _ & -> & _). cbn [bind Each].
  unfold Versions_list_callback at 1.
  match goal with
  | |- context [Each (Versions_child clock) l ?s0] =>
      destruct (Each_children_rejected l s out e Is H N s0) as (s2 & -> & I2)
  end.
  cbn [bind].
  destruct (Each_lists_errs post s2) as (s3 & errs & -> & R).
  exists s3. split; [reflexivity|]. rewrite R. apply in_or_app. now left.
Qed.

End CommitTimes.

(** X16.  One [Version-commitTime] child with a date that [normalizeTime]
    rejects makes [Versions] fail: it returns the nil record and a list of
    errors that holds that error, whatever the other children are. *)
Theorem Versions_commit_time_fatal
        (clock : nat -> time.Time) (web : string -> response) (c : client)
        (req_Package : string) (d : document) (l : list node) (s : node)
        (out : string) (e : error) :
  web (baseURL c ++ "/" ++ req_Package ++ "?tab=versions") = Scraped d ->
  In l (Versions_list d) -> In s l ->
  HasClass s "Version-commitTime" = true ->
  normalizeTime (clock O) (strings.TrimSpace (Text s)) = Done (out, Some e) ->
  exists errs,
    client_Versions clock web c req_Package
    = Done (None, Some (mkErrorList errs))
    /\ In e errs.
Proof.
  intros W Il Is H N. unfold client_Versions. rewrite W.
  destruct (Each_lists_rejected clock (Versions_list d) l s out e Il Is H N
              Versions_walk_start) as (st & -> & I).
  cbn [bind]. unfold finish.
  destruct (walk_errs st) as [|x errs]; [contradiction|].
  now exists (x :: errs).
Qed.

Lemma Versions_commit_time_fatal_witness :
  exists errs,
    client_Versions example_clock one_commit_page New "example.com/pkg"
    = Done (None, Some (mkErrorList errs))
    /\ In (Errorf_parsing_date "yesterday"
             (ParseError (time.mkParseError "Jan 2, 2006" "yesterday" "Jan"
                                            "yesterday" time.BadValue)))
          errs.
Proof.
  apply (Versions_commit_time_fatal example_clock one_commit_page New
           "example.com/pkg" commit_page
           [major_label "v1"; version_tag "v1.2.0";
            commit_time "Jan 2, 2006"; version_tag "v1.1.0";
            commit_time "yesterday"; version_tag "v1.0.0";
            commit_time "Jan 1, 2006"]
           (commit_time "yesterday") "");
    [reflexivity|now left|cbn; tauto|reflexivity|reflexivity].
Defined.
